(** * lv: a fluent C++ binding layer over the LVGL engine

    Shallow embedding of the wrapper classes of [include/lv] and the
    properties their specification states about them.

    The wrapped engine (every [lv_*] function of [lvgl.h]) is external to
    the repository.  It is represented here by the calls the wrappers make
    into it: every wrapper method runs in a small state monad whose state
    holds the wrapper objects (by address) and the sequence of engine calls
    issued so far, oldest first.  Where a wrapper returns what the engine
    answered, the answer comes from an oracle that the definitions take as
    a parameter. *)

From Stdlib Require Import ZArith Lia.
From Stdlib.Strings Require Import Byte String.
From stdpp Require Import base option list gmap.

Local Open Scope Z_scope.

(** ** Pointers

    [lv_obj_t*], [lv_draw_buf_t*], [lv_layer_t*], [void*] ... are engine
    handles; the wrappers only store them, compare them with [nullptr] and
    pass them on. *)

Abbreviation ptr := Z.
Definition nullptr : ptr := 0.

(** [if (p)] on a pointer. *)
Definition non_null (p : ptr) : bool := negb (p =? nullptr).

(** ** Narrow integers

    A parameter declared [uint8_t] or [uint16_t] holds its argument
    converted to that type: the value modulo [2 ^ 8] or [2 ^ 16].  The
    other integer parameters, of the 32-bit types and of the integer types
    that [lvgl.h] names, stand for a value of their type. *)
Definition uint8 (z : Z) : Z := z mod 2 ^ 8.
Definition uint16 (z : Z) : Z := z mod 2 ^ 16.

(** [lv_result_t] of [lvgl.h]. *)
Inductive lv_result_t : Type := LV_RESULT_INVALID | LV_RESULT_OK.

Definition lv_result_eqb (a b : lv_result_t) : bool :=
  match a, b with
  | LV_RESULT_INVALID, LV_RESULT_INVALID => true
  | LV_RESULT_OK, LV_RESULT_OK => true
  | _, _ => false
  end.

(** What a member function hands back to its caller: nothing, a number
    (sizes, enumerators), a pointer, a [bool], an [lv_result_t], or a
    reference to a wrapper object (its address). *)
Inductive value : Type :=
| VVoid
| VInt (n : Z)
| VPtr (p : ptr)
| VBool (b : bool)
| VResult (r : lv_result_t)
| VRef (this : Z).

(** ** The machine: wrapper objects and the engine-call trace *)

Section Machine.
Context {V C : Type}.

(** [heap] maps the address of every live wrapper object to its data
    member ([m_obj], [m_buf], [m_style], ...); [trace] is the sequence of
    engine calls made so far. *)
Record state : Type := State { heap : gmap Z V; trace : list C }.

(** A computation either runs to a result and a new state, or is stuck
    because it touched an object that is not alive. *)
Definition M (A : Type) : Type := state → option (A * state).

Definition ret {A} (a : A) : M A := λ st, Some (a, st).

Definition bind {A B} (k : A → M B) (m : M A) : M B :=
  λ st, match m st with
        | Some (a, st') => k a st'
        | None => None
        end.

(** Read the data member of the object at [this]. *)
Definition load (this : Z) : M V :=
  λ st, match heap st !! this with
        | Some v => Some (v, st)
        | None => None
        end.

(** Assign the data member of the object at [this]. *)
Definition store (this : Z) (v : V) : M unit :=
  λ st, match heap st !! this with
        | Some _ => Some (tt, State (<[this := v]> (heap st)) (trace st))
        | None => None
        end.

(** Begin the lifetime of an object at [this]: the storage must not hold
    a live object. *)
Definition construct (this : Z) (v : V) : M unit :=
  λ st, match heap st !! this with
        | Some _ => None
        | None => Some (tt, State (<[this := v]> (heap st)) (trace st))
        end.

(** End the lifetime of the object at [this]. *)
Definition destroy (this : Z) : M unit :=
  λ st, match heap st !! this with
        | Some _ => Some (tt, State (delete this (heap st)) (trace st))
        | None => None
        end.

(** An engine call whose result the wrapper does not use. *)
Definition call (c : C) : M unit :=
  λ st, Some (tt, State (heap st) (trace st ++ [c])).

(** An engine call whose result the wrapper uses: the engine answers as
    a function of the calls it has received before and of this one. *)
Definition ask {R} (answer : list C → C → R) (c : C) : M R :=
  λ st, Some (answer (trace st) c, State (heap st) (trace st ++ [c])).

(** A read of engine-owned memory through a handle: no call is made;
    what is read depends on what the engine has been asked to do so far. *)
Definition peek {R} (read : list C → R) : M R :=
  λ st, Some (read (trace st), st).
End Machine.

Arguments state : clear implicits.
Arguments M : clear implicits.

(** What the engine answers to the calls of type [C] whose result a
    wrapper uses, by the type of the result. *)
Class Engine (C : Type) : Type := {
  answer_ptr : list C → C → ptr;
  answer_int : list C → C → Z;
  answer_bool : list C → C → bool;
  answer_result : list C → C → lv_result_t
}.

(** [M V C] with stdpp's notations for bind: [x ← m; k] and [m;; k]. *)
Global Instance M_bind {V C} : MBind (M V C) := @bind V C.

(** A member function that returns [*this]: it is given the address of the
    object and returns the address of the object it returns a reference
    to. *)
Abbreviation method V C := (Z → M V C Z).

(** A chain [x.m1(..).m2(..) ...]: every call is made on the reference the
    previous one returned. *)
Fixpoint chain {V C Mu : Type} (invoke : Mu → method V C) (ms : list Mu)
    (this : Z) : M V C Z :=
  match ms with
  | [] => ret this
  | m :: ms' => r ← invoke m this; chain invoke ms' r
  end.

(** ** core/color.hpp *)

(** [lv_color_t] of [lvgl.h]: three 8-bit channels. *)
Record lv_color_t : Type := lv_color { blue : byte; green : byte; red : byte }.

(** [lv_color32_t] of [lvgl.h]. *)
Record lv_color32_t : Type :=
  lv_color32 { blue32 : byte; green32 : byte; red32 : byte; alpha32 : byte }.

Module Color.

Section Mix.
(** [lv_color_mix] of the engine. *)
Variable lv_color_mix : lv_color_t → lv_color_t → byte → lv_color_t.

(** Mix two colors with a ratio (0 = color1, 255 = color2). *)
Definition color_mix (c1 c2 : lv_color_t) (ratio : byte) : lv_color_t :=
  lv_color_mix c2 c1 ratio.
End Mix.

(** The engine's [lv_color_mix] as LVGL 9 defines it: per channel
    [LV_UDIV255(c1 * mix + c2 * (255 - mix))], where [LV_UDIV255(x)] is
    [(x * 0x8081) >> 0x17]; the result is stored in a [uint8_t]. *)
Definition LV_UDIV255 (x : N) : N := N.shiftr (x * 0x8081) 0x17.

Definition mix_channel (a b mix : byte) : byte :=
  match Byte.of_N (LV_UDIV255 (Byte.to_N a * Byte.to_N mix
                               + Byte.to_N b * (255 - Byte.to_N mix))
                   mod 256)%N with
  | Some r => r
  | None => x00
  end.

Definition lvgl_color_mix (c1 c2 : lv_color_t) (mix : byte) : lv_color_t :=
  {| blue := mix_channel (blue c1) (blue c2) mix;
     green := mix_channel (green c1) (green c2) mix;
     red := mix_channel (red c1) (red c2) mix |}.

End Color.


(** ** The engine API used by core/object.hpp and by the style mixin

    One constructor per [lv_obj_*] function the wrappers call, with the
    arguments of the C function.  Enumerations, coordinates, selectors and
    opacities are integers. *)

Inductive obj_call : Type :=
| lv_obj_create (parent : ptr)
| lv_obj_delete (obj : ptr)
| lv_obj_clean (obj : ptr)
| lv_obj_get_user_data (obj : ptr)
| lv_obj_has_state (obj : ptr) (state : Z)
| lv_obj_has_flag (obj : ptr) (flag : Z)
| lv_obj_get_parent (obj : ptr)
| lv_obj_get_child_count (obj : ptr)
| lv_obj_get_child (obj : ptr) (idx : Z)
| lv_obj_set_size (obj : ptr) (w h : Z)
| lv_obj_set_width (obj : ptr) (w : Z)
| lv_obj_set_height (obj : ptr) (h : Z)
| lv_obj_set_pos (obj : ptr) (x y : Z)
| lv_obj_set_x (obj : ptr) (x : Z)
| lv_obj_set_y (obj : ptr) (y : Z)
| lv_obj_align (obj : ptr) (alignment x_ofs y_ofs : Z)
| lv_obj_set_align (obj : ptr) (alignment : Z)
| lv_obj_center (obj : ptr)
| lv_obj_set_flex_grow (obj : ptr) (factor : Z)
| lv_obj_add_flag (obj : ptr) (flag : Z)
| lv_obj_remove_flag (obj : ptr) (flag : Z)
| lv_obj_add_state (obj : ptr) (state : Z)
| lv_obj_remove_state (obj : ptr) (state : Z)
| lv_obj_set_user_data (obj data : ptr)
| lv_obj_set_scroll_dir (obj : ptr) (dir : Z)
| lv_obj_set_scrollbar_mode (obj : ptr) (mode : Z)
| lv_obj_set_scroll_snap_x (obj : ptr) (snap : Z)
| lv_obj_set_scroll_snap_y (obj : ptr) (snap : Z)
| lv_obj_set_ext_click_area (obj : ptr) (size : Z)
| lv_obj_set_flex_flow (obj : ptr) (flow : Z)
| lv_obj_set_flex_align (obj : ptr) (main cross track : Z)
| lv_obj_invalidate (obj : ptr)
| lv_obj_update_layout (obj : ptr)
| lv_obj_set_layout (obj : ptr) (l : Z)
| lv_obj_set_parent (obj new_parent : ptr)
| lv_obj_add_style (obj style : ptr) (selector : Z)
| lv_obj_remove_style (obj style : ptr) (selector : Z)
| lv_obj_remove_style_all (obj : ptr)
| lv_obj_scroll_by (obj : ptr) (x y anim_en : Z)
| lv_obj_scroll_to (obj : ptr) (x y anim_en : Z)
| lv_obj_update_snap (obj : ptr) (anim_en : Z)
| lv_obj_move_foreground (obj : ptr)
| lv_obj_move_background (obj : ptr)
| lv_obj_align_to (obj base : ptr) (align x_ofs y_ofs : Z)
| lv_obj_refresh_ext_draw_size (obj : ptr)
(* lv_obj_set_style_*: local style properties, core/style.hpp *)
| lv_obj_set_style_bg_color (obj : ptr) (color : lv_color_t) (sel : Z)
| lv_obj_set_style_bg_opa (obj : ptr) (opa sel : Z)
| lv_obj_set_style_bg_grad_color (obj : ptr) (color : lv_color_t) (sel : Z)
| lv_obj_set_style_bg_grad_dir (obj : ptr) (dir sel : Z)
| lv_obj_set_style_bg_grad_stop (obj : ptr) (stop sel : Z)
| lv_obj_set_style_bg_grad (obj grad : ptr) (sel : Z)
| lv_obj_set_style_bitmap_mask_src (obj src : ptr) (sel : Z)
| lv_obj_set_style_bg_image_src (obj src : ptr) (sel : Z)
| lv_obj_set_style_border_color (obj : ptr) (color : lv_color_t) (sel : Z)
| lv_obj_set_style_border_width (obj : ptr) (width sel : Z)
| lv_obj_set_style_pad_all (obj : ptr) (pad sel : Z)
| lv_obj_set_style_pad_top (obj : ptr) (pad sel : Z)
| lv_obj_set_style_pad_bottom (obj : ptr) (pad sel : Z)
| lv_obj_set_style_pad_left (obj : ptr) (pad sel : Z)
| lv_obj_set_style_pad_right (obj : ptr) (pad sel : Z)
| lv_obj_set_style_pad_row (obj : ptr) (pad sel : Z)
| lv_obj_set_style_pad_column (obj : ptr) (pad sel : Z)
| lv_obj_set_style_radius (obj : ptr) (r sel : Z)
| lv_obj_set_style_opa (obj : ptr) (opa sel : Z)
| lv_obj_set_style_blend_mode (obj : ptr) (mode sel : Z)
| lv_obj_set_style_text_color (obj : ptr) (color : lv_color_t) (sel : Z)
| lv_obj_set_style_text_font (obj font : ptr) (sel : Z)
| lv_obj_set_style_text_align (obj : ptr) (align sel : Z)
| lv_obj_set_style_text_line_space (obj : ptr) (space sel : Z)
| lv_obj_set_style_image_opa (obj : ptr) (opa sel : Z)
| lv_obj_set_style_image_recolor (obj : ptr) (color : lv_color_t) (sel : Z)
| lv_obj_set_style_image_recolor_opa (obj : ptr) (opa sel : Z)
| lv_obj_set_style_arc_width (obj : ptr) (width sel : Z)
| lv_obj_set_style_arc_color (obj : ptr) (color : lv_color_t) (sel : Z)
| lv_obj_set_style_arc_opa (obj : ptr) (opa sel : Z)
| lv_obj_set_style_arc_rounded (obj : ptr) (rounded : bool) (sel : Z)
| lv_obj_set_style_line_width (obj : ptr) (width sel : Z)
| lv_obj_set_style_line_color (obj : ptr) (color : lv_color_t) (sel : Z)
| lv_obj_set_style_line_opa (obj : ptr) (opa sel : Z)
| lv_obj_set_style_line_rounded (obj : ptr) (rounded : bool) (sel : Z)
| lv_obj_set_style_transform_pivot_x (obj : ptr) (x sel : Z)
| lv_obj_set_style_transform_pivot_y (obj : ptr) (y sel : Z)
| lv_obj_set_style_transform_rotation (obj : ptr) (angle sel : Z)
| lv_obj_set_style_transform_scale (obj : ptr) (scale sel : Z)
| lv_obj_set_style_transform_scale_x (obj : ptr) (scale sel : Z)
| lv_obj_set_style_transform_scale_y (obj : ptr) (scale sel : Z)
| lv_obj_set_style_transform_width (obj : ptr) (width sel : Z)
| lv_obj_set_style_transform_height (obj : ptr) (height sel : Z)
| lv_obj_set_style_border_side (obj : ptr) (side sel : Z)
| lv_obj_set_style_border_opa (obj : ptr) (opa sel : Z)
| lv_obj_set_style_min_width (obj : ptr) (w sel : Z)
| lv_obj_set_style_max_width (obj : ptr) (w sel : Z)
| lv_obj_set_style_min_height (obj : ptr) (h sel : Z)
| lv_obj_set_style_max_height (obj : ptr) (h sel : Z)
| lv_obj_set_style_margin_top (obj : ptr) (m sel : Z)
| lv_obj_set_style_margin_bottom (obj : ptr) (m sel : Z)
| lv_obj_set_style_margin_left (obj : ptr) (m sel : Z)
| lv_obj_set_style_margin_right (obj : ptr) (m sel : Z)
| lv_obj_set_style_anim_duration (obj : ptr) (duration sel : Z)
| lv_obj_set_style_flex_main_place (obj : ptr) (place sel : Z)
| lv_obj_set_style_flex_cross_place (obj : ptr) (place sel : Z)
| lv_obj_set_style_flex_track_place (obj : ptr) (place sel : Z)
| lv_obj_set_style_width (obj : ptr) (w sel : Z)
| lv_obj_set_style_height (obj : ptr) (h sel : Z)
| lv_obj_set_style_translate_x (obj : ptr) (x sel : Z)
| lv_obj_set_style_translate_y (obj : ptr) (y sel : Z).

(** Constants and macros of [lvgl.h] that the mixins pass to the engine. *)
Class LvConf : Type := {
  LV_SIZE_CONTENT : Z;
  LV_PCT : Z → Z;
  LV_OBJ_FLAG_HIDDEN : Z;
  LV_OBJ_FLAG_CLICKABLE : Z;
  LV_OBJ_FLAG_SCROLLABLE : Z;
  LV_LAYOUT_NONE : Z
}.

(** ** core/object.hpp: class ObjectView

    A view is one pointer, [m_obj]. *)

Module ObjectView.

(** [constexpr explicit ObjectView(lv_obj_t* obj)] and the default
    constructor, which creates a null view. *)
Definition ctor (this : Z) (obj : ptr) : M ptr obj_call unit :=
  construct this obj.

Definition ctor_default (this : Z) : M ptr obj_call unit :=
  construct this nullptr.

(** [get()]. *)
Definition get (this : Z) : M ptr obj_call ptr := load this.

(** [explicit operator bool()]. *)
Definition to_bool (this : Z) : M ptr obj_call bool :=
  m_obj ← load this; ret (non_null m_obj).

(** [bool operator==(const ObjectView& other)]. *)
Definition eq (this other : Z) : M ptr obj_call bool :=
  m_obj ← load this;
  other_m_obj ← load other;
  ret (m_obj =? other_m_obj).

(** [ObjectView& user_data(void* data)]. *)
Definition user_data (data : ptr) : method ptr obj_call :=
  λ this, m_obj ← load this;
          call (lv_obj_set_user_data m_obj data);;
          ret this.

Section Getters.
Context `{Engine obj_call}.

(** [void* user_data() const]. *)
Definition get_user_data (this : Z) : M ptr obj_call ptr :=
  m_obj ← load this;
  ask answer_ptr (lv_obj_get_user_data m_obj).

Definition has_state (this : Z) (state : Z) : M ptr obj_call bool :=
  m_obj ← load this;
  ask answer_bool (lv_obj_has_state m_obj state).

Definition has_flag (this : Z) (flag : Z) : M ptr obj_call bool :=
  m_obj ← load this;
  ask answer_bool (lv_obj_has_flag m_obj flag).

(** [parent()] and [child(idx)] return a view by value: the pointer it is
    made of. *)
Definition parent (this : Z) : M ptr obj_call ptr :=
  m_obj ← load this;
  ask answer_ptr (lv_obj_get_parent m_obj).

Definition child_count (this : Z) : M ptr obj_call Z :=
  m_obj ← load this;
  ask answer_int (lv_obj_get_child_count m_obj).

Definition child (this : Z) (idx : Z) : M ptr obj_call ptr :=
  m_obj ← load this;
  ask answer_ptr (lv_obj_get_child m_obj idx).

End Getters.

(** [void del()]: delete the LVGL object. *)
Definition del (this : Z) : M ptr obj_call unit :=
  m_obj ← load this;
  if non_null m_obj then
    call (lv_obj_delete m_obj);;
    store this nullptr
  else ret tt.

(** [void clean()]: delete all children. *)
Definition clean (this : Z) : M ptr obj_call unit :=
  m_obj ← load this;
  call (lv_obj_clean m_obj).

(** [del()] called [n] times in a row on the same view. *)
Fixpoint del_times (n : nat) (this : Z) : M ptr obj_call unit :=
  match n with
  | O => ret tt
  | S n' => del this;; del_times n' this
  end.

End ObjectView.

(** ** core/object.hpp: class Object, the owning handle *)

Module Object.

(** [explicit Object(lv_obj_t* parent)]: the engine creates the widget
    and answers with its handle. *)
Definition ctor `{Engine obj_call} (this : Z) (parent : ptr)
    : M ptr obj_call unit :=
  obj ← ask answer_ptr (lv_obj_create parent);
  construct this obj.

(** [Object(adopt_t, lv_obj_t* obj)]. *)
Definition ctor_adopt (this : Z) (obj : ptr) : M ptr obj_call unit :=
  construct this obj.

(** [~Object()]. *)
Definition dtor (this : Z) : M ptr obj_call unit :=
  m_obj ← load this;
  (if non_null m_obj then call (lv_obj_delete m_obj) else ret tt);;
  destroy this.

(** [Object(Object&& other)]. *)
Definition move_ctor (this other : Z) : M ptr obj_call unit :=
  other_m_obj ← load other;
  construct this other_m_obj;;
  store other nullptr.

(** [Object& operator=(Object&& other)]. *)
Definition move_assign (other : Z) : method ptr obj_call :=
  λ this,
    (if bool_decide (this ≠ other) then
       m_obj ← load this;
       (if non_null m_obj then call (lv_obj_delete m_obj) else ret tt);;
       other_m_obj ← load other;
       store this other_m_obj;;
       store other nullptr
     else ret tt);;
    ret this.

(** [lv_obj_t* release()]. *)
Definition release (this : Z) : M ptr obj_call ptr :=
  p ← load this;
  store this nullptr;;
  ret p.

(** [void reset(lv_obj_t* obj = nullptr)]. *)
Definition reset (this : Z) (obj : ptr) : M ptr obj_call unit :=
  m_obj ← load this;
  (if non_null m_obj then call (lv_obj_delete m_obj) else ret tt);;
  store this obj.

End Object.

(** ** core/object.hpp: template class ObjectMixin

    [obj()] is [static_cast<Derived*>(this)->get()]; every mutator returns
    [*static_cast<Derived*>(this)].  Default arguments of the C++
    declarations are passed explicitly here. *)

Module ObjectMixin.
Section WithConf.
Context `{LvConf}.

Definition obj (this : Z) : M ptr obj_call ptr := ObjectView.get this.

Definition size (w h : Z) : method ptr obj_call :=
  λ this, o ← obj this; call (lv_obj_set_size o w h);;
          ret this.

Definition width (w : Z) : method ptr obj_call :=
  λ this, o ← obj this; call (lv_obj_set_width o w);;
          ret this.

Definition height (h : Z) : method ptr obj_call :=
  λ this, o ← obj this; call (lv_obj_set_height o h);;
          ret this.

Definition size_content : method ptr obj_call :=
  λ this, o ← obj this; call (lv_obj_set_size o LV_SIZE_CONTENT LV_SIZE_CONTENT);;
          ret this.

Definition width_pct (pct : Z) : method ptr obj_call :=
  λ this, o ← obj this; call (lv_obj_set_width o (LV_PCT pct));;
          ret this.

Definition height_pct (pct : Z) : method ptr obj_call :=
  λ this, o ← obj this; call (lv_obj_set_height o (LV_PCT pct));;
          ret this.

Definition fill_width : method ptr obj_call :=
  λ this, o ← obj this; call (lv_obj_set_width o (LV_PCT 100));;
          ret this.

Definition fill_height : method ptr obj_call :=
  λ this, o ← obj this; call (lv_obj_set_height o (LV_PCT 100));;
          ret this.

Definition fill : method ptr obj_call :=
  λ this, o ← obj this; call (lv_obj_set_size o (LV_PCT 100) (LV_PCT 100));;
          ret this.

Definition pos (x y : Z) : method ptr obj_call :=
  λ this, o ← obj this; call (lv_obj_set_pos o x y);;
          ret this.

Definition x (x : Z) : method ptr obj_call :=
  λ this, o ← obj this; call (lv_obj_set_x o x);;
          ret this.

Definition y (y : Z) : method ptr obj_call :=
  λ this, o ← obj this; call (lv_obj_set_y o y);;
          ret this.

Definition align (alignment x_ofs y_ofs : Z) : method ptr obj_call :=
  λ this, o ← obj this; call (lv_obj_align o alignment x_ofs y_ofs);;
          ret this.

Definition align_1 (alignment : Z) : method ptr obj_call :=
  λ this, o ← obj this; call (lv_obj_set_align o alignment);;
          ret this.

Definition center : method ptr obj_call :=
  λ this, o ← obj this; call (lv_obj_center o);;
          ret this.

Definition grow (factor : Z) : method ptr obj_call :=
  λ this, o ← obj this; call (lv_obj_set_flex_grow o (uint8 factor));;
          ret this.

Definition hide : method ptr obj_call :=
  λ this, o ← obj this; call (lv_obj_add_flag o LV_OBJ_FLAG_HIDDEN);;
          ret this.

Definition show : method ptr obj_call :=
  λ this, o ← obj this; call (lv_obj_remove_flag o LV_OBJ_FLAG_HIDDEN);;
          ret this.

Definition visible (v : bool) : method ptr obj_call :=
  λ this, (if v then o ← obj this; call (lv_obj_remove_flag o LV_OBJ_FLAG_HIDDEN)
           else o ← obj this; call (lv_obj_add_flag o LV_OBJ_FLAG_HIDDEN));;
          ret this.

Definition clickable (v : bool) : method ptr obj_call :=
  λ this, (if v then o ← obj this; call (lv_obj_add_flag o LV_OBJ_FLAG_CLICKABLE)
           else o ← obj this; call (lv_obj_remove_flag o LV_OBJ_FLAG_CLICKABLE));;
          ret this.

Definition add_flag (flag : Z) : method ptr obj_call :=
  λ this, o ← obj this; call (lv_obj_add_flag o flag);;
          ret this.

Definition remove_flag (flag : Z) : method ptr obj_call :=
  λ this, o ← obj this; call (lv_obj_remove_flag o flag);;
          ret this.

Definition add_state (state : Z) : method ptr obj_call :=
  λ this, o ← obj this; call (lv_obj_add_state o state);;
          ret this.

Definition remove_state (state : Z) : method ptr obj_call :=
  λ this, o ← obj this; call (lv_obj_remove_state o state);;
          ret this.

Definition user_data (data : ptr) : method ptr obj_call :=
  λ this, o ← obj this; call (lv_obj_set_user_data o data);;
          ret this.

Definition scrollable (v : bool) : method ptr obj_call :=
  λ this, (if v then o ← obj this; call (lv_obj_add_flag o LV_OBJ_FLAG_SCROLLABLE)
           else o ← obj this; call (lv_obj_remove_flag o LV_OBJ_FLAG_SCROLLABLE));;
          ret this.

Definition scroll_dir (dir : Z) : method ptr obj_call :=
  λ this, o ← obj this; call (lv_obj_set_scroll_dir o dir);;
          ret this.

Definition scrollbar_mode (mode : Z) : method ptr obj_call :=
  λ this, o ← obj this; call (lv_obj_set_scrollbar_mode o mode);;
          ret this.

Definition scroll_snap_x (snap : Z) : method ptr obj_call :=
  λ this, o ← obj this; call (lv_obj_set_scroll_snap_x o snap);;
          ret this.

Definition scroll_snap_y (snap : Z) : method ptr obj_call :=
  λ this, o ← obj this; call (lv_obj_set_scroll_snap_y o snap);;
          ret this.

Definition ext_click_area (size : Z) : method ptr obj_call :=
  λ this, o ← obj this; call (lv_obj_set_ext_click_area o size);;
          ret this.

Definition flex_flow (flow : Z) : method ptr obj_call :=
  λ this, o ← obj this; call (lv_obj_set_flex_flow o flow);;
          ret this.

Definition flex_align (main cross track : Z) : method ptr obj_call :=
  λ this, o ← obj this; call (lv_obj_set_flex_align o main cross track);;
          ret this.

Definition invalidate : method ptr obj_call :=
  λ this, o ← obj this; call (lv_obj_invalidate o);;
          ret this.

Definition update_layout : method ptr obj_call :=
  λ this, o ← obj this; call (lv_obj_update_layout o);;
          ret this.

Definition layout (l : Z) : method ptr obj_call :=
  λ this, o ← obj this; call (lv_obj_set_layout o l);;
          ret this.

Definition layout_none : method ptr obj_call :=
  λ this, o ← obj this; call (lv_obj_set_layout o LV_LAYOUT_NONE);;
          ret this.

Definition set_parent (new_parent : ptr) : method ptr obj_call :=
  λ this, o ← obj this; call (lv_obj_set_parent o new_parent);;
          ret this.

Definition add_style (style : ptr) (selector : Z) : method ptr obj_call :=
  λ this, o ← obj this; call (lv_obj_add_style o style selector);;
          ret this.

Definition remove_style (style : ptr) (selector : Z) : method ptr obj_call :=
  λ this, o ← obj this; call (lv_obj_remove_style o style selector);;
          ret this.

Definition remove_all_styles : method ptr obj_call :=
  λ this, o ← obj this; call (lv_obj_remove_style_all o);;
          ret this.

Definition scroll_by (x y anim_en : Z) : method ptr obj_call :=
  λ this, o ← obj this; call (lv_obj_scroll_by o x y anim_en);;
          ret this.

Definition scroll_to (x y anim_en : Z) : method ptr obj_call :=
  λ this, o ← obj this; call (lv_obj_scroll_to o x y anim_en);;
          ret this.

Definition update_snap (anim_en : Z) : method ptr obj_call :=
  λ this, o ← obj this; call (lv_obj_update_snap o anim_en);;
          ret this.

Definition move_foreground : method ptr obj_call :=
  λ this, o ← obj this; call (lv_obj_move_foreground o);;
          ret this.

Definition move_background : method ptr obj_call :=
  λ this, o ← obj this; call (lv_obj_move_background o);;
          ret this.

Definition align_to (base : ptr) (align x_ofs y_ofs : Z) : method ptr obj_call :=
  λ this, o ← obj this; call (lv_obj_align_to o base align x_ofs y_ofs);;
          ret this.

Definition refresh_ext_draw_size : method ptr obj_call :=
  λ this, o ← obj this; call (lv_obj_refresh_ext_draw_size o);;
          ret this.

(** One invocation of a mutator of the mixin, with its arguments. *)
Inductive mutator : Type :=
| Size (w h : Z)
| Width (w : Z)
| Height (h : Z)
| Size_content
| Width_pct (pct : Z)
| Height_pct (pct : Z)
| Fill_width
| Fill_height
| Fill
| Pos (x y : Z)
| X (x : Z)
| Y (y : Z)
| Align (alignment x_ofs y_ofs : Z)
| Align_1 (alignment : Z)
| Center
| Grow (factor : Z)
| Hide
| Show_
| Visible (v : bool)
| Clickable (v : bool)
| Add_flag (flag : Z)
| Remove_flag (flag : Z)
| Add_state (state : Z)
| Remove_state (state : Z)
| User_data (data : ptr)
| Scrollable (v : bool)
| Scroll_dir (dir : Z)
| Scrollbar_mode (mode : Z)
| Scroll_snap_x (snap : Z)
| Scroll_snap_y (snap : Z)
| Ext_click_area (size : Z)
| Flex_flow (flow : Z)
| Flex_align (main cross track : Z)
| Invalidate
| Update_layout
| Layout (l : Z)
| Layout_none
| Set_parent (new_parent : ptr)
| Add_style (style : ptr) (selector : Z)
| Remove_style (style : ptr) (selector : Z)
| Remove_all_styles
| Scroll_by (x y anim_en : Z)
| Scroll_to (x y anim_en : Z)
| Update_snap (anim_en : Z)
| Move_foreground
| Move_background
| Align_to (base : ptr) (align x_ofs y_ofs : Z)
| Refresh_ext_draw_size.

Definition invoke (m : mutator) : method ptr obj_call :=
  match m with
  | Size a1 a2 => size a1 a2
  | Width a1 => width a1
  | Height a1 => height a1
  | Size_content => size_content
  | Width_pct a1 => width_pct a1
  | Height_pct a1 => height_pct a1
  | Fill_width => fill_width
  | Fill_height => fill_height
  | Fill => fill
  | Pos a1 a2 => pos a1 a2
  | X a1 => x a1
  | Y a1 => y a1
  | Align a1 a2 a3 => align a1 a2 a3
  | Align_1 a1 => align_1 a1
  | Center => center
  | Grow a1 => grow a1
  | Hide => hide
  | Show_ => show
  | Visible a1 => visible a1
  | Clickable a1 => clickable a1
  | Add_flag a1 => add_flag a1
  | Remove_flag a1 => remove_flag a1
  | Add_state a1 => add_state a1
  | Remove_state a1 => remove_state a1
  | User_data a1 => user_data a1
  | Scrollable a1 => scrollable a1
  | Scroll_dir a1 => scroll_dir a1
  | Scrollbar_mode a1 => scrollbar_mode a1
  | Scroll_snap_x a1 => scroll_snap_x a1
  | Scroll_snap_y a1 => scroll_snap_y a1
  | Ext_click_area a1 => ext_click_area a1
  | Flex_flow a1 => flex_flow a1
  | Flex_align a1 a2 a3 => flex_align a1 a2 a3
  | Invalidate => invalidate
  | Update_layout => update_layout
  | Layout a1 => layout a1
  | Layout_none => layout_none
  | Set_parent a1 => set_parent a1
  | Add_style a1 a2 => add_style a1 a2
  | Remove_style a1 a2 => remove_style a1 a2
  | Remove_all_styles => remove_all_styles
  | Scroll_by a1 a2 a3 => scroll_by a1 a2 a3
  | Scroll_to a1 a2 a3 => scroll_to a1 a2 a3
  | Update_snap a1 => update_snap a1
  | Move_foreground => move_foreground
  | Move_background => move_background
  | Align_to a1 a2 a3 a4 => align_to a1 a2 a3 a4
  | Refresh_ext_draw_size => refresh_ext_draw_size
  end.

End WithConf.
End ObjectMixin.

(** ** core/style.hpp: template class StyleMixin

    Inline (local) style setters on the object; [sel] is the part/state
    selector, 0 by default in the C++ declarations. *)

Module StyleMixin.

Definition obj (this : Z) : M ptr obj_call ptr := ObjectView.get this.

Definition bg_color (color : lv_color_t) (sel : Z) : method ptr obj_call :=
  λ this, o ← obj this; call (lv_obj_set_style_bg_color o color sel);;
          ret this.

Definition bg_opa (opa sel : Z) : method ptr obj_call :=
  λ this, o ← obj this; call (lv_obj_set_style_bg_opa o opa sel);;
          ret this.

Definition bg_grad_color (color : lv_color_t) (sel : Z) : method ptr obj_call :=
  λ this, o ← obj this; call (lv_obj_set_style_bg_grad_color o color sel);;
          ret this.

Definition bg_grad_dir (dir sel : Z) : method ptr obj_call :=
  λ this, o ← obj this; call (lv_obj_set_style_bg_grad_dir o dir sel);;
          ret this.

Definition bg_grad_stop (stop sel : Z) : method ptr obj_call :=
  λ this, o ← obj this; call (lv_obj_set_style_bg_grad_stop o stop sel);;
          ret this.

Definition bg_grad (grad : ptr) (sel : Z) : method ptr obj_call :=
  λ this, o ← obj this; call (lv_obj_set_style_bg_grad o grad sel);;
          ret this.

Definition bitmap_mask_src (src : ptr) (sel : Z) : method ptr obj_call :=
  λ this, o ← obj this; call (lv_obj_set_style_bitmap_mask_src o src sel);;
          ret this.

Definition bg_image_src (src : ptr) (sel : Z) : method ptr obj_call :=
  λ this, o ← obj this; call (lv_obj_set_style_bg_image_src o src sel);;
          ret this.

Definition border_color (color : lv_color_t) (sel : Z) : method ptr obj_call :=
  λ this, o ← obj this; call (lv_obj_set_style_border_color o color sel);;
          ret this.

Definition border_width (width sel : Z) : method ptr obj_call :=
  λ this, o ← obj this; call (lv_obj_set_style_border_width o width sel);;
          ret this.

Definition padding (pad sel : Z) : method ptr obj_call :=
  λ this, o ← obj this; call (lv_obj_set_style_pad_all o pad sel);;
          ret this.

Definition pad_top (pad sel : Z) : method ptr obj_call :=
  λ this, o ← obj this; call (lv_obj_set_style_pad_top o pad sel);;
          ret this.

Definition pad_bottom (pad sel : Z) : method ptr obj_call :=
  λ this, o ← obj this; call (lv_obj_set_style_pad_bottom o pad sel);;
          ret this.

Definition pad_left (pad sel : Z) : method ptr obj_call :=
  λ this, o ← obj this; call (lv_obj_set_style_pad_left o pad sel);;
          ret this.

Definition pad_right (pad sel : Z) : method ptr obj_call :=
  λ this, o ← obj this; call (lv_obj_set_style_pad_right o pad sel);;
          ret this.

Definition padding_hor (pad sel : Z) : method ptr obj_call :=
  λ this, o ← obj this; call (lv_obj_set_style_pad_left o pad sel);;
          o ← obj this; call (lv_obj_set_style_pad_right o pad sel);;
          ret this.

Definition padding_ver (pad sel : Z) : method ptr obj_call :=
  λ this, o ← obj this; call (lv_obj_set_style_pad_top o pad sel);;
          o ← obj this; call (lv_obj_set_style_pad_bottom o pad sel);;
          ret this.

Definition pad_row (pad sel : Z) : method ptr obj_call :=
  λ this, o ← obj this; call (lv_obj_set_style_pad_row o pad sel);;
          ret this.

Definition pad_column (pad sel : Z) : method ptr obj_call :=
  λ this, o ← obj this; call (lv_obj_set_style_pad_column o pad sel);;
          ret this.

Definition gap (g sel : Z) : method ptr obj_call :=
  λ this, o ← obj this; call (lv_obj_set_style_pad_row o g sel);;
          o ← obj this; call (lv_obj_set_style_pad_column o g sel);;
          ret this.

Definition radius (r sel : Z) : method ptr obj_call :=
  λ this, o ← obj this; call (lv_obj_set_style_radius o r sel);;
          ret this.

Definition opa (opa sel : Z) : method ptr obj_call :=
  λ this, o ← obj this; call (lv_obj_set_style_opa o opa sel);;
          ret this.

Definition blend_mode (mode sel : Z) : method ptr obj_call :=
  λ this, o ← obj this; call (lv_obj_set_style_blend_mode o mode sel);;
          ret this.

Definition text_color (color : lv_color_t) (sel : Z) : method ptr obj_call :=
  λ this, o ← obj this; call (lv_obj_set_style_text_color o color sel);;
          ret this.

Definition text_font (font : ptr) (sel : Z) : method ptr obj_call :=
  λ this, o ← obj this; call (lv_obj_set_style_text_font o font sel);;
          ret this.

Definition text_align (align sel : Z) : method ptr obj_call :=
  λ this, o ← obj this; call (lv_obj_set_style_text_align o align sel);;
          ret this.

Definition text_line_space (space sel : Z) : method ptr obj_call :=
  λ this, o ← obj this; call (lv_obj_set_style_text_line_space o space sel);;
          ret this.

Definition image_opa (opa sel : Z) : method ptr obj_call :=
  λ this, o ← obj this; call (lv_obj_set_style_image_opa o opa sel);;
          ret this.

Definition image_recolor (color : lv_color_t) (sel : Z) : method ptr obj_call :=
  λ this, o ← obj this; call (lv_obj_set_style_image_recolor o color sel);;
          ret this.

Definition image_recolor_opa (opa sel : Z) : method ptr obj_call :=
  λ this, o ← obj this; call (lv_obj_set_style_image_recolor_opa o opa sel);;
          ret this.

Definition arc_width (width sel : Z) : method ptr obj_call :=
  λ this, o ← obj this; call (lv_obj_set_style_arc_width o width sel);;
          ret this.

Definition arc_color (color : lv_color_t) (sel : Z) : method ptr obj_call :=
  λ this, o ← obj this; call (lv_obj_set_style_arc_color o color sel);;
          ret this.

Definition arc_opa (opa sel : Z) : method ptr obj_call :=
  λ this, o ← obj this; call (lv_obj_set_style_arc_opa o opa sel);;
          ret this.

Definition arc_rounded (rounded : bool) (sel : Z) : method ptr obj_call :=
  λ this, o ← obj this; call (lv_obj_set_style_arc_rounded o rounded sel);;
          ret this.

Definition line_width (width sel : Z) : method ptr obj_call :=
  λ this, o ← obj this; call (lv_obj_set_style_line_width o width sel);;
          ret this.

Definition line_color (color : lv_color_t) (sel : Z) : method ptr obj_call :=
  λ this, o ← obj this; call (lv_obj_set_style_line_color o color sel);;
          ret this.

Definition line_opa (opa sel : Z) : method ptr obj_call :=
  λ this, o ← obj this; call (lv_obj_set_style_line_opa o opa sel);;
          ret this.

Definition line_rounded (rounded : bool) (sel : Z) : method ptr obj_call :=
  λ this, o ← obj this; call (lv_obj_set_style_line_rounded o rounded sel);;
          ret this.

Definition transform_pivot_x (x sel : Z) : method ptr obj_call :=
  λ this, o ← obj this; call (lv_obj_set_style_transform_pivot_x o x sel);;
          ret this.

Definition transform_pivot_y (y sel : Z) : method ptr obj_call :=
  λ this, o ← obj this; call (lv_obj_set_style_transform_pivot_y o y sel);;
          ret this.

Definition transform_pivot (x y sel : Z) : method ptr obj_call :=
  λ this, o ← obj this; call (lv_obj_set_style_transform_pivot_x o x sel);;
          o ← obj this; call (lv_obj_set_style_transform_pivot_y o y sel);;
          ret this.

Definition transform_rotation (angle sel : Z) : method ptr obj_call :=
  λ this, o ← obj this; call (lv_obj_set_style_transform_rotation o angle sel);;
          ret this.

Definition transform_scale (scale sel : Z) : method ptr obj_call :=
  λ this, o ← obj this; call (lv_obj_set_style_transform_scale o scale sel);;
          ret this.

Definition transform_scale_x (scale sel : Z) : method ptr obj_call :=
  λ this, o ← obj this; call (lv_obj_set_style_transform_scale_x o scale sel);;
          ret this.

Definition transform_scale_y (scale sel : Z) : method ptr obj_call :=
  λ this, o ← obj this; call (lv_obj_set_style_transform_scale_y o scale sel);;
          ret this.

Definition transform_width (width sel : Z) : method ptr obj_call :=
  λ this, o ← obj this; call (lv_obj_set_style_transform_width o width sel);;
          ret this.

Definition transform_height (height sel : Z) : method ptr obj_call :=
  λ this, o ← obj this; call (lv_obj_set_style_transform_height o height sel);;
          ret this.

Definition border_side (side sel : Z) : method ptr obj_call :=
  λ this, o ← obj this; call (lv_obj_set_style_border_side o side sel);;
          ret this.

Definition border_opa (opa sel : Z) : method ptr obj_call :=
  λ this, o ← obj this; call (lv_obj_set_style_border_opa o opa sel);;
          ret this.

Definition min_width (w sel : Z) : method ptr obj_call :=
  λ this, o ← obj this; call (lv_obj_set_style_min_width o w sel);;
          ret this.

Definition max_width (w sel : Z) : method ptr obj_call :=
  λ this, o ← obj this; call (lv_obj_set_style_max_width o w sel);;
          ret this.

Definition min_height (h sel : Z) : method ptr obj_call :=
  λ this, o ← obj this; call (lv_obj_set_style_min_height o h sel);;
          ret this.

Definition max_height (h sel : Z) : method ptr obj_call :=
  λ this, o ← obj this; call (lv_obj_set_style_max_height o h sel);;
          ret this.

Definition margin (m sel : Z) : method ptr obj_call :=
  λ this, o ← obj this; call (lv_obj_set_style_margin_top o m sel);;
          o ← obj this; call (lv_obj_set_style_margin_bottom o m sel);;
          o ← obj this; call (lv_obj_set_style_margin_left o m sel);;
          o ← obj this; call (lv_obj_set_style_margin_right o m sel);;
          ret this.

Definition margin_top (m sel : Z) : method ptr obj_call :=
  λ this, o ← obj this; call (lv_obj_set_style_margin_top o m sel);;
          ret this.

Definition margin_bottom (m sel : Z) : method ptr obj_call :=
  λ this, o ← obj this; call (lv_obj_set_style_margin_bottom o m sel);;
          ret this.

Definition margin_left (m sel : Z) : method ptr obj_call :=
  λ this, o ← obj this; call (lv_obj_set_style_margin_left o m sel);;
          ret this.

Definition margin_right (m sel : Z) : method ptr obj_call :=
  λ this, o ← obj this; call (lv_obj_set_style_margin_right o m sel);;
          ret this.

Definition margin_hor (m sel : Z) : method ptr obj_call :=
  λ this, o ← obj this; call (lv_obj_set_style_margin_left o m sel);;
          o ← obj this; call (lv_obj_set_style_margin_right o m sel);;
          ret this.

Definition margin_ver (m sel : Z) : method ptr obj_call :=
  λ this, o ← obj this; call (lv_obj_set_style_margin_top o m sel);;
          o ← obj this; call (lv_obj_set_style_margin_bottom o m sel);;
          ret this.

Definition anim_duration (duration sel : Z) : method ptr obj_call :=
  λ this, o ← obj this; call (lv_obj_set_style_anim_duration o duration sel);;
          ret this.

Definition flex_main_place (place sel : Z) : method ptr obj_call :=
  λ this, o ← obj this; call (lv_obj_set_style_flex_main_place o place sel);;
          ret this.

Definition flex_cross_place (place sel : Z) : method ptr obj_call :=
  λ this, o ← obj this; call (lv_obj_set_style_flex_cross_place o place sel);;
          ret this.

Definition flex_track_place (place sel : Z) : method ptr obj_call :=
  λ this, o ← obj this; call (lv_obj_set_style_flex_track_place o place sel);;
          ret this.

Definition part_width (w sel : Z) : method ptr obj_call :=
  λ this, o ← obj this; call (lv_obj_set_style_width o w sel);;
          ret this.

Definition part_height (h sel : Z) : method ptr obj_call :=
  λ this, o ← obj this; call (lv_obj_set_style_height o h sel);;
          ret this.

Definition part_size (w h sel : Z) : method ptr obj_call :=
  λ this, o ← obj this; call (lv_obj_set_style_width o w sel);;
          o ← obj this; call (lv_obj_set_style_height o h sel);;
          ret this.

Definition translate_x (x sel : Z) : method ptr obj_call :=
  λ this, o ← obj this; call (lv_obj_set_style_translate_x o x sel);;
          ret this.

Definition translate_y (y sel : Z) : method ptr obj_call :=
  λ this, o ← obj this; call (lv_obj_set_style_translate_y o y sel);;
          ret this.

(** One invocation of a mutator of the mixin, with its arguments. *)
Inductive mutator : Type :=
| Bg_color (color : lv_color_t) (sel : Z)
| Bg_opa (opa sel : Z)
| Bg_grad_color (color : lv_color_t) (sel : Z)
| Bg_grad_dir (dir sel : Z)
| Bg_grad_stop (stop sel : Z)
| Bg_grad (grad : ptr) (sel : Z)
| Bitmap_mask_src (src : ptr) (sel : Z)
| Bg_image_src (src : ptr) (sel : Z)
| Border_color (color : lv_color_t) (sel : Z)
| Border_width (width sel : Z)
| Padding (pad sel : Z)
| Pad_top (pad sel : Z)
| Pad_bottom (pad sel : Z)
| Pad_left (pad sel : Z)
| Pad_right (pad sel : Z)
| Padding_hor (pad sel : Z)
| Padding_ver (pad sel : Z)
| Pad_row (pad sel : Z)
| Pad_column (pad sel : Z)
| Gap (g sel : Z)
| Radius (r sel : Z)
| Opa (opa sel : Z)
| Blend_mode (mode sel : Z)
| Text_color (color : lv_color_t) (sel : Z)
| Text_font (font : ptr) (sel : Z)
| Text_align (align sel : Z)
| Text_line_space (space sel : Z)
| Image_opa (opa sel : Z)
| Image_recolor (color : lv_color_t) (sel : Z)
| Image_recolor_opa (opa sel : Z)
| Arc_width (width sel : Z)
| Arc_color (color : lv_color_t) (sel : Z)
| Arc_opa (opa sel : Z)
| Arc_rounded (rounded : bool) (sel : Z)
| Line_width (width sel : Z)
| Line_color (color : lv_color_t) (sel : Z)
| Line_opa (opa sel : Z)
| Line_rounded (rounded : bool) (sel : Z)
| Transform_pivot_x (x sel : Z)
| Transform_pivot_y (y sel : Z)
| Transform_pivot (x y sel : Z)
| Transform_rotation (angle sel : Z)
| Transform_scale (scale sel : Z)
| Transform_scale_x (scale sel : Z)
| Transform_scale_y (scale sel : Z)
| Transform_width (width sel : Z)
| Transform_height (height sel : Z)
| Border_side (side sel : Z)
| Border_opa (opa sel : Z)
| Min_width (w sel : Z)
| Max_width (w sel : Z)
| Min_height (h sel : Z)
| Max_height (h sel : Z)
| Margin (m sel : Z)
| Margin_top (m sel : Z)
| Margin_bottom (m sel : Z)
| Margin_left (m sel : Z)
| Margin_right (m sel : Z)
| Margin_hor (m sel : Z)
| Margin_ver (m sel : Z)
| Anim_duration (duration sel : Z)
| Flex_main_place (place sel : Z)
| Flex_cross_place (place sel : Z)
| Flex_track_place (place sel : Z)
| Part_width (w sel : Z)
| Part_height (h sel : Z)
| Part_size (w h sel : Z)
| Translate_x (x sel : Z)
| Translate_y (y sel : Z).

Definition invoke (m : mutator) : method ptr obj_call :=
  match m with
  | Bg_color a1 a2 => bg_color a1 a2
  | Bg_opa a1 a2 => bg_opa a1 a2
  | Bg_grad_color a1 a2 => bg_grad_color a1 a2
  | Bg_grad_dir a1 a2 => bg_grad_dir a1 a2
  | Bg_grad_stop a1 a2 => bg_grad_stop a1 a2
  | Bg_grad a1 a2 => bg_grad a1 a2
  | Bitmap_mask_src a1 a2 => bitmap_mask_src a1 a2
  | Bg_image_src a1 a2 => bg_image_src a1 a2
  | Border_color a1 a2 => border_color a1 a2
  | Border_width a1 a2 => border_width a1 a2
  | Padding a1 a2 => padding a1 a2
  | Pad_top a1 a2 => pad_top a1 a2
  | Pad_bottom a1 a2 => pad_bottom a1 a2
  | Pad_left a1 a2 => pad_left a1 a2
  | Pad_right a1 a2 => pad_right a1 a2
  | Padding_hor a1 a2 => padding_hor a1 a2
  | Padding_ver a1 a2 => padding_ver a1 a2
  | Pad_row a1 a2 => pad_row a1 a2
  | Pad_column a1 a2 => pad_column a1 a2
  | Gap a1 a2 => gap a1 a2
  | Radius a1 a2 => radius a1 a2
  | Opa a1 a2 => opa a1 a2
  | Blend_mode a1 a2 => blend_mode a1 a2
  | Text_color a1 a2 => text_color a1 a2
  | Text_font a1 a2 => text_font a1 a2
  | Text_align a1 a2 => text_align a1 a2
  | Text_line_space a1 a2 => text_line_space a1 a2
  | Image_opa a1 a2 => image_opa a1 a2
  | Image_recolor a1 a2 => image_recolor a1 a2
  | Image_recolor_opa a1 a2 => image_recolor_opa a1 a2
  | Arc_width a1 a2 => arc_width a1 a2
  | Arc_color a1 a2 => arc_color a1 a2
  | Arc_opa a1 a2 => arc_opa a1 a2
  | Arc_rounded a1 a2 => arc_rounded a1 a2
  | Line_width a1 a2 => line_width a1 a2
  | Line_color a1 a2 => line_color a1 a2
  | Line_opa a1 a2 => line_opa a1 a2
  | Line_rounded a1 a2 => line_rounded a1 a2
  | Transform_pivot_x a1 a2 => transform_pivot_x a1 a2
  | Transform_pivot_y a1 a2 => transform_pivot_y a1 a2
  | Transform_pivot a1 a2 a3 => transform_pivot a1 a2 a3
  | Transform_rotation a1 a2 => transform_rotation a1 a2
  | Transform_scale a1 a2 => transform_scale a1 a2
  | Transform_scale_x a1 a2 => transform_scale_x a1 a2
  | Transform_scale_y a1 a2 => transform_scale_y a1 a2
  | Transform_width a1 a2 => transform_width a1 a2
  | Transform_height a1 a2 => transform_height a1 a2
  | Border_side a1 a2 => border_side a1 a2
  | Border_opa a1 a2 => border_opa a1 a2
  | Min_width a1 a2 => min_width a1 a2
  | Max_width a1 a2 => max_width a1 a2
  | Min_height a1 a2 => min_height a1 a2
  | Max_height a1 a2 => max_height a1 a2
  | Margin a1 a2 => margin a1 a2
  | Margin_top a1 a2 => margin_top a1 a2
  | Margin_bottom a1 a2 => margin_bottom a1 a2
  | Margin_left a1 a2 => margin_left a1 a2
  | Margin_right a1 a2 => margin_right a1 a2
  | Margin_hor a1 a2 => margin_hor a1 a2
  | Margin_ver a1 a2 => margin_ver a1 a2
  | Anim_duration a1 a2 => anim_duration a1 a2
  | Flex_main_place a1 a2 => flex_main_place a1 a2
  | Flex_cross_place a1 a2 => flex_cross_place a1 a2
  | Flex_track_place a1 a2 => flex_track_place a1 a2
  | Part_width a1 a2 => part_width a1 a2
  | Part_height a1 a2 => part_height a1 a2
  | Part_size a1 a2 a3 => part_size a1 a2 a3
  | Translate_x a1 a2 => translate_x a1 a2
  | Translate_y a1 a2 => translate_y a1 a2
  end.

(** The shorthands that set several properties: one engine call per
    property; every other mutator makes one call. *)
Definition forwarded_calls (m : mutator) : nat :=
  match m with
  | Margin _ _ => 4
  | Padding_hor _ _ | Padding_ver _ _ | Gap _ _
  | Transform_pivot _ _ _
  | Margin_hor _ _ | Margin_ver _ _
  | Part_size _ _ _ => 2
  | _ => 1
  end.

End StyleMixin.

(** ** A widget with both mixins

    [Box], [Button], [Canvas] and [Image] derive from [ObjectView],
    [ObjectMixin] and [StyleMixin]: the mutators of both mixins can be
    chained on them in any order. *)

Module Widget.
Section WithConf.
Context `{LvConf}.

Inductive mutator : Type :=
| Object_ (m : ObjectMixin.mutator)
| Style_ (m : StyleMixin.mutator).

Definition invoke (m : mutator) : method ptr obj_call :=
  match m with
  | Object_ m' => ObjectMixin.invoke m'
  | Style_ m' => StyleMixin.invoke m'
  end.

End WithConf.
End Widget.

(** ** The engine API used by class Style

    Every [lv_style_*] function takes a pointer to the style record as its
    first argument; [StyleCall p f] is the call of [f] on the record at
    [p] with the remaining arguments. *)

Inductive style_fn : Type :=
| lv_style_init
| lv_style_reset
| lv_style_set_bg_color (color : lv_color_t)
| lv_style_set_bg_opa (opa : Z)
| lv_style_set_bg_grad_color (color : lv_color_t)
| lv_style_set_bg_grad_dir (dir : Z)
| lv_style_set_bg_main_stop (stop : Z)
| lv_style_set_bg_grad_stop (stop : Z)
| lv_style_set_border_color (color : lv_color_t)
| lv_style_set_border_width (width : Z)
| lv_style_set_border_opa (opa : Z)
| lv_style_set_border_side (side : Z)
| lv_style_set_outline_color (color : lv_color_t)
| lv_style_set_outline_width (width : Z)
| lv_style_set_outline_opa (opa : Z)
| lv_style_set_outline_pad (pad : Z)
| lv_style_set_shadow_color (color : lv_color_t)
| lv_style_set_shadow_width (width : Z)
| lv_style_set_shadow_opa (opa : Z)
| lv_style_set_shadow_offset_x (x : Z)
| lv_style_set_shadow_offset_y (y : Z)
| lv_style_set_shadow_spread (spread : Z)
| lv_style_set_pad_all (pad : Z)
| lv_style_set_pad_top (pad : Z)
| lv_style_set_pad_bottom (pad : Z)
| lv_style_set_pad_left (pad : Z)
| lv_style_set_pad_right (pad : Z)
| lv_style_set_pad_hor (pad : Z)
| lv_style_set_pad_ver (pad : Z)
| lv_style_set_pad_row (pad : Z)
| lv_style_set_pad_column (pad : Z)
| lv_style_set_margin_top (margin : Z)
| lv_style_set_margin_bottom (margin : Z)
| lv_style_set_margin_left (margin : Z)
| lv_style_set_margin_right (margin : Z)
| lv_style_set_width (w : Z)
| lv_style_set_min_width (w : Z)
| lv_style_set_max_width (w : Z)
| lv_style_set_height (h : Z)
| lv_style_set_min_height (h : Z)
| lv_style_set_max_height (h : Z)
| lv_style_set_radius (r : Z)
| lv_style_set_opa (opa : Z)
| lv_style_set_clip_corner (clip : bool)
| lv_style_set_blend_mode (mode : Z)
| lv_style_set_text_color (color : lv_color_t)
| lv_style_set_text_opa (opa : Z)
| lv_style_set_text_font (font : ptr)
| lv_style_set_text_letter_space (space : Z)
| lv_style_set_text_line_space (space : Z)
| lv_style_set_text_decor (decor : Z)
| lv_style_set_text_align (align : Z)
| lv_style_set_image_opa (opa : Z)
| lv_style_set_image_recolor (color : lv_color_t)
| lv_style_set_image_recolor_opa (opa : Z)
| lv_style_set_line_color (color : lv_color_t)
| lv_style_set_line_width (width : Z)
| lv_style_set_line_opa (opa : Z)
| lv_style_set_line_rounded (rounded : bool)
| lv_style_set_arc_color (color : lv_color_t)
| lv_style_set_arc_width (width : Z)
| lv_style_set_arc_opa (opa : Z)
| lv_style_set_arc_rounded (rounded : bool)
| lv_style_set_transform_width (width : Z)
| lv_style_set_transform_height (height : Z)
| lv_style_set_transform_scale (scale : Z)
| lv_style_set_transform_scale_x (scale : Z)
| lv_style_set_transform_scale_y (scale : Z)
| lv_style_set_transform_rotation (angle : Z)
| lv_style_set_transform_pivot_x (x : Z)
| lv_style_set_transform_pivot_y (y : Z)
| lv_style_set_layout (layout : Z)
| lv_style_set_flex_flow (flow : Z)
| lv_style_set_flex_main_place (place : Z)
| lv_style_set_flex_cross_place (place : Z)
| lv_style_set_flex_track_place (place : Z)
| lv_style_set_flex_grow (grow : Z)
| lv_style_set_align (align : Z)
| lv_style_set_translate_x (x : Z)
| lv_style_set_translate_y (y : Z).

Inductive style_call : Type := StyleCall (style : ptr) (f : style_fn).

(** [lv_style_t] is a record of the engine, embedded by value in the
    wrapper: what it holds, and what a call does to the record it is given,
    is the engine's business. *)
Class StyleEngine : Type := {
  lv_style_t : Type;
  lv_style_effect : style_fn → lv_style_t → lv_style_t
}.

(** ** core/style.hpp: class Style

    The object is its only data member [m_style], so [&m_style] is the
    address of the object. *)

Module Style.
Section WithEngine.
Context `{StyleEngine}.

(** The engine call [f(p, ...)]: it is recorded and the record at [p] is
    what the engine makes of it. *)
Definition engine (p : ptr) (f : style_fn) : M lv_style_t style_call unit :=
  s ← load p;
  call (StyleCall p f);;
  store p (lv_style_effect f s).

(** [Style()]: [uninit] is whatever the storage of [m_style] holds
    before [lv_style_init] runs. *)
Definition ctor (this : Z) (uninit : lv_style_t)
    : M lv_style_t style_call unit :=
  construct this uninit;;
  engine this lv_style_init.

(** [~Style()]. *)
Definition dtor (this : Z) : M lv_style_t style_call unit :=
  engine this lv_style_reset;;
  destroy this.

(** [Style(Style&& other)]: [m_style(other.m_style)], then the
    moved-from style is initialised again. *)
Definition move_ctor (this other : Z) : M lv_style_t style_call unit :=
  other_m_style ← load other;
  construct this other_m_style;;
  engine other lv_style_init.

(** [Style& operator=(Style&& other)]. *)
Definition move_assign (other : Z) : method lv_style_t style_call :=
  λ this,
    (if bool_decide (this ≠ other) then
       engine this lv_style_reset;;
       other_m_style ← load other;
       store this other_m_style;;
       engine other lv_style_init
     else ret tt);;
    ret this.

(** [lv_style_t* get()]. *)
Definition get (this : Z) : M lv_style_t style_call ptr := ret this.

(** [Style& reset()]: reset style to empty state. *)
Definition reset : method lv_style_t style_call :=
  λ this, engine this lv_style_reset;;
          engine this lv_style_init;;
          ret this.

Definition bg_color (color : lv_color_t) : method lv_style_t style_call :=
  λ this, engine this (lv_style_set_bg_color color);;
          ret this.

Definition bg_opa (opa : Z) : method lv_style_t style_call :=
  λ this, engine this (lv_style_set_bg_opa opa);;
          ret this.

Definition bg_grad_color (color : lv_color_t) : method lv_style_t style_call :=
  λ this, engine this (lv_style_set_bg_grad_color color);;
          ret this.

Definition bg_grad_dir (dir : Z) : method lv_style_t style_call :=
  λ this, engine this (lv_style_set_bg_grad_dir dir);;
          ret this.

Definition bg_main_stop (stop : Z) : method lv_style_t style_call :=
  λ this, engine this (lv_style_set_bg_main_stop stop);;
          ret this.

Definition bg_grad_stop (stop : Z) : method lv_style_t style_call :=
  λ this, engine this (lv_style_set_bg_grad_stop stop);;
          ret this.

Definition border_color (color : lv_color_t) : method lv_style_t style_call :=
  λ this, engine this (lv_style_set_border_color color);;
          ret this.

Definition border_width (width : Z) : method lv_style_t style_call :=
  λ this, engine this (lv_style_set_border_width width);;
          ret this.

Definition border_opa (opa : Z) : method lv_style_t style_call :=
  λ this, engine this (lv_style_set_border_opa opa);;
          ret this.

Definition border_side (side : Z) : method lv_style_t style_call :=
  λ this, engine this (lv_style_set_border_side side);;
          ret this.

Definition outline_color (color : lv_color_t) : method lv_style_t style_call :=
  λ this, engine this (lv_style_set_outline_color color);;
          ret this.

Definition outline_width (width : Z) : method lv_style_t style_call :=
  λ this, engine this (lv_style_set_outline_width width);;
          ret this.

Definition outline_opa (opa : Z) : method lv_style_t style_call :=
  λ this, engine this (lv_style_set_outline_opa opa);;
          ret this.

Definition outline_pad (pad : Z) : method lv_style_t style_call :=
  λ this, engine this (lv_style_set_outline_pad pad);;
          ret this.

Definition shadow_color (color : lv_color_t) : method lv_style_t style_call :=
  λ this, engine this (lv_style_set_shadow_color color);;
          ret this.

Definition shadow_width (width : Z) : method lv_style_t style_call :=
  λ this, engine this (lv_style_set_shadow_width width);;
          ret this.

Definition shadow_opa (opa : Z) : method lv_style_t style_call :=
  λ this, engine this (lv_style_set_shadow_opa opa);;
          ret this.

Definition shadow_offset (x y : Z) : method lv_style_t style_call :=
  λ this, engine this (lv_style_set_shadow_offset_x x);;
          engine this (lv_style_set_shadow_offset_y y);;
          ret this.

Definition shadow_spread (spread : Z) : method lv_style_t style_call :=
  λ this, engine this (lv_style_set_shadow_spread spread);;
          ret this.

Definition pad_all (pad : Z) : method lv_style_t style_call :=
  λ this, engine this (lv_style_set_pad_all pad);;
          ret this.

Definition pad_top (pad : Z) : method lv_style_t style_call :=
  λ this, engine this (lv_style_set_pad_top pad);;
          ret this.

Definition pad_bottom (pad : Z) : method lv_style_t style_call :=
  λ this, engine this (lv_style_set_pad_bottom pad);;
          ret this.

Definition pad_left (pad : Z) : method lv_style_t style_call :=
  λ this, engine this (lv_style_set_pad_left pad);;
          ret this.

Definition pad_right (pad : Z) : method lv_style_t style_call :=
  λ this, engine this (lv_style_set_pad_right pad);;
          ret this.

Definition pad_hor (pad : Z) : method lv_style_t style_call :=
  λ this, engine this (lv_style_set_pad_hor pad);;
          ret this.

Definition pad_ver (pad : Z) : method lv_style_t style_call :=
  λ this, engine this (lv_style_set_pad_ver pad);;
          ret this.

Definition pad_row (pad : Z) : method lv_style_t style_call :=
  λ this, engine this (lv_style_set_pad_row pad);;
          ret this.

Definition pad_column (pad : Z) : method lv_style_t style_call :=
  λ this, engine this (lv_style_set_pad_column pad);;
          ret this.

Definition pad_gap (pad : Z) : method lv_style_t style_call :=
  λ this, engine this (lv_style_set_pad_row pad);;
          engine this (lv_style_set_pad_column pad);;
          ret this.

Definition margin_all (margin : Z) : method lv_style_t style_call :=
  λ this, engine this (lv_style_set_margin_top margin);;
          engine this (lv_style_set_margin_bottom margin);;
          engine this (lv_style_set_margin_left margin);;
          engine this (lv_style_set_margin_right margin);;
          ret this.

Definition margin_top (margin : Z) : method lv_style_t style_call :=
  λ this, engine this (lv_style_set_margin_top margin);;
          ret this.

Definition margin_bottom (margin : Z) : method lv_style_t style_call :=
  λ this, engine this (lv_style_set_margin_bottom margin);;
          ret this.

Definition margin_left (margin : Z) : method lv_style_t style_call :=
  λ this, engine this (lv_style_set_margin_left margin);;
          ret this.

Definition margin_right (margin : Z) : method lv_style_t style_call :=
  λ this, engine this (lv_style_set_margin_right margin);;
          ret this.

Definition width (w : Z) : method lv_style_t style_call :=
  λ this, engine this (lv_style_set_width w);;
          ret this.

Definition min_width (w : Z) : method lv_style_t style_call :=
  λ this, engine this (lv_style_set_min_width w);;
          ret this.

Definition max_width (w : Z) : method lv_style_t style_call :=
  λ this, engine this (lv_style_set_max_width w);;
          ret this.

Definition height (h : Z) : method lv_style_t style_call :=
  λ this, engine this (lv_style_set_height h);;
          ret this.

Definition min_height (h : Z) : method lv_style_t style_call :=
  λ this, engine this (lv_style_set_min_height h);;
          ret this.

Definition max_height (h : Z) : method lv_style_t style_call :=
  λ this, engine this (lv_style_set_max_height h);;
          ret this.

Definition radius (r : Z) : method lv_style_t style_call :=
  λ this, engine this (lv_style_set_radius r);;
          ret this.

Definition opa (opa : Z) : method lv_style_t style_call :=
  λ this, engine this (lv_style_set_opa opa);;
          ret this.

Definition clip_corner (clip : bool) : method lv_style_t style_call :=
  λ this, engine this (lv_style_set_clip_corner clip);;
          ret this.

Definition blend_mode (mode : Z) : method lv_style_t style_call :=
  λ this, engine this (lv_style_set_blend_mode mode);;
          ret this.

Definition text_color (color : lv_color_t) : method lv_style_t style_call :=
  λ this, engine this (lv_style_set_text_color color);;
          ret this.

Definition text_opa (opa : Z) : method lv_style_t style_call :=
  λ this, engine this (lv_style_set_text_opa opa);;
          ret this.

Definition text_font (font : ptr) : method lv_style_t style_call :=
  λ this, engine this (lv_style_set_text_font font);;
          ret this.

Definition text_letter_space (space : Z) : method lv_style_t style_call :=
  λ this, engine this (lv_style_set_text_letter_space space);;
          ret this.

Definition text_line_space (space : Z) : method lv_style_t style_call :=
  λ this, engine this (lv_style_set_text_line_space space);;
          ret this.

Definition text_decor (decor : Z) : method lv_style_t style_call :=
  λ this, engine this (lv_style_set_text_decor decor);;
          ret this.

Definition text_align (align : Z) : method lv_style_t style_call :=
  λ this, engine this (lv_style_set_text_align align);;
          ret this.

Definition image_opa (opa : Z) : method lv_style_t style_call :=
  λ this, engine this (lv_style_set_image_opa opa);;
          ret this.

Definition image_recolor (color : lv_color_t) : method lv_style_t style_call :=
  λ this, engine this (lv_style_set_image_recolor color);;
          ret this.

Definition image_recolor_opa (opa : Z) : method lv_style_t style_call :=
  λ this, engine this (lv_style_set_image_recolor_opa opa);;
          ret this.

Definition line_color (color : lv_color_t) : method lv_style_t style_call :=
  λ this, engine this (lv_style_set_line_color color);;
          ret this.

Definition line_width (width : Z) : method lv_style_t style_call :=
  λ this, engine this (lv_style_set_line_width width);;
          ret this.

Definition line_opa (opa : Z) : method lv_style_t style_call :=
  λ this, engine this (lv_style_set_line_opa opa);;
          ret this.

Definition line_rounded (rounded : bool) : method lv_style_t style_call :=
  λ this, engine this (lv_style_set_line_rounded rounded);;
          ret this.

Definition arc_color (color : lv_color_t) : method lv_style_t style_call :=
  λ this, engine this (lv_style_set_arc_color color);;
          ret this.

Definition arc_width (width : Z) : method lv_style_t style_call :=
  λ this, engine this (lv_style_set_arc_width width);;
          ret this.

Definition arc_opa (opa : Z) : method lv_style_t style_call :=
  λ this, engine this (lv_style_set_arc_opa opa);;
          ret this.

Definition arc_rounded (rounded : bool) : method lv_style_t style_call :=
  λ this, engine this (lv_style_set_arc_rounded rounded);;
          ret this.

Definition transform_width (width : Z) : method lv_style_t style_call :=
  λ this, engine this (lv_style_set_transform_width width);;
          ret this.

Definition transform_height (height : Z) : method lv_style_t style_call :=
  λ this, engine this (lv_style_set_transform_height height);;
          ret this.

Definition transform_scale (scale : Z) : method lv_style_t style_call :=
  λ this, engine this (lv_style_set_transform_scale scale);;
          ret this.

Definition transform_scale_x (scale : Z) : method lv_style_t style_call :=
  λ this, engine this (lv_style_set_transform_scale_x scale);;
          ret this.

Definition transform_scale_y (scale : Z) : method lv_style_t style_call :=
  λ this, engine this (lv_style_set_transform_scale_y scale);;
          ret this.

Definition transform_rotation (angle : Z) : method lv_style_t style_call :=
  λ this, engine this (lv_style_set_transform_rotation angle);;
          ret this.

Definition transform_pivot (x y : Z) : method lv_style_t style_call :=
  λ this, engine this (lv_style_set_transform_pivot_x x);;
          engine this (lv_style_set_transform_pivot_y y);;
          ret this.

Definition layout (layout : Z) : method lv_style_t style_call :=
  λ this, engine this (lv_style_set_layout (uint16 layout));;
          ret this.

Definition flex_flow (flow : Z) : method lv_style_t style_call :=
  λ this, engine this (lv_style_set_flex_flow flow);;
          ret this.

Definition flex_main_place (place : Z) : method lv_style_t style_call :=
  λ this, engine this (lv_style_set_flex_main_place place);;
          ret this.

Definition flex_cross_place (place : Z) : method lv_style_t style_call :=
  λ this, engine this (lv_style_set_flex_cross_place place);;
          ret this.

Definition flex_track_place (place : Z) : method lv_style_t style_call :=
  λ this, engine this (lv_style_set_flex_track_place place);;
          ret this.

Definition flex_grow (grow : Z) : method lv_style_t style_call :=
  λ this, engine this (lv_style_set_flex_grow (uint8 grow));;
          ret this.

Definition align (align : Z) : method lv_style_t style_call :=
  λ this, engine this (lv_style_set_align align);;
          ret this.

Definition translate_x (x : Z) : method lv_style_t style_call :=
  λ this, engine this (lv_style_set_translate_x x);;
          ret this.

Definition translate_y (y : Z) : method lv_style_t style_call :=
  λ this, engine this (lv_style_set_translate_y y);;
          ret this.

(** One invocation of a member function that returns [Style&]: [reset()]
    or a property setter, with its arguments. *)
Inductive mutator : Type :=
| Reset_
| Bg_color (color : lv_color_t)
| Bg_opa (opa : Z)
| Bg_grad_color (color : lv_color_t)
| Bg_grad_dir (dir : Z)
| Bg_main_stop (stop : Z)
| Bg_grad_stop (stop : Z)
| Border_color (color : lv_color_t)
| Border_width (width : Z)
| Border_opa (opa : Z)
| Border_side (side : Z)
| Outline_color (color : lv_color_t)
| Outline_width (width : Z)
| Outline_opa (opa : Z)
| Outline_pad (pad : Z)
| Shadow_color (color : lv_color_t)
| Shadow_width (width : Z)
| Shadow_opa (opa : Z)
| Shadow_offset (x y : Z)
| Shadow_spread (spread : Z)
| Pad_all (pad : Z)
| Pad_top (pad : Z)
| Pad_bottom (pad : Z)
| Pad_left (pad : Z)
| Pad_right (pad : Z)
| Pad_hor (pad : Z)
| Pad_ver (pad : Z)
| Pad_row (pad : Z)
| Pad_column (pad : Z)
| Pad_gap (pad : Z)
| Margin_all (margin : Z)
| Margin_top (margin : Z)
| Margin_bottom (margin : Z)
| Margin_left (margin : Z)
| Margin_right (margin : Z)
| Width (w : Z)
| Min_width (w : Z)
| Max_width (w : Z)
| Height (h : Z)
| Min_height (h : Z)
| Max_height (h : Z)
| Radius (r : Z)
| Opa (opa : Z)
| Clip_corner (clip : bool)
| Blend_mode (mode : Z)
| Text_color (color : lv_color_t)
| Text_opa (opa : Z)
| Text_font (font : ptr)
| Text_letter_space (space : Z)
| Text_line_space (space : Z)
| Text_decor (decor : Z)
| Text_align (align : Z)
| Image_opa (opa : Z)
| Image_recolor (color : lv_color_t)
| Image_recolor_opa (opa : Z)
| Line_color (color : lv_color_t)
| Line_width (width : Z)
| Line_opa (opa : Z)
| Line_rounded (rounded : bool)
| Arc_color (color : lv_color_t)
| Arc_width (width : Z)
| Arc_opa (opa : Z)
| Arc_rounded (rounded : bool)
| Transform_width (width : Z)
| Transform_height (height : Z)
| Transform_scale (scale : Z)
| Transform_scale_x (scale : Z)
| Transform_scale_y (scale : Z)
| Transform_rotation (angle : Z)
| Transform_pivot (x y : Z)
| Layout (layout : Z)
| Flex_flow (flow : Z)
| Flex_main_place (place : Z)
| Flex_cross_place (place : Z)
| Flex_track_place (place : Z)
| Flex_grow (grow : Z)
| Align (align : Z)
| Translate_x (x : Z)
| Translate_y (y : Z).

Definition invoke (m : mutator) : method lv_style_t style_call :=
  match m with
  | Reset_ => reset
  | Bg_color a1 => bg_color a1
  | Bg_opa a1 => bg_opa a1
  | Bg_grad_color a1 => bg_grad_color a1
  | Bg_grad_dir a1 => bg_grad_dir a1
  | Bg_main_stop a1 => bg_main_stop a1
  | Bg_grad_stop a1 => bg_grad_stop a1
  | Border_color a1 => border_color a1
  | Border_width a1 => border_width a1
  | Border_opa a1 => border_opa a1
  | Border_side a1 => border_side a1
  | Outline_color a1 => outline_color a1
  | Outline_width a1 => outline_width a1
  | Outline_opa a1 => outline_opa a1
  | Outline_pad a1 => outline_pad a1
  | Shadow_color a1 => shadow_color a1
  | Shadow_width a1 => shadow_width a1
  | Shadow_opa a1 => shadow_opa a1
  | Shadow_offset a1 a2 => shadow_offset a1 a2
  | Shadow_spread a1 => shadow_spread a1
  | Pad_all a1 => pad_all a1
  | Pad_top a1 => pad_top a1
  | Pad_bottom a1 => pad_bottom a1
  | Pad_left a1 => pad_left a1
  | Pad_right a1 => pad_right a1
  | Pad_hor a1 => pad_hor a1
  | Pad_ver a1 => pad_ver a1
  | Pad_row a1 => pad_row a1
  | Pad_column a1 => pad_column a1
  | Pad_gap a1 => pad_gap a1
  | Margin_all a1 => margin_all a1
  | Margin_top a1 => margin_top a1
  | Margin_bottom a1 => margin_bottom a1
  | Margin_left a1 => margin_left a1
  | Margin_right a1 => margin_right a1
  | Width a1 => width a1
  | Min_width a1 => min_width a1
  | Max_width a1 => max_width a1
  | Height a1 => height a1
  | Min_height a1 => min_height a1
  | Max_height a1 => max_height a1
  | Radius a1 => radius a1
  | Opa a1 => opa a1
  | Clip_corner a1 => clip_corner a1
  | Blend_mode a1 => blend_mode a1
  | Text_color a1 => text_color a1
  | Text_opa a1 => text_opa a1
  | Text_font a1 => text_font a1
  | Text_letter_space a1 => text_letter_space a1
  | Text_line_space a1 => text_line_space a1
  | Text_decor a1 => text_decor a1
  | Text_align a1 => text_align a1
  | Image_opa a1 => image_opa a1
  | Image_recolor a1 => image_recolor a1
  | Image_recolor_opa a1 => image_recolor_opa a1
  | Line_color a1 => line_color a1
  | Line_width a1 => line_width a1
  | Line_opa a1 => line_opa a1
  | Line_rounded a1 => line_rounded a1
  | Arc_color a1 => arc_color a1
  | Arc_width a1 => arc_width a1
  | Arc_opa a1 => arc_opa a1
  | Arc_rounded a1 => arc_rounded a1
  | Transform_width a1 => transform_width a1
  | Transform_height a1 => transform_height a1
  | Transform_scale a1 => transform_scale a1
  | Transform_scale_x a1 => transform_scale_x a1
  | Transform_scale_y a1 => transform_scale_y a1
  | Transform_rotation a1 => transform_rotation a1
  | Transform_pivot a1 a2 => transform_pivot a1 a2
  | Layout a1 => layout a1
  | Flex_flow a1 => flex_flow a1
  | Flex_main_place a1 => flex_main_place a1
  | Flex_cross_place a1 => flex_cross_place a1
  | Flex_track_place a1 => flex_track_place a1
  | Flex_grow a1 => flex_grow a1
  | Align a1 => align a1
  | Translate_x a1 => translate_x a1
  | Translate_y a1 => translate_y a1
  end.

(** The shorthands that set several properties: one engine call per
    property; [reset()]: [lv_style_reset] and [lv_style_init]; every other
    setter makes one call. *)
Definition forwarded_calls (m : mutator) : nat :=
  match m with
  | Margin_all _ => 4
  | Reset_ | Shadow_offset _ _ | Pad_gap _ | Transform_pivot _ _ => 2
  | _ => 1
  end.

End WithEngine.
End Style.

(** A style engine to run examples on: a style record is the list of the
    property calls made on it since it was last initialised or reset. *)
Definition recording_style_effect (f : style_fn) (s : list style_fn)
    : list style_fn :=
  match f with
  | lv_style_init | lv_style_reset => []
  | _ => s ++ [f]
  end.

Definition recording_style_engine : StyleEngine :=
  {| lv_style_t := list style_fn; lv_style_effect := recording_style_effect |}.

(** ** The engine API used by draw/draw_buf.hpp *)

(** [lv_image_header_t] and [lv_draw_buf_t] of [lvgl.h], with the fields
    the wrapper reads. *)
Record lv_image_header_t : Type :=
  { header_cf : Z; header_w : Z; header_h : Z; header_stride : Z }.

Record lv_draw_buf_t : Type :=
  { buf_header : lv_image_header_t; buf_data_size : Z; buf_data : ptr }.

Inductive draw_buf_call : Type :=
| lv_draw_buf_create (w h cf stride : Z)
| lv_draw_buf_create_ex (handlers : ptr) (w h cf stride : Z)
| lv_draw_buf_destroy (buf : ptr)
| lv_draw_buf_clear (buf area : ptr)
| lv_draw_buf_goto_xy (buf : ptr) (x y : Z)
| lv_draw_buf_set_palette (buf : ptr) (index : Z) (color : lv_color32_t)
| lv_draw_buf_invalidate_cache (buf area : ptr)
| lv_draw_buf_flush_cache (buf area : ptr)
| lv_draw_buf_copy (dest dest_area src src_area : ptr)
| lv_draw_buf_premultiply (buf : ptr)
| lv_draw_buf_has_flag (buf : ptr) (flag : Z)
| lv_draw_buf_set_flag (buf : ptr) (flag : Z)
| lv_draw_buf_clear_flag (buf : ptr) (flag : Z)
| lv_draw_buf_width_to_stride (w cf : Z)
| lv_draw_buf_dup (buf : ptr)
| lv_draw_buf_dup_ex (handlers buf : ptr)
| lv_draw_buf_reshape (buf : ptr) (cf w h stride : Z)
| lv_draw_buf_adjust_stride (buf : ptr) (stride : Z)
| lv_draw_buf_to_image (buf img : ptr)
| lv_draw_buf_from_image (buf img : ptr).

(** The engine's memory behind an [lv_draw_buf_t*], read by the property
    getters, and the one enumerator they return on their own. *)
Class DrawBufMemory : Type := {
  draw_buf_at : list draw_buf_call → ptr → lv_draw_buf_t;
  LV_COLOR_FORMAT_UNKNOWN : Z
}.

(** ** draw/draw_buf.hpp: class DrawBuf

    The object is one pointer, [m_buf]. *)

Module DrawBuf.
Section WithEngine.
Context `{Engine draw_buf_call} `{DrawBufMemory}.

Local Abbreviation M' := (M ptr draw_buf_call).

(** [DrawBuf(uint32_t w, uint32_t h, lv_color_format_t cf, uint32_t stride)]. *)
Definition ctor (this : Z) (w h cf stride : Z) : M' unit :=
  buf ← ask answer_ptr (lv_draw_buf_create w h cf stride);
  construct this buf.

(** [DrawBuf(wrap_t, lv_draw_buf_t* buf)]. *)
Definition ctor_wrap (this : Z) (buf : ptr) : M' unit :=
  construct this buf.

(** [DrawBuf()]: null buffer. *)
Definition ctor_default (this : Z) : M' unit :=
  construct this nullptr.

(** [~DrawBuf()]. *)
Definition dtor (this : Z) : M' unit :=
  m_buf ← load this;
  (if non_null m_buf then call (lv_draw_buf_destroy m_buf) else ret tt);;
  destroy this.

(** [DrawBuf(DrawBuf&& other)]. *)
Definition move_ctor (this other : Z) : M' unit :=
  other_m_buf ← load other;
  construct this other_m_buf;;
  store other nullptr.

(** [DrawBuf& operator=(DrawBuf&& other)]. *)
Definition move_assign (other : Z) : method ptr draw_buf_call :=
  λ this,
    (if bool_decide (this ≠ other) then
       m_buf ← load this;
       (if non_null m_buf then call (lv_draw_buf_destroy m_buf) else ret tt);;
       other_m_buf ← load other;
       store this other_m_buf;;
       store other nullptr
     else ret tt);;
    ret this.

Definition get (this : Z) : M' ptr := load this.

Definition to_bool (this : Z) : M' bool :=
  m_buf ← load this; ret (non_null m_buf).

(** *** Properties *)

Definition width (this : Z) : M' Z :=
  m_buf ← load this;
  if non_null m_buf
  then b ← peek (λ tr, draw_buf_at tr m_buf); ret (header_w (buf_header b))
  else ret 0.

Definition height (this : Z) : M' Z :=
  m_buf ← load this;
  if non_null m_buf
  then b ← peek (λ tr, draw_buf_at tr m_buf); ret (header_h (buf_header b))
  else ret 0.

Definition stride (this : Z) : M' Z :=
  m_buf ← load this;
  if non_null m_buf
  then b ← peek (λ tr, draw_buf_at tr m_buf); ret (header_stride (buf_header b))
  else ret 0.

Definition color_format (this : Z) : M' Z :=
  m_buf ← load this;
  if non_null m_buf
  then b ← peek (λ tr, draw_buf_at tr m_buf); ret (header_cf (buf_header b))
  else ret LV_COLOR_FORMAT_UNKNOWN.

Definition data (this : Z) : M' ptr :=
  m_buf ← load this;
  if non_null m_buf
  then b ← peek (λ tr, draw_buf_at tr m_buf); ret (buf_data b)
  else ret nullptr.

Definition data_size (this : Z) : M' Z :=
  m_buf ← load this;
  if non_null m_buf
  then b ← peek (λ tr, draw_buf_at tr m_buf); ret (buf_data_size b)
  else ret 0.

(** *** Operations *)

Definition clear (area : ptr) : method ptr draw_buf_call :=
  λ this, m_buf ← load this;
          (if non_null m_buf then call (lv_draw_buf_clear m_buf area)
           else ret tt);;
          ret this.

Definition goto_xy (this : Z) (x y : Z) : M' ptr :=
  m_buf ← load this;
  if non_null m_buf then ask answer_ptr (lv_draw_buf_goto_xy m_buf x y)
  else ret nullptr.

Definition set_palette (index : Z) (color : lv_color32_t)
    : method ptr draw_buf_call :=
  λ this, m_buf ← load this;
          (if non_null m_buf
           then call (lv_draw_buf_set_palette m_buf (uint8 index) color)
           else ret tt);;
          ret this.

Definition invalidate_cache (area : ptr) : method ptr draw_buf_call :=
  λ this, m_buf ← load this;
          (if non_null m_buf
           then call (lv_draw_buf_invalidate_cache m_buf area)
           else ret tt);;
          ret this.

Definition flush_cache (area : ptr) : method ptr draw_buf_call :=
  λ this, m_buf ← load this;
          (if non_null m_buf then call (lv_draw_buf_flush_cache m_buf area)
           else ret tt);;
          ret this.

(** [copy(dest_area, src, src_area)]: [src] is a reference to another
    [DrawBuf]; the guard is [m_buf && src.m_buf]. *)
Definition copy (dest_area : ptr) (src : Z) (src_area : ptr)
    : method ptr draw_buf_call :=
  λ this, m_buf ← load this;
          (if non_null m_buf then
             src_m_buf ← load src;
             if non_null src_m_buf
             then call (lv_draw_buf_copy m_buf dest_area src_m_buf src_area)
             else ret tt
           else ret tt);;
          ret this.

Definition premultiply : method ptr draw_buf_call :=
  λ this, m_buf ← load this;
          (if non_null m_buf then call (lv_draw_buf_premultiply m_buf)
           else ret tt);;
          ret this.

(** [m_buf && lv_draw_buf_has_flag(m_buf, flag)]. *)
Definition has_flag (this : Z) (flag : Z) : M' bool :=
  m_buf ← load this;
  if non_null m_buf then ask answer_bool (lv_draw_buf_has_flag m_buf flag)
  else ret false.

Definition set_flag (flag : Z) : method ptr draw_buf_call :=
  λ this, m_buf ← load this;
          (if non_null m_buf then call (lv_draw_buf_set_flag m_buf flag)
           else ret tt);;
          ret this.

Definition clear_flag (flag : Z) : method ptr draw_buf_call :=
  λ this, m_buf ← load this;
          (if non_null m_buf then call (lv_draw_buf_clear_flag m_buf flag)
           else ret tt);;
          ret this.

(** *** Static utilities

    A function that returns a [DrawBuf] by value constructs it at the
    address [result] the caller provides. *)

Definition width_to_stride (w cf : Z) : M' Z :=
  ask answer_int (lv_draw_buf_width_to_stride w cf).



Definition create_ex (result : Z) (handlers : ptr) (w h cf stride : Z)
    : M' unit :=
  buf ← ask answer_ptr (lv_draw_buf_create_ex handlers w h cf stride);
  ctor_wrap result buf.

Definition reshape (this : Z) (cf w h stride : Z) : M' ptr :=
  m_buf ← load this;
  if non_null m_buf
  then ask answer_ptr (lv_draw_buf_reshape m_buf cf w h stride)
  else ret nullptr.

(** Adjust stride in place. *)
Definition adjust_stride (this : Z) (stride : Z) : M' lv_result_t :=
  m_buf ← load this;
  if non_null m_buf
  then ask answer_result (lv_draw_buf_adjust_stride m_buf stride)
  else ret LV_RESULT_INVALID.

Definition to_image (this : Z) (img : ptr) : M' unit :=
  m_buf ← load this;
  if non_null m_buf && non_null img
  then call (lv_draw_buf_to_image m_buf img)
  else ret tt.

Definition from_image (this : Z) (img : ptr) : M' lv_result_t :=
  m_buf ← load this;
  if non_null m_buf && non_null img
  then ask answer_result (lv_draw_buf_from_image m_buf img)
  else ret LV_RESULT_INVALID.

(** One invocation of a member function on an existing [DrawBuf], with
    its arguments.  These are the member functions other than the special
    ones: the constructors, the destructor and the move assignment are
    [ctor], [ctor_wrap], [ctor_default], [move_ctor], [dtor] and
    [move_assign] above. *)
Inductive operation : Type :=
| Get | To_bool
| Width | Height | Stride | Color_format | Data | Data_size
| Clear (area : ptr)
| Goto_xy (x y : Z)
| Set_palette (index : Z) (color : lv_color32_t)
| Invalidate_cache (area : ptr)
| Flush_cache (area : ptr)
| Copy (dest_area : ptr) (src : Z) (src_area : ptr)
| Premultiply
| Has_flag (flag : Z)
| Set_flag (flag : Z)
| Clear_flag (flag : Z)
| Reshape (cf w h stride : Z)
| Adjust_stride (stride : Z)
| To_image (img : ptr)
| From_image (img : ptr).

Definition invoke (op : operation) (this : Z) : M' value :=
  match op with
  | Get => p ← get this; ret (VPtr p)
  | To_bool => b ← to_bool this; ret (VBool b)
  | Width => n ← width this; ret (VInt n)
  | Height => n ← height this; ret (VInt n)
  | Stride => n ← stride this; ret (VInt n)
  | Color_format => n ← color_format this; ret (VInt n)
  | Data => p ← data this; ret (VPtr p)
  | Data_size => n ← data_size this; ret (VInt n)
  | Clear area => r ← clear area this; ret (VRef r)
  | Goto_xy x y => p ← goto_xy this x y; ret (VPtr p)
  | Set_palette index color => r ← set_palette index color this; ret (VRef r)
  | Invalidate_cache area => r ← invalidate_cache area this; ret (VRef r)
  | Flush_cache area => r ← flush_cache area this; ret (VRef r)
  | Copy dest_area src src_area =>
      r ← copy dest_area src src_area this; ret (VRef r)
  | Premultiply => r ← premultiply this; ret (VRef r)
  | Has_flag flag => b ← has_flag this flag; ret (VBool b)
  | Set_flag flag => r ← set_flag flag this; ret (VRef r)
  | Clear_flag flag => r ← clear_flag flag this; ret (VRef r)
  | Reshape cf w h stride => p ← reshape this cf w h stride; ret (VPtr p)
  | Adjust_stride stride => r ← adjust_stride this stride; ret (VResult r)
  | To_image img => to_image this img;; ret VVoid
  | From_image img => r ← from_image this img; ret (VResult r)
  end.

(** What each member function returns when it finds [m_buf] null. *)
Definition on_null (op : operation) (this : Z) : value :=
  match op with
  | Get => VPtr nullptr
  | To_bool => VBool false
  | Width | Height | Stride | Data_size => VInt 0
  | Color_format => VInt LV_COLOR_FORMAT_UNKNOWN
  | Data | Goto_xy _ _ | Reshape _ _ _ _ => VPtr nullptr
  | Clear _ | Set_palette _ _ | Invalidate_cache _ | Flush_cache _
  | Copy _ _ _ | Premultiply | Set_flag _ | Clear_flag _ => VRef this
  | Has_flag _ => VBool false
  | Adjust_stride _ | From_image _ => VResult LV_RESULT_INVALID
  | To_image _ => VVoid
  end.

(** The chainable member functions, those that return [DrawBuf&]. *)
Inductive mutator : Type :=
| MClear (area : ptr)
| MSet_palette (index : Z) (color : lv_color32_t)
| MInvalidate_cache (area : ptr)
| MFlush_cache (area : ptr)
| MCopy (dest_area : ptr) (src : Z) (src_area : ptr)
| MPremultiply
| MSet_flag (flag : Z)
| MClear_flag (flag : Z).

Definition invoke_mutator (m : mutator) : method ptr draw_buf_call :=
  match m with
  | MClear a1 => clear a1
  | MSet_palette a1 a2 => set_palette a1 a2
  | MInvalidate_cache a1 => invalidate_cache a1
  | MFlush_cache a1 => flush_cache a1
  | MCopy a1 a2 a3 => copy a1 a2 a3
  | MPremultiply => premultiply
  | MSet_flag a1 => set_flag a1
  | MClear_flag a1 => clear_flag a1
  end.

End WithEngine.
End DrawBuf.

(** ** The engine API used by draw/draw_task.hpp: class DrawTaskView *)

Inductive draw_task_call : Type :=
| lv_draw_task_get_type (t : ptr)
| lv_draw_task_get_area (t area : ptr)
| lv_draw_task_get_draw_dsc (t : ptr)
| lv_draw_task_get_fill_dsc (t : ptr)
| lv_draw_task_get_border_dsc (t : ptr)
| lv_draw_task_get_box_shadow_dsc (t : ptr)
| lv_draw_task_get_label_dsc (t : ptr)
| lv_draw_task_get_image_dsc (t : ptr)
| lv_draw_task_get_line_dsc (t : ptr)
| lv_draw_task_get_arc_dsc (t : ptr)
| lv_draw_task_get_triangle_dsc (t : ptr).

(** ** draw/draw_task.hpp: class DrawTaskView

    A non-owning view of a draw task: one pointer, [m_task]. *)

Module DrawTaskView.
Section WithEngine.
Context `{Engine draw_task_call}.

(** The enumerator [LV_DRAW_TASK_TYPE_NONE] of [lvgl.h]. *)
Variable LV_DRAW_TASK_TYPE_NONE : Z.

Local Abbreviation M' := (M ptr draw_task_call).

Definition ctor_default (this : Z) : M' unit := construct this nullptr.
Definition ctor (this : Z) (task : ptr) : M' unit := construct this task.

Definition get (this : Z) : M' ptr := load this.

Definition to_bool (this : Z) : M' bool :=
  m_task ← load this; ret (non_null m_task).

(** Get the task type. *)
Definition type (this : Z) : M' Z :=
  m_task ← load this;
  if non_null m_task then ask answer_int (lv_draw_task_get_type m_task)
  else ret LV_DRAW_TASK_TYPE_NONE.

(** Get the draw area. *)
Definition get_area (this : Z) (area : ptr) : M' unit :=
  m_task ← load this;
  if non_null m_task && non_null area
  then call (lv_draw_task_get_area m_task area)
  else ret tt.

(** Get the draw descriptor (type-specific). *)
Definition draw_dsc (this : Z) : M' ptr :=
  m_task ← load this;
  if non_null m_task then ask answer_ptr (lv_draw_task_get_draw_dsc m_task)
  else ret nullptr.

(** [draw_dsc_as<T>()]: [static_cast<T*>(draw_dsc())]. *)
Definition draw_dsc_as (this : Z) : M' ptr := draw_dsc this.

Definition fill_dsc (this : Z) : M' ptr :=
  m_task ← load this;
  if non_null m_task then ask answer_ptr (lv_draw_task_get_fill_dsc m_task)
  else ret nullptr.

Definition border_dsc (this : Z) : M' ptr :=
  m_task ← load this;
  if non_null m_task then ask answer_ptr (lv_draw_task_get_border_dsc m_task)
  else ret nullptr.

Definition box_shadow_dsc (this : Z) : M' ptr :=
  m_task ← load this;
  if non_null m_task
  then ask answer_ptr (lv_draw_task_get_box_shadow_dsc m_task)
  else ret nullptr.

Definition label_dsc (this : Z) : M' ptr :=
  m_task ← load this;
  if non_null m_task then ask answer_ptr (lv_draw_task_get_label_dsc m_task)
  else ret nullptr.

Definition image_dsc (this : Z) : M' ptr :=
  m_task ← load this;
  if non_null m_task then ask answer_ptr (lv_draw_task_get_image_dsc m_task)
  else ret nullptr.

Definition line_dsc (this : Z) : M' ptr :=
  m_task ← load this;
  if non_null m_task then ask answer_ptr (lv_draw_task_get_line_dsc m_task)
  else ret nullptr.

Definition arc_dsc (this : Z) : M' ptr :=
  m_task ← load this;
  if non_null m_task then ask answer_ptr (lv_draw_task_get_arc_dsc m_task)
  else ret nullptr.

Definition triangle_dsc (this : Z) : M' ptr :=
  m_task ← load this;
  if non_null m_task
  then ask answer_ptr (lv_draw_task_get_triangle_dsc m_task)
  else ret nullptr.

(** One invocation of a member function on an existing view. *)
Inductive operation : Type :=
| Get | To_bool | Type_ | Get_area (area : ptr) | Draw_dsc | Draw_dsc_as
| Fill_dsc | Border_dsc | Box_shadow_dsc | Label_dsc | Image_dsc
| Line_dsc | Arc_dsc | Triangle_dsc.

Definition invoke (op : operation) (this : Z) : M' value :=
  match op with
  | Get => p ← get this; ret (VPtr p)
  | To_bool => b ← to_bool this; ret (VBool b)
  | Type_ => n ← type this; ret (VInt n)
  | Get_area area => get_area this area;; ret VVoid
  | Draw_dsc => p ← draw_dsc this; ret (VPtr p)
  | Draw_dsc_as => p ← draw_dsc_as this; ret (VPtr p)
  | Fill_dsc => p ← fill_dsc this; ret (VPtr p)
  | Border_dsc => p ← border_dsc this; ret (VPtr p)
  | Box_shadow_dsc => p ← box_shadow_dsc this; ret (VPtr p)
  | Label_dsc => p ← label_dsc this; ret (VPtr p)
  | Image_dsc => p ← image_dsc this; ret (VPtr p)
  | Line_dsc => p ← line_dsc this; ret (VPtr p)
  | Arc_dsc => p ← arc_dsc this; ret (VPtr p)
  | Triangle_dsc => p ← triangle_dsc this; ret (VPtr p)
  end.

(** What each member function returns when it finds [m_task] null. *)
Definition on_null (op : operation) : value :=
  match op with
  | To_bool => VBool false
  | Type_ => VInt LV_DRAW_TASK_TYPE_NONE
  | Get_area _ => VVoid
  | _ => VPtr nullptr
  end.

End WithEngine.
End DrawTaskView.

(** ** libs/barcode.hpp: class Barcode *)

Inductive barcode_call : Type :=
| lv_barcode_create (parent : ptr)
| lv_barcode_set_dark_color (obj : ptr) (color : lv_color_t)
| lv_barcode_set_light_color (obj : ptr) (color : lv_color_t)
| lv_barcode_set_scale (obj : ptr) (scale : Z)
| lv_barcode_set_direction (obj : ptr) (dir : Z)
| lv_barcode_set_tiled (obj : ptr) (tiled : bool)
| lv_barcode_set_encoding (obj : ptr) (encoding : Z)
| lv_barcode_update (obj : ptr) (text : string).

Module Barcode.
Section WithEngine.
Context `{Engine barcode_call}.

(** [LV_DIR_HOR] and [LV_DIR_VER] of [lvgl.h]. *)
Variables LV_DIR_HOR LV_DIR_VER : Z.

(** [explicit Barcode(ObjectView parent)]. *)
Definition ctor (this : Z) (parent : ptr) : M ptr barcode_call unit :=
  obj ← ask answer_ptr (lv_barcode_create parent);
  construct this obj.

Definition dark_color (color : lv_color_t) : method ptr barcode_call :=
  λ this, m_obj ← load this;
          call (lv_barcode_set_dark_color m_obj color);;
          ret this.

Definition light_color (color : lv_color_t) : method ptr barcode_call :=
  λ this, m_obj ← load this;
          call (lv_barcode_set_light_color m_obj color);;
          ret this.

Definition scale (scale : Z) : method ptr barcode_call :=
  λ this, m_obj ← load this;
          call (lv_barcode_set_scale m_obj (uint16 scale));;
          ret this.

Definition direction (dir : Z) : method ptr barcode_call :=
  λ this, m_obj ← load this;
          call (lv_barcode_set_direction m_obj dir);;
          ret this.

Definition horizontal : method ptr barcode_call :=
  λ this, direction LV_DIR_HOR this.

Definition vertical : method ptr barcode_call :=
  λ this, direction LV_DIR_VER this.

Definition tiled (tiled : bool) : method ptr barcode_call :=
  λ this, m_obj ← load this;
          call (lv_barcode_set_tiled m_obj tiled);;
          ret this.

Definition encoding (encoding : Z) : method ptr barcode_call :=
  λ this, m_obj ← load this;
          call (lv_barcode_set_encoding m_obj encoding);;
          ret this.

(** [bool data(const char* text)]: set barcode data; true if
    successful. *)
Definition data (this : Z) (text : string) : M ptr barcode_call bool :=
  m_obj ← load this;
  r ← ask answer_result (lv_barcode_update m_obj text);
  ret (lv_result_eqb r LV_RESULT_OK).

End WithEngine.
End Barcode.

(** ** libs/qrcode.hpp: class QRCode *)

Inductive qrcode_call : Type :=
| lv_qrcode_create (parent : ptr)
| lv_qrcode_set_size (obj : ptr) (size : Z)
| lv_qrcode_set_dark_color (obj : ptr) (color : lv_color_t)
| lv_qrcode_set_light_color (obj : ptr) (color : lv_color_t)
| lv_qrcode_set_quiet_zone (obj : ptr) (enable : bool)
| lv_qrcode_set_data (obj : ptr) (text : string)
| lv_qrcode_update (obj : ptr) (data : list byte) (len : Z).

Module QRCode.
Section WithEngine.
Context `{Engine qrcode_call}.

(** [explicit QRCode(ObjectView parent)]. *)
Definition ctor (this : Z) (parent : ptr) : M ptr qrcode_call unit :=
  obj ← ask answer_ptr (lv_qrcode_create parent);
  construct this obj.

Definition size (size : Z) : method ptr qrcode_call :=
  λ this, m_obj ← load this;
          call (lv_qrcode_set_size m_obj size);;
          ret this.

Definition dark_color (color : lv_color_t) : method ptr qrcode_call :=
  λ this, m_obj ← load this;
          call (lv_qrcode_set_dark_color m_obj color);;
          ret this.

Definition light_color (color : lv_color_t) : method ptr qrcode_call :=
  λ this, m_obj ← load this;
          call (lv_qrcode_set_light_color m_obj color);;
          ret this.

Definition quiet_zone (enable : bool) : method ptr qrcode_call :=
  λ this, m_obj ← load this;
          call (lv_qrcode_set_quiet_zone m_obj enable);;
          ret this.

(** [QRCode& data(const char* text)]. *)
Definition data (text : string) : method ptr qrcode_call :=
  λ this, m_obj ← load this;
          call (lv_qrcode_set_data m_obj text);;
          ret this.

(** [QRCode& data(std::string_view text)]: the result of
    [lv_qrcode_update] is dropped; the length is
    [static_cast<uint32_t>(text.size())]. *)
Definition data_view (text : list byte) : method ptr qrcode_call :=
  λ this, m_obj ← load this;
          call (lv_qrcode_update m_obj text
                  (Z.of_nat (length text) mod 2 ^ 32));;
          ret this.

(** [bool update(const void* data, uint32_t len)]: set QR code data from
    binary data; true if successful.  [data] is the buffer the pointer
    refers to. *)
Definition update (this : Z) (data : list byte) (len : Z)
    : M ptr qrcode_call bool :=
  m_obj ← load this;
  r ← ask answer_result (lv_qrcode_update m_obj data len);
  ret (lv_result_eqb r LV_RESULT_OK).

End WithEngine.
End QRCode.

(** ** The descriptor builders: draw/draw_rect.hpp, draw_line.hpp,
    draw_arc.hpp, draw_triangle.hpp, draw_image.hpp, draw_label.hpp *)

(** [lv_area_t] and [lv_point_t] of [lvgl.h].  [lv_value_precise_t] is
    [int32_t] unless the engine is built with [LV_USE_FLOAT], so
    [lv_point_precise_t] has the same shape as [lv_point_t]. *)
Record lv_area_t : Type := lv_area { x1 : Z; y1 : Z; x2 : Z; y2 : Z }.

Record lv_point_t : Type := lv_point { point_x : Z; point_y : Z }.

Abbreviation lv_point_precise_t := lv_point_t.

(** [lv_grad_dsc_t] of [lvgl.h], copied as a whole: its bytes. *)
Record lv_grad_dsc_t : Type := lv_grad_dsc { grad_bytes : list byte }.

(** The descriptor records [lv_draw_fill_dsc_t], [lv_draw_border_dsc_t], ...
    of [lvgl.h] are initialised by the engine and then assigned member by
    member.  A record is represented by the values of its members, by
    member path as the C++ source writes it after [m_dsc.] (color, p1.x,
    p[0].y).  A value-initialised record ([m_dsc{}]) has no member set. *)
Inductive member : Type :=
| MInt (n : Z)
| MColor (c : lv_color_t)
| MPtr (p : ptr)
| MArea (a : lv_area_t)
| MGrad (g : lv_grad_dsc_t).

Abbreviation lv_dsc := (gmap string member).

(** The engine calls the builders make, each given a pointer to the
    record. *)
Inductive dsc_call : Type :=
| lv_draw_fill_dsc_init (dsc : ptr)
| lv_draw_border_dsc_init (dsc : ptr)
| lv_draw_box_shadow_dsc_init (dsc : ptr)
| lv_draw_rect_dsc_init (dsc : ptr)
| lv_draw_line_dsc_init (dsc : ptr)
| lv_draw_arc_dsc_init (dsc : ptr)
| lv_draw_triangle_dsc_init (dsc : ptr)
| lv_draw_image_dsc_init (dsc : ptr)
| lv_draw_label_dsc_init (dsc : ptr)
| lv_draw_letter_dsc_init (dsc : ptr)
| lv_obj_init_draw_rect_dsc (obj : ptr) (part : Z) (dsc : ptr)
| lv_obj_init_draw_line_dsc (obj : ptr) (part : Z) (dsc : ptr)
| lv_obj_init_draw_arc_dsc (obj : ptr) (part : Z) (dsc : ptr)
| lv_obj_init_draw_image_dsc (obj : ptr) (part : Z) (dsc : ptr)
| lv_obj_init_draw_label_dsc (obj : ptr) (part : Z) (dsc : ptr).

(** What an engine call makes of the record it is given. *)
Class DscEngine : Type := {
  dsc_effect : dsc_call → lv_dsc → lv_dsc
}.

(** [m_dsc.path = v] on the builder at [this]. *)
Definition assign {C : Type} (this : Z) (path : string) (v : member)
    : M lv_dsc C unit :=
  m_dsc ← load this;
  store this (<[path := v]> m_dsc).

(** An engine call on the record of the builder at [this]: [&m_dsc] is the
    address of the builder. *)
Definition dsc_engine `{DscEngine} (this : Z) (c : dsc_call)
    : M lv_dsc dsc_call unit :=
  m_dsc ← load this;
  call c;;
  store this (dsc_effect c m_dsc).

(** *** class FillDsc *)

Module FillDsc.

Section WithEngine.
Context `{DscEngine}.

(** [FillDsc()]. *)
Definition ctor (this : Z) : M lv_dsc dsc_call unit :=
  construct this ∅;;
  dsc_engine this (lv_draw_fill_dsc_init this).

(** [get()] points to the record. *)
Definition get (this : Z) : M lv_dsc dsc_call lv_dsc := load this.

Definition color (c : lv_color_t) : method lv_dsc dsc_call :=
  λ this, assign this "color" (MColor c);;
          ret this.

Definition radius (r : Z) : method lv_dsc dsc_call :=
  λ this, assign this "radius" (MInt r);;
          ret this.

Definition opa (o : Z) : method lv_dsc dsc_call :=
  λ this, assign this "opa" (MInt o);;
          ret this.

Definition grad (g : lv_grad_dsc_t) : method lv_dsc dsc_call :=
  λ this, assign this "grad" (MGrad g);;
          ret this.

(** One invocation of a setter, with its arguments. *)
Inductive mutator : Type :=
| Color (c : lv_color_t)
| Radius (r : Z)
| Opa (o : Z)
| Grad (g : lv_grad_dsc_t).

Definition invoke (m : mutator) : method lv_dsc dsc_call :=
  match m with
  | Color a1 => color a1
  | Radius a1 => radius a1
  | Opa a1 => opa a1
  | Grad a1 => grad a1
  end.

End WithEngine.
End FillDsc.

(** *** class BorderDsc *)

Module BorderDsc.

Section WithEngine.
Context `{DscEngine}.

(** [BorderDsc()]. *)
Definition ctor (this : Z) : M lv_dsc dsc_call unit :=
  construct this ∅;;
  dsc_engine this (lv_draw_border_dsc_init this).

(** [get()] points to the record. *)
Definition get (this : Z) : M lv_dsc dsc_call lv_dsc := load this.

Definition color (c : lv_color_t) : method lv_dsc dsc_call :=
  λ this, assign this "color" (MColor c);;
          ret this.

Definition width (w : Z) : method lv_dsc dsc_call :=
  λ this, assign this "width" (MInt w);;
          ret this.

Definition radius (r : Z) : method lv_dsc dsc_call :=
  λ this, assign this "radius" (MInt r);;
          ret this.

Definition opa (o : Z) : method lv_dsc dsc_call :=
  λ this, assign this "opa" (MInt o);;
          ret this.

Definition side (s : Z) : method lv_dsc dsc_call :=
  λ this, assign this "side" (MInt s);;
          ret this.

(** One invocation of a setter, with its arguments. *)
Inductive mutator : Type :=
| Color (c : lv_color_t)
| Width (w : Z)
| Radius (r : Z)
| Opa (o : Z)
| Side (s : Z).

Definition invoke (m : mutator) : method lv_dsc dsc_call :=
  match m with
  | Color a1 => color a1
  | Width a1 => width a1
  | Radius a1 => radius a1
  | Opa a1 => opa a1
  | Side a1 => side a1
  end.

End WithEngine.
End BorderDsc.

(** *** class BoxShadowDsc *)

Module BoxShadowDsc.

Section WithEngine.
Context `{DscEngine}.

(** [BoxShadowDsc()]. *)
Definition ctor (this : Z) : M lv_dsc dsc_call unit :=
  construct this ∅;;
  dsc_engine this (lv_draw_box_shadow_dsc_init this).

(** [get()] points to the record. *)
Definition get (this : Z) : M lv_dsc dsc_call lv_dsc := load this.

Definition color (c : lv_color_t) : method lv_dsc dsc_call :=
  λ this, assign this "color" (MColor c);;
          ret this.

Definition width (w : Z) : method lv_dsc dsc_call :=
  λ this, assign this "width" (MInt w);;
          ret this.

Definition spread (s : Z) : method lv_dsc dsc_call :=
  λ this, assign this "spread" (MInt s);;
          ret this.

Definition ofs (x y : Z) : method lv_dsc dsc_call :=
  λ this, assign this "ofs_x" (MInt x);;
          assign this "ofs_y" (MInt y);;
          ret this.

Definition radius (r : Z) : method lv_dsc dsc_call :=
  λ this, assign this "radius" (MInt r);;
          ret this.

Definition opa (o : Z) : method lv_dsc dsc_call :=
  λ this, assign this "opa" (MInt o);;
          ret this.

Definition bg_cover (cover : bool) : method lv_dsc dsc_call :=
  λ this, assign this "bg_cover" (MInt (if cover then 1 else 0));;
          ret this.

(** One invocation of a setter, with its arguments. *)
Inductive mutator : Type :=
| Color (c : lv_color_t)
| Width (w : Z)
| Spread (s : Z)
| Ofs (x y : Z)
| Radius (r : Z)
| Opa (o : Z)
| Bg_cover (cover : bool).

Definition invoke (m : mutator) : method lv_dsc dsc_call :=
  match m with
  | Color a1 => color a1
  | Width a1 => width a1
  | Spread a1 => spread a1
  | Ofs a1 a2 => ofs a1 a2
  | Radius a1 => radius a1
  | Opa a1 => opa a1
  | Bg_cover a1 => bg_cover a1
  end.

End WithEngine.
End BoxShadowDsc.

(** *** class RectDsc *)

Module RectDsc.

Section WithEngine.
Context `{DscEngine}.

(** [RectDsc()]. *)
Definition ctor (this : Z) : M lv_dsc dsc_call unit :=
  construct this ∅;;
  dsc_engine this (lv_draw_rect_dsc_init this).

(** [RectDsc(lv_obj_t* obj, lv_part_t part)]: initialize from an object's
    styles. *)
Definition ctor_obj (this : Z) (obj : ptr) (part : Z)
    : M lv_dsc dsc_call unit :=
  construct this ∅;;
  dsc_engine this (lv_draw_rect_dsc_init this);;
  dsc_engine this (lv_obj_init_draw_rect_dsc obj part this).

(** [get()] points to the record. *)
Definition get (this : Z) : M lv_dsc dsc_call lv_dsc := load this.

Definition radius (r : Z) : method lv_dsc dsc_call :=
  λ this, assign this "radius" (MInt r);;
          ret this.

Definition bg_color (c : lv_color_t) : method lv_dsc dsc_call :=
  λ this, assign this "bg_color" (MColor c);;
          ret this.

Definition bg_opa (o : Z) : method lv_dsc dsc_call :=
  λ this, assign this "bg_opa" (MInt o);;
          ret this.

Definition bg_grad (g : lv_grad_dsc_t) : method lv_dsc dsc_call :=
  λ this, assign this "bg_grad" (MGrad g);;
          ret this.

Definition bg_image_src (src : ptr) : method lv_dsc dsc_call :=
  λ this, assign this "bg_image_src" (MPtr src);;
          ret this.

Definition bg_image_opa (o : Z) : method lv_dsc dsc_call :=
  λ this, assign this "bg_image_opa" (MInt o);;
          ret this.

Definition bg_image_recolor (c : lv_color_t) (o : Z) : method lv_dsc dsc_call :=
  λ this, assign this "bg_image_recolor" (MColor c);;
          assign this "bg_image_recolor_opa" (MInt o);;
          ret this.

Definition bg_image_tiled (tiled : bool) : method lv_dsc dsc_call :=
  λ this, assign this "bg_image_tiled" (MInt (if tiled then 1 else 0));;
          ret this.

Definition border_color (c : lv_color_t) : method lv_dsc dsc_call :=
  λ this, assign this "border_color" (MColor c);;
          ret this.

Definition border_width (w : Z) : method lv_dsc dsc_call :=
  λ this, assign this "border_width" (MInt w);;
          ret this.

Definition border_opa (o : Z) : method lv_dsc dsc_call :=
  λ this, assign this "border_opa" (MInt o);;
          ret this.

Definition border_side (s : Z) : method lv_dsc dsc_call :=
  λ this, assign this "border_side" (MInt s);;
          ret this.

Definition border_post (post : bool) : method lv_dsc dsc_call :=
  λ this, assign this "border_post" (MInt (if post then 1 else 0));;
          ret this.

Definition outline_color (c : lv_color_t) : method lv_dsc dsc_call :=
  λ this, assign this "outline_color" (MColor c);;
          ret this.

Definition outline_width (w : Z) : method lv_dsc dsc_call :=
  λ this, assign this "outline_width" (MInt w);;
          ret this.

Definition outline_pad (p : Z) : method lv_dsc dsc_call :=
  λ this, assign this "outline_pad" (MInt p);;
          ret this.

Definition outline_opa (o : Z) : method lv_dsc dsc_call :=
  λ this, assign this "outline_opa" (MInt o);;
          ret this.

Definition shadow_color (c : lv_color_t) : method lv_dsc dsc_call :=
  λ this, assign this "shadow_color" (MColor c);;
          ret this.

Definition shadow_width (w : Z) : method lv_dsc dsc_call :=
  λ this, assign this "shadow_width" (MInt w);;
          ret this.

Definition shadow_ofs (x y : Z) : method lv_dsc dsc_call :=
  λ this, assign this "shadow_offset_x" (MInt x);;
          assign this "shadow_offset_y" (MInt y);;
          ret this.

Definition shadow_spread (s : Z) : method lv_dsc dsc_call :=
  λ this, assign this "shadow_spread" (MInt s);;
          ret this.

Definition shadow_opa (o : Z) : method lv_dsc dsc_call :=
  λ this, assign this "shadow_opa" (MInt o);;
          ret this.

(** One invocation of a setter, with its arguments. *)
Inductive mutator : Type :=
| Radius (r : Z)
| Bg_color (c : lv_color_t)
| Bg_opa (o : Z)
| Bg_grad (g : lv_grad_dsc_t)
| Bg_image_src (src : ptr)
| Bg_image_opa (o : Z)
| Bg_image_recolor (c : lv_color_t) (o : Z)
| Bg_image_tiled (tiled : bool)
| Border_color (c : lv_color_t)
| Border_width (w : Z)
| Border_opa (o : Z)
| Border_side (s : Z)
| Border_post (post : bool)
| Outline_color (c : lv_color_t)
| Outline_width (w : Z)
| Outline_pad (p : Z)
| Outline_opa (o : Z)
| Shadow_color (c : lv_color_t)
| Shadow_width (w : Z)
| Shadow_ofs (x y : Z)
| Shadow_spread (s : Z)
| Shadow_opa (o : Z).

Definition invoke (m : mutator) : method lv_dsc dsc_call :=
  match m with
  | Radius a1 => radius a1
  | Bg_color a1 => bg_color a1
  | Bg_opa a1 => bg_opa a1
  | Bg_grad a1 => bg_grad a1
  | Bg_image_src a1 => bg_image_src a1
  | Bg_image_opa a1 => bg_image_opa a1
  | Bg_image_recolor a1 a2 => bg_image_recolor a1 a2
  | Bg_image_tiled a1 => bg_image_tiled a1
  | Border_color a1 => border_color a1
  | Border_width a1 => border_width a1
  | Border_opa a1 => border_opa a1
  | Border_side a1 => border_side a1
  | Border_post a1 => border_post a1
  | Outline_color a1 => outline_color a1
  | Outline_width a1 => outline_width a1
  | Outline_pad a1 => outline_pad a1
  | Outline_opa a1 => outline_opa a1
  | Shadow_color a1 => shadow_color a1
  | Shadow_width a1 => shadow_width a1
  | Shadow_ofs a1 a2 => shadow_ofs a1 a2
  | Shadow_spread a1 => shadow_spread a1
  | Shadow_opa a1 => shadow_opa a1
  end.

End WithEngine.
End RectDsc.

(** *** class LineDsc *)

Module LineDsc.

Section WithEngine.
Context `{DscEngine}.

(** [LineDsc()]. *)
Definition ctor (this : Z) : M lv_dsc dsc_call unit :=
  construct this ∅;;
  dsc_engine this (lv_draw_line_dsc_init this).

(** [LineDsc(lv_obj_t* obj, lv_part_t part)]: initialize from an object's
    styles. *)
Definition ctor_obj (this : Z) (obj : ptr) (part : Z)
    : M lv_dsc dsc_call unit :=
  construct this ∅;;
  dsc_engine this (lv_draw_line_dsc_init this);;
  dsc_engine this (lv_obj_init_draw_line_dsc obj part this).

(** [get()] points to the record. *)
Definition get (this : Z) : M lv_dsc dsc_call lv_dsc := load this.

Definition p1 (x y : Z) : method lv_dsc dsc_call :=
  λ this, assign this "p1.x" (MInt x);;
          assign this "p1.y" (MInt y);;
          ret this.

Definition p1_1 (pt : lv_point_precise_t) : method lv_dsc dsc_call :=
  λ this, assign this "p1.x" (MInt (point_x pt));;
          assign this "p1.y" (MInt (point_y pt));;
          ret this.

Definition p2 (x y : Z) : method lv_dsc dsc_call :=
  λ this, assign this "p2.x" (MInt x);;
          assign this "p2.y" (MInt y);;
          ret this.

Definition p2_1 (pt : lv_point_precise_t) : method lv_dsc dsc_call :=
  λ this, assign this "p2.x" (MInt (point_x pt));;
          assign this "p2.y" (MInt (point_y pt));;
          ret this.

Definition points (x1 y1 x2 y2 : Z) : method lv_dsc dsc_call :=
  λ this, assign this "p1.x" (MInt x1);;
          assign this "p1.y" (MInt y1);;
          assign this "p2.x" (MInt x2);;
          assign this "p2.y" (MInt y2);;
          ret this.

Definition color (c : lv_color_t) : method lv_dsc dsc_call :=
  λ this, assign this "color" (MColor c);;
          ret this.

Definition width (w : Z) : method lv_dsc dsc_call :=
  λ this, assign this "width" (MInt w);;
          ret this.

Definition opa (o : Z) : method lv_dsc dsc_call :=
  λ this, assign this "opa" (MInt o);;
          ret this.

Definition dash (dash_width gap : Z) : method lv_dsc dsc_call :=
  λ this, assign this "dash_width" (MInt dash_width);;
          assign this "dash_gap" (MInt gap);;
          ret this.

Definition dash_width (w : Z) : method lv_dsc dsc_call :=
  λ this, assign this "dash_width" (MInt w);;
          ret this.

Definition dash_gap (g : Z) : method lv_dsc dsc_call :=
  λ this, assign this "dash_gap" (MInt g);;
          ret this.

Definition round_start (rounded : bool) : method lv_dsc dsc_call :=
  λ this, assign this "round_start" (MInt (if rounded then 1 else 0));;
          ret this.

Definition round_end (rounded : bool) : method lv_dsc dsc_call :=
  λ this, assign this "round_end" (MInt (if rounded then 1 else 0));;
          ret this.

Definition rounded (rounded : bool) : method lv_dsc dsc_call :=
  λ this, assign this "round_start" (MInt (if rounded then 1 else 0));;
          assign this "round_end" (MInt (if rounded then 1 else 0));;
          ret this.

Definition raw_end (raw : bool) : method lv_dsc dsc_call :=
  λ this, assign this "raw_end" (MInt (if raw then 1 else 0));;
          ret this.

(** One invocation of a setter, with its arguments. *)
Inductive mutator : Type :=
| P1 (x y : Z)
| P1_1 (pt : lv_point_precise_t)
| P2 (x y : Z)
| P2_1 (pt : lv_point_precise_t)
| Points (x1 y1 x2 y2 : Z)
| Color (c : lv_color_t)
| Width (w : Z)
| Opa (o : Z)
| Dash (dash_width gap : Z)
| Dash_width (w : Z)
| Dash_gap (g : Z)
| Round_start (rounded : bool)
| Round_end (rounded : bool)
| Rounded (rounded : bool)
| Raw_end (raw : bool).

Definition invoke (m : mutator) : method lv_dsc dsc_call :=
  match m with
  | P1 a1 a2 => p1 a1 a2
  | P1_1 a1 => p1_1 a1
  | P2 a1 a2 => p2 a1 a2
  | P2_1 a1 => p2_1 a1
  | Points a1 a2 a3 a4 => points a1 a2 a3 a4
  | Color a1 => color a1
  | Width a1 => width a1
  | Opa a1 => opa a1
  | Dash a1 a2 => dash a1 a2
  | Dash_width a1 => dash_width a1
  | Dash_gap a1 => dash_gap a1
  | Round_start a1 => round_start a1
  | Round_end a1 => round_end a1
  | Rounded a1 => rounded a1
  | Raw_end a1 => raw_end a1
  end.

End WithEngine.
End LineDsc.

(** *** class ArcDsc *)

Module ArcDsc.

Section WithEngine.
Context `{DscEngine}.

(** [ArcDsc()]. *)
Definition ctor (this : Z) : M lv_dsc dsc_call unit :=
  construct this ∅;;
  dsc_engine this (lv_draw_arc_dsc_init this).

(** [ArcDsc(lv_obj_t* obj, lv_part_t part)]: initialize from an object's
    styles. *)
Definition ctor_obj (this : Z) (obj : ptr) (part : Z)
    : M lv_dsc dsc_call unit :=
  construct this ∅;;
  dsc_engine this (lv_draw_arc_dsc_init this);;
  dsc_engine this (lv_obj_init_draw_arc_dsc obj part this).

(** [get()] points to the record. *)
Definition get (this : Z) : M lv_dsc dsc_call lv_dsc := load this.

Definition center (x y : Z) : method lv_dsc dsc_call :=
  λ this, assign this "center.x" (MInt x);;
          assign this "center.y" (MInt y);;
          ret this.

Definition center_1 (pt : lv_point_t) : method lv_dsc dsc_call :=
  λ this, assign this "center.x" (MInt (point_x pt));;
          assign this "center.y" (MInt (point_y pt));;
          ret this.

Definition radius (r : Z) : method lv_dsc dsc_call :=
  λ this, assign this "radius" (MInt (uint16 r));;
          ret this.

Definition start_angle (angle : Z) : method lv_dsc dsc_call :=
  λ this, assign this "start_angle" (MInt angle);;
          ret this.

Definition end_angle (angle : Z) : method lv_dsc dsc_call :=
  λ this, assign this "end_angle" (MInt angle);;
          ret this.

Definition angles (start end_ : Z) : method lv_dsc dsc_call :=
  λ this, assign this "start_angle" (MInt start);;
          assign this "end_angle" (MInt end_);;
          ret this.

Definition color (c : lv_color_t) : method lv_dsc dsc_call :=
  λ this, assign this "color" (MColor c);;
          ret this.

Definition width (w : Z) : method lv_dsc dsc_call :=
  λ this, assign this "width" (MInt w);;
          ret this.

Definition opa (o : Z) : method lv_dsc dsc_call :=
  λ this, assign this "opa" (MInt o);;
          ret this.

Definition rounded (r : bool) : method lv_dsc dsc_call :=
  λ this, assign this "rounded" (MInt (if r then 1 else 0));;
          ret this.

Definition img_src (src : ptr) : method lv_dsc dsc_call :=
  λ this, assign this "img_src" (MPtr src);;
          ret this.

(** One invocation of a setter, with its arguments. *)
Inductive mutator : Type :=
| Center (x y : Z)
| Center_1 (pt : lv_point_t)
| Radius (r : Z)
| Start_angle (angle : Z)
| End_angle (angle : Z)
| Angles (start end_ : Z)
| Color (c : lv_color_t)
| Width (w : Z)
| Opa (o : Z)
| Rounded (r : bool)
| Img_src (src : ptr).

Definition invoke (m : mutator) : method lv_dsc dsc_call :=
  match m with
  | Center a1 a2 => center a1 a2
  | Center_1 a1 => center_1 a1
  | Radius a1 => radius a1
  | Start_angle a1 => start_angle a1
  | End_angle a1 => end_angle a1
  | Angles a1 a2 => angles a1 a2
  | Color a1 => color a1
  | Width a1 => width a1
  | Opa a1 => opa a1
  | Rounded a1 => rounded a1
  | Img_src a1 => img_src a1
  end.

End WithEngine.
End ArcDsc.

(** *** class TriangleDsc *)

Module TriangleDsc.

Section WithEngine.
Context `{DscEngine}.

(** [TriangleDsc()]. *)
Definition ctor (this : Z) : M lv_dsc dsc_call unit :=
  construct this ∅;;
  dsc_engine this (lv_draw_triangle_dsc_init this).

(** [get()] points to the record. *)
Definition get (this : Z) : M lv_dsc dsc_call lv_dsc := load this.

Definition points (x1 y1 x2 y2 x3 y3 : Z) : method lv_dsc dsc_call :=
  λ this, assign this "p[0].x" (MInt x1);;
          assign this "p[0].y" (MInt y1);;
          assign this "p[1].x" (MInt x2);;
          assign this "p[1].y" (MInt y2);;
          assign this "p[2].x" (MInt x3);;
          assign this "p[2].y" (MInt y3);;
          ret this.

Definition p1 (x y : Z) : method lv_dsc dsc_call :=
  λ this, assign this "p[0].x" (MInt x);;
          assign this "p[0].y" (MInt y);;
          ret this.

Definition p2 (x y : Z) : method lv_dsc dsc_call :=
  λ this, assign this "p[1].x" (MInt x);;
          assign this "p[1].y" (MInt y);;
          ret this.

Definition p3 (x y : Z) : method lv_dsc dsc_call :=
  λ this, assign this "p[2].x" (MInt x);;
          assign this "p[2].y" (MInt y);;
          ret this.

Definition color (c : lv_color_t) : method lv_dsc dsc_call :=
  λ this, assign this "color" (MColor c);;
          ret this.

Definition opa (o : Z) : method lv_dsc dsc_call :=
  λ this, assign this "opa" (MInt o);;
          ret this.

Definition grad (g : lv_grad_dsc_t) : method lv_dsc dsc_call :=
  λ this, assign this "grad" (MGrad g);;
          ret this.

(** One invocation of a setter, with its arguments. *)
Inductive mutator : Type :=
| Points (x1 y1 x2 y2 x3 y3 : Z)
| P1 (x y : Z)
| P2 (x y : Z)
| P3 (x y : Z)
| Color (c : lv_color_t)
| Opa (o : Z)
| Grad (g : lv_grad_dsc_t).

Definition invoke (m : mutator) : method lv_dsc dsc_call :=
  match m with
  | Points a1 a2 a3 a4 a5 a6 => points a1 a2 a3 a4 a5 a6
  | P1 a1 a2 => p1 a1 a2
  | P2 a1 a2 => p2 a1 a2
  | P3 a1 a2 => p3 a1 a2
  | Color a1 => color a1
  | Opa a1 => opa a1
  | Grad a1 => grad a1
  end.

End WithEngine.
End TriangleDsc.

(** *** class ImageDsc *)

Module ImageDsc.

Section WithEngine.
Context `{DscEngine}.

(** [ImageDsc()]. *)
Definition ctor (this : Z) : M lv_dsc dsc_call unit :=
  construct this ∅;;
  dsc_engine this (lv_draw_image_dsc_init this).

(** [ImageDsc(lv_obj_t* obj, lv_part_t part)]: initialize from an object's
    styles. *)
Definition ctor_obj (this : Z) (obj : ptr) (part : Z)
    : M lv_dsc dsc_call unit :=
  construct this ∅;;
  dsc_engine this (lv_draw_image_dsc_init this);;
  dsc_engine this (lv_obj_init_draw_image_dsc obj part this).

(** [get()] points to the record. *)
Definition get (this : Z) : M lv_dsc dsc_call lv_dsc := load this.

Definition src (s : ptr) : method lv_dsc dsc_call :=
  λ this, assign this "src" (MPtr s);;
          ret this.

Definition rotation (r : Z) : method lv_dsc dsc_call :=
  λ this, assign this "rotation" (MInt r);;
          ret this.

Definition scale (x y : Z) : method lv_dsc dsc_call :=
  λ this, assign this "scale_x" (MInt x);;
          assign this "scale_y" (MInt y);;
          ret this.

Definition scale_1 (s : Z) : method lv_dsc dsc_call :=
  λ this, assign this "scale_x" (MInt s);;
          assign this "scale_y" (MInt s);;
          ret this.

Definition skew (x y : Z) : method lv_dsc dsc_call :=
  λ this, assign this "skew_x" (MInt x);;
          assign this "skew_y" (MInt y);;
          ret this.

Definition pivot (x y : Z) : method lv_dsc dsc_call :=
  λ this, assign this "pivot.x" (MInt x);;
          assign this "pivot.y" (MInt y);;
          ret this.

Definition opa (o : Z) : method lv_dsc dsc_call :=
  λ this, assign this "opa" (MInt o);;
          ret this.

Definition recolor (c : lv_color_t) (o : Z) : method lv_dsc dsc_call :=
  λ this, assign this "recolor" (MColor c);;
          assign this "recolor_opa" (MInt o);;
          ret this.

Definition blend_mode (m : Z) : method lv_dsc dsc_call :=
  λ this, assign this "blend_mode" (MInt m);;
          ret this.

Definition clip_radius (r : Z) : method lv_dsc dsc_call :=
  λ this, assign this "clip_radius" (MInt r);;
          ret this.

Definition antialias (aa : bool) : method lv_dsc dsc_call :=
  λ this, assign this "antialias" (MInt (if aa then 1 else 0));;
          ret this.

Definition tile (t : bool) : method lv_dsc dsc_call :=
  λ this, assign this "tile" (MInt (if t then 1 else 0));;
          ret this.

Definition bitmap_mask (mask : ptr) : method lv_dsc dsc_call :=
  λ this, assign this "bitmap_mask_src" (MPtr mask);;
          ret this.

Definition image_area (area : lv_area_t) : method lv_dsc dsc_call :=
  λ this, assign this "image_area" (MArea area);;
          ret this.

(** One invocation of a setter, with its arguments. *)
Inductive mutator : Type :=
| Src (s : ptr)
| Rotation (r : Z)
| Scale (x y : Z)
| Scale_1 (s : Z)
| Skew (x y : Z)
| Pivot (x y : Z)
| Opa (o : Z)
| Recolor (c : lv_color_t) (o : Z)
| Blend_mode (m : Z)
| Clip_radius (r : Z)
| Antialias (aa : bool)
| Tile (t : bool)
| Bitmap_mask (mask : ptr)
| Image_area (area : lv_area_t).

Definition invoke (m : mutator) : method lv_dsc dsc_call :=
  match m with
  | Src a1 => src a1
  | Rotation a1 => rotation a1
  | Scale a1 a2 => scale a1 a2
  | Scale_1 a1 => scale_1 a1
  | Skew a1 a2 => skew a1 a2
  | Pivot a1 a2 => pivot a1 a2
  | Opa a1 => opa a1
  | Recolor a1 a2 => recolor a1 a2
  | Blend_mode a1 => blend_mode a1
  | Clip_radius a1 => clip_radius a1
  | Antialias a1 => antialias a1
  | Tile a1 => tile a1
  | Bitmap_mask a1 => bitmap_mask a1
  | Image_area a1 => image_area a1
  end.

End WithEngine.
End ImageDsc.

(** *** class LabelDsc *)

Module LabelDsc.

Section WithEngine.
Context `{DscEngine}.

(** [LV_DRAW_LABEL_NO_TXT_SEL] of [lvgl.h]. *)
Variable LV_DRAW_LABEL_NO_TXT_SEL : Z.

(** [LabelDsc()]. *)
Definition ctor (this : Z) : M lv_dsc dsc_call unit :=
  construct this ∅;;
  dsc_engine this (lv_draw_label_dsc_init this).

(** [LabelDsc(lv_obj_t* obj, lv_part_t part)]: initialize from an object's
    styles. *)
Definition ctor_obj (this : Z) (obj : ptr) (part : Z)
    : M lv_dsc dsc_call unit :=
  construct this ∅;;
  dsc_engine this (lv_draw_label_dsc_init this);;
  dsc_engine this (lv_obj_init_draw_label_dsc obj part this).

(** [get()] points to the record. *)
Definition get (this : Z) : M lv_dsc dsc_call lv_dsc := load this.

Definition text (t : ptr) : method lv_dsc dsc_call :=
  λ this, assign this "text" (MPtr t);;
          ret this.

Definition text_length (len : Z) : method lv_dsc dsc_call :=
  λ this, assign this "text_length" (MInt len);;
          ret this.

Definition text_static (s : bool) : method lv_dsc dsc_call :=
  λ this, assign this "text_static" (MInt (if s then 1 else 0));;
          ret this.

Definition font (f : ptr) : method lv_dsc dsc_call :=
  λ this, assign this "font" (MPtr f);;
          ret this.

Definition color (c : lv_color_t) : method lv_dsc dsc_call :=
  λ this, assign this "color" (MColor c);;
          ret this.

Definition opa (o : Z) : method lv_dsc dsc_call :=
  λ this, assign this "opa" (MInt o);;
          ret this.

Definition line_space (s : Z) : method lv_dsc dsc_call :=
  λ this, assign this "line_space" (MInt s);;
          ret this.

Definition letter_space (s : Z) : method lv_dsc dsc_call :=
  λ this, assign this "letter_space" (MInt s);;
          ret this.

Definition ofs (x y : Z) : method lv_dsc dsc_call :=
  λ this, assign this "ofs_x" (MInt x);;
          assign this "ofs_y" (MInt y);;
          ret this.

Definition rotation (r : Z) : method lv_dsc dsc_call :=
  λ this, assign this "rotation" (MInt r);;
          ret this.

Definition align (a : Z) : method lv_dsc dsc_call :=
  λ this, assign this "align" (MInt a);;
          ret this.

Definition bidi_dir (d : Z) : method lv_dsc dsc_call :=
  λ this, assign this "bidi_dir" (MInt d);;
          ret this.

Definition decor (d : Z) : method lv_dsc dsc_call :=
  λ this, assign this "decor" (MInt d);;
          ret this.

Definition selection (start end_ : Z) : method lv_dsc dsc_call :=
  λ this, assign this "sel_start" (MInt start);;
          assign this "sel_end" (MInt end_);;
          ret this.

Definition sel_color (text_color bg_color : lv_color_t) : method lv_dsc dsc_call :=
  λ this, assign this "sel_color" (MColor text_color);;
          assign this "sel_bg_color" (MColor bg_color);;
          ret this.

Definition no_selection : method lv_dsc dsc_call :=
  λ this, assign this "sel_start" (MInt LV_DRAW_LABEL_NO_TXT_SEL);;
          assign this "sel_end" (MInt LV_DRAW_LABEL_NO_TXT_SEL);;
          ret this.

Definition outline (color : lv_color_t) (width opacity : Z) : method lv_dsc dsc_call :=
  λ this, assign this "outline_stroke_color" (MColor color);;
          assign this "outline_stroke_width" (MInt width);;
          assign this "outline_stroke_opa" (MInt opacity);;
          ret this.

Definition flag (f : Z) : method lv_dsc dsc_call :=
  λ this, assign this "flag" (MInt f);;
          ret this.

(** One invocation of a setter, with its arguments. *)
Inductive mutator : Type :=
| Text (t : ptr)
| Text_length (len : Z)
| Text_static (s : bool)
| Font (f : ptr)
| Color (c : lv_color_t)
| Opa (o : Z)
| Line_space (s : Z)
| Letter_space (s : Z)
| Ofs (x y : Z)
| Rotation (r : Z)
| Align (a : Z)
| Bidi_dir (d : Z)
| Decor (d : Z)
| Selection (start end_ : Z)
| Sel_color (text_color bg_color : lv_color_t)
| No_selection
| Outline (color : lv_color_t) (width opacity : Z)
| Flag (f : Z).

Definition invoke (m : mutator) : method lv_dsc dsc_call :=
  match m with
  | Text a1 => text a1
  | Text_length a1 => text_length a1
  | Text_static a1 => text_static a1
  | Font a1 => font a1
  | Color a1 => color a1
  | Opa a1 => opa a1
  | Line_space a1 => line_space a1
  | Letter_space a1 => letter_space a1
  | Ofs a1 a2 => ofs a1 a2
  | Rotation a1 => rotation a1
  | Align a1 => align a1
  | Bidi_dir a1 => bidi_dir a1
  | Decor a1 => decor a1
  | Selection a1 a2 => selection a1 a2
  | Sel_color a1 a2 => sel_color a1 a2
  | No_selection => no_selection
  | Outline a1 a2 a3 => outline a1 a2 a3
  | Flag a1 => flag a1
  end.

End WithEngine.
End LabelDsc.

(** *** class LetterDsc *)

Module LetterDsc.

Section WithEngine.
Context `{DscEngine}.

(** [LetterDsc()]. *)
Definition ctor (this : Z) : M lv_dsc dsc_call unit :=
  construct this ∅;;
  dsc_engine this (lv_draw_letter_dsc_init this).

(** [get()] points to the record. *)
Definition get (this : Z) : M lv_dsc dsc_call lv_dsc := load this.

Definition unicode (u : Z) : method lv_dsc dsc_call :=
  λ this, assign this "unicode" (MInt u);;
          ret this.

Definition font (f : ptr) : method lv_dsc dsc_call :=
  λ this, assign this "font" (MPtr f);;
          ret this.

Definition color (c : lv_color_t) : method lv_dsc dsc_call :=
  λ this, assign this "color" (MColor c);;
          ret this.

Definition opa (o : Z) : method lv_dsc dsc_call :=
  λ this, assign this "opa" (MInt o);;
          ret this.

Definition rotation (r : Z) : method lv_dsc dsc_call :=
  λ this, assign this "rotation" (MInt r);;
          ret this.

Definition scale (x y : Z) : method lv_dsc dsc_call :=
  λ this, assign this "scale_x" (MInt x);;
          assign this "scale_y" (MInt y);;
          ret this.

Definition scale_1 (s : Z) : method lv_dsc dsc_call :=
  λ this, assign this "scale_x" (MInt s);;
          assign this "scale_y" (MInt s);;
          ret this.

Definition skew (x y : Z) : method lv_dsc dsc_call :=
  λ this, assign this "skew_x" (MInt x);;
          assign this "skew_y" (MInt y);;
          ret this.

Definition pivot (x y : Z) : method lv_dsc dsc_call :=
  λ this, assign this "pivot.x" (MInt x);;
          assign this "pivot.y" (MInt y);;
          ret this.

Definition decor (d : Z) : method lv_dsc dsc_call :=
  λ this, assign this "decor" (MInt d);;
          ret this.

Definition blend_mode (m : Z) : method lv_dsc dsc_call :=
  λ this, assign this "blend_mode" (MInt m);;
          ret this.

Definition outline (color : lv_color_t) (width opacity : Z) : method lv_dsc dsc_call :=
  λ this, assign this "outline_stroke_color" (MColor color);;
          assign this "outline_stroke_width" (MInt width);;
          assign this "outline_stroke_opa" (MInt opacity);;
          ret this.

(** One invocation of a setter, with its arguments. *)
Inductive mutator : Type :=
| Unicode (u : Z)
| Font (f : ptr)
| Color (c : lv_color_t)
| Opa (o : Z)
| Rotation (r : Z)
| Scale (x y : Z)
| Scale_1 (s : Z)
| Skew (x y : Z)
| Pivot (x y : Z)
| Decor (d : Z)
| Blend_mode (m : Z)
| Outline (color : lv_color_t) (width opacity : Z).

Definition invoke (m : mutator) : method lv_dsc dsc_call :=
  match m with
  | Unicode a1 => unicode a1
  | Font a1 => font a1
  | Color a1 => color a1
  | Opa a1 => opa a1
  | Rotation a1 => rotation a1
  | Scale a1 a2 => scale a1 a2
  | Scale_1 a1 => scale_1 a1
  | Skew a1 a2 => skew a1 a2
  | Pivot a1 a2 => pivot a1 a2
  | Decor a1 => decor a1
  | Blend_mode a1 => blend_mode a1
  | Outline a1 a2 a3 => outline a1 a2 a3
  end.

End WithEngine.
End LetterDsc.

(** ** The draw pipeline: namespace draw of draw/draw_rect.hpp,
    draw_line.hpp, draw_arc.hpp, draw_triangle.hpp, draw_image.hpp,
    draw_label.hpp, and widgets/canvas.hpp *)

(** The descriptor records of [lvgl.h].  [FillDsc], [BorderDsc], ... each
    hold one of them as their only data member [m_dsc], and [get()] returns
    its address; the draw functions below are given what it points to.
    They do not look into it, whatever its representation. *)
Class DrawDescriptors : Type := {
  lv_draw_fill_dsc_t : Type;
  lv_draw_border_dsc_t : Type;
  lv_draw_box_shadow_dsc_t : Type;
  lv_draw_rect_dsc_t : Type;
  lv_draw_line_dsc_t : Type;
  lv_draw_arc_dsc_t : Type;
  lv_draw_triangle_dsc_t : Type;
  lv_draw_image_dsc_t : Type;
  lv_draw_label_dsc_t : Type
}.

Module Draw.
Section WithDescriptors.
Context `{DrawDescriptors}.

Inductive draw_call : Type :=
| lv_canvas_init_layer (canvas layer : ptr)
| lv_canvas_finish_layer (canvas layer : ptr)
| lv_draw_fill (layer : ptr) (dsc : lv_draw_fill_dsc_t) (coords : lv_area_t)
| lv_draw_border (layer : ptr) (dsc : lv_draw_border_dsc_t)
    (coords : lv_area_t)
| lv_draw_box_shadow (layer : ptr) (dsc : lv_draw_box_shadow_dsc_t)
    (coords : lv_area_t)
| lv_draw_rect (layer : ptr) (dsc : lv_draw_rect_dsc_t) (coords : lv_area_t)
| lv_draw_line (layer : ptr) (dsc : lv_draw_line_dsc_t)
| lv_draw_arc (layer : ptr) (dsc : lv_draw_arc_dsc_t)
| lv_draw_triangle (layer : ptr) (dsc : lv_draw_triangle_dsc_t)
| lv_draw_image (layer : ptr) (dsc : lv_draw_image_dsc_t)
    (coords : lv_area_t)
| lv_draw_label (layer : ptr) (dsc : lv_draw_label_dsc_t)
    (coords : lv_area_t).

(** *** namespace draw: the draw functions that take a descriptor *)

Definition fill (layer : ptr) (dsc : lv_draw_fill_dsc_t)
    (coords : lv_area_t) : M ptr draw_call unit :=
  call (lv_draw_fill layer dsc coords).

Definition border (layer : ptr) (dsc : lv_draw_border_dsc_t)
    (coords : lv_area_t) : M ptr draw_call unit :=
  call (lv_draw_border layer dsc coords).

Definition box_shadow (layer : ptr) (dsc : lv_draw_box_shadow_dsc_t)
    (coords : lv_area_t) : M ptr draw_call unit :=
  call (lv_draw_box_shadow layer dsc coords).

Definition rect (layer : ptr) (dsc : lv_draw_rect_dsc_t)
    (coords : lv_area_t) : M ptr draw_call unit :=
  call (lv_draw_rect layer dsc coords).

Definition line (layer : ptr) (dsc : lv_draw_line_dsc_t)
    : M ptr draw_call unit :=
  call (lv_draw_line layer dsc).

Definition arc (layer : ptr) (dsc : lv_draw_arc_dsc_t)
    : M ptr draw_call unit :=
  call (lv_draw_arc layer dsc).

Definition triangle (layer : ptr) (dsc : lv_draw_triangle_dsc_t)
    : M ptr draw_call unit :=
  call (lv_draw_triangle layer dsc).

Definition image (layer : ptr) (dsc : lv_draw_image_dsc_t)
    (coords : lv_area_t) : M ptr draw_call unit :=
  call (lv_draw_image layer dsc coords).

Definition label (layer : ptr) (dsc : lv_draw_label_dsc_t)
    (coords : lv_area_t) : M ptr draw_call unit :=
  call (lv_draw_label layer dsc coords).

End WithDescriptors.
End Draw.

(** *** widgets/canvas.hpp, class Canvas: [init_layer] and [finish_layer]

    A canvas is an [ObjectView]: one pointer, [m_obj].  The overloads that
    take a [Layer&] pass [layer.get()], the address of the layer wrapper's
    only data member; the conversion of a [Layer] to [lv_layer_t*], which
    a draw function applies to a wrapper it is given, returns the same
    address. *)

Module Canvas.
Section WithDescriptors.
Context `{DrawDescriptors}.
Import Draw.

Definition Layer_get (layer : Z) : ptr := layer.

(** [Layer::operator lv_layer_t*()] of draw/layer.hpp. *)
Definition Layer_to_ptr (layer : Z) : ptr := layer.

Definition init_layer (this : Z) (layer : ptr) : M ptr draw_call unit :=
  m_obj ← load this;
  call (lv_canvas_init_layer m_obj layer).

Definition init_layer_L (this : Z) (layer : Z) : M ptr draw_call unit :=
  m_obj ← load this;
  call (lv_canvas_init_layer m_obj (Layer_get layer)).

Definition finish_layer (this : Z) (layer : ptr) : M ptr draw_call unit :=
  m_obj ← load this;
  call (lv_canvas_finish_layer m_obj layer).

Definition finish_layer_L (this : Z) (layer : Z) : M ptr draw_call unit :=
  m_obj ← load this;
  call (lv_canvas_finish_layer m_obj (Layer_get layer)).

End WithDescriptors.
End Canvas.

(** *** A drawing session *)

Module Pipeline.
Section WithDescriptors.
Context `{DrawDescriptors}.
Import Draw.

(** One submission: a draw function, the descriptor and, where the
    function takes one, the target area. *)
Inductive submission : Type :=
| Fill (dsc : lv_draw_fill_dsc_t) (coords : lv_area_t)
| Border (dsc : lv_draw_border_dsc_t) (coords : lv_area_t)
| Box_shadow (dsc : lv_draw_box_shadow_dsc_t) (coords : lv_area_t)
| Rect (dsc : lv_draw_rect_dsc_t) (coords : lv_area_t)
| Line (dsc : lv_draw_line_dsc_t)
| Arc (dsc : lv_draw_arc_dsc_t)
| Triangle (dsc : lv_draw_triangle_dsc_t)
| Image (dsc : lv_draw_image_dsc_t) (coords : lv_area_t)
| Label (dsc : lv_draw_label_dsc_t) (coords : lv_area_t).

Definition submit (layer : ptr) (s : submission) : M ptr draw_call unit :=
  match s with
  | Fill dsc coords => fill layer dsc coords
  | Border dsc coords => border layer dsc coords
  | Box_shadow dsc coords => box_shadow layer dsc coords
  | Rect dsc coords => rect layer dsc coords
  | Line dsc => line layer dsc
  | Arc dsc => arc layer dsc
  | Triangle dsc => triangle layer dsc
  | Image dsc coords => image layer dsc coords
  | Label dsc coords => label layer dsc coords
  end.

Fixpoint submit_all (layer : ptr) (ss : list submission)
    : M ptr draw_call unit :=
  match ss with
  | [] => ret tt
  | s :: ss' => submit layer s;; submit_all layer ss'
  end.

(** A drawing session on a canvas: bind the layer, submit the
    descriptors, finalize. *)
Definition session (canvas : Z) (layer : ptr) (ss : list submission)
    : M ptr draw_call unit :=
  Canvas.init_layer canvas layer;;
  submit_all layer ss;;
  Canvas.finish_layer canvas layer.

(** The session as draw/layer.hpp and draw/draw.hpp write it, on a
    [Layer] wrapper: [canvas.init_layer(layer)] and
    [canvas.finish_layer(layer)] are the overloads that take a [Layer&],
    and each [draw::f(layer, ...)] is given the wrapper converted to
    [lv_layer_t*]. *)
Definition session_L (canvas : Z) (layer : Z) (ss : list submission)
    : M ptr draw_call unit :=
  Canvas.init_layer_L canvas layer;;
  submit_all (Canvas.Layer_to_ptr layer) ss;;
  Canvas.finish_layer_L canvas layer.

(** The engine call that carries a submission to a layer. *)
Definition draw_call_of (layer : ptr) (s : submission) : draw_call :=
  match s with
  | Fill dsc coords => lv_draw_fill layer dsc coords
  | Border dsc coords => lv_draw_border layer dsc coords
  | Box_shadow dsc coords => lv_draw_box_shadow layer dsc coords
  | Rect dsc coords => lv_draw_rect layer dsc coords
  | Line dsc => lv_draw_line layer dsc
  | Arc dsc => lv_draw_arc layer dsc
  | Triangle dsc => lv_draw_triangle layer dsc
  | Image dsc coords => lv_draw_image layer dsc coords
  | Label dsc coords => lv_draw_label layer dsc coords
  end.

(** Modelled from the spec: the engine behind the draw calls is not part
    of the repository.  This is the mock of sections 4.4 and 8 of the
    specification: binding a layer leaves it with no pending task, each
    draw call builds one task from the descriptor and the target area and
    appends it to the pending tasks of its layer, and finalizing a layer
    hands its pending tasks to the dispatcher in the order they were
    appended.  A task is recorded as the submission it was built from. *)
Record mock_engine : Type :=
  Mock { pending : list (ptr * submission); dispatched : list submission }.

(** Modelled from the spec: the task a draw call builds, and the layer it
    is appended to. *)
Definition task_of_call (c : draw_call) : option (ptr * submission) :=
  match c with
  | lv_canvas_init_layer _ _ | lv_canvas_finish_layer _ _ => None
  | lv_draw_fill l dsc coords => Some (l, Fill dsc coords)
  | lv_draw_border l dsc coords => Some (l, Border dsc coords)
  | lv_draw_box_shadow l dsc coords => Some (l, Box_shadow dsc coords)
  | lv_draw_rect l dsc coords => Some (l, Rect dsc coords)
  | lv_draw_line l dsc => Some (l, Line dsc)
  | lv_draw_arc l dsc => Some (l, Arc dsc)
  | lv_draw_triangle l dsc => Some (l, Triangle dsc)
  | lv_draw_image l dsc coords => Some (l, Image dsc coords)
  | lv_draw_label l dsc coords => Some (l, Label dsc coords)
  end.

(** Modelled from the spec: is the pending task [t] a task of layer [l]? *)
Definition on_layer (l : ptr) (t : ptr * submission) : bool := t.1 =? l.

(** Modelled from the spec: what the mock makes of one engine call. *)
Definition mock_step (e : mock_engine) (c : draw_call) : mock_engine :=
  match c with
  | lv_canvas_init_layer _ l =>
      Mock (List.filter (λ t, negb (on_layer l t)) (pending e)) (dispatched e)
  | lv_canvas_finish_layer _ l =>
      Mock (List.filter (λ t, negb (on_layer l t)) (pending e))
           (dispatched e ++ map snd (List.filter (on_layer l) (pending e)))
  | _ =>
      match task_of_call c with
      | Some t => Mock (pending e ++ [t]) (dispatched e)
      | None => e
      end
  end.

(** Modelled from the spec: the mock after the calls of a trace, starting
    with nothing pending and nothing dispatched. *)
Definition mock_run (tr : list draw_call) : mock_engine :=
  fold_left mock_step tr (Mock [] []).

End WithDescriptors.
End Pipeline.

(** ** Engines to run examples on *)

(** An engine that answers every call with success and a non-null
    pointer. *)
Definition obliging_engine (C : Type) : Engine C :=
  {| answer_ptr := λ _ _, 4096;
     answer_int := λ _ _, 0;
     answer_bool := λ _ _, true;
     answer_result := λ _ _, LV_RESULT_OK |}.

(** An engine that rejects every request. *)
Definition refusing_engine (C : Type) : Engine C :=
  {| answer_ptr := λ _ _, nullptr;
     answer_int := λ _ _, 0;
     answer_bool := λ _ _, false;
     answer_result := λ _ _, LV_RESULT_INVALID |}.

(** Values for the constants, in the manner of LVGL 9: special coordinates
    carry bit 29, flags are single bits. *)
Definition lvgl_conf : LvConf :=
  {| LV_SIZE_CONTENT := Z.lor 2001 (Z.shiftl 1 29);
     LV_PCT := λ x, Z.lor x (Z.shiftl 1 29);
     LV_OBJ_FLAG_HIDDEN := Z.shiftl 1 0;
     LV_OBJ_FLAG_CLICKABLE := Z.shiftl 1 1;
     LV_OBJ_FLAG_SCROLLABLE := Z.shiftl 1 4;
     LV_LAYOUT_NONE := 0 |}.

(** The descriptor records as the builders hold them. *)
Definition built_descriptors : DrawDescriptors :=
  {| lv_draw_fill_dsc_t := lv_dsc;
     lv_draw_border_dsc_t := lv_dsc;
     lv_draw_box_shadow_dsc_t := lv_dsc;
     lv_draw_rect_dsc_t := lv_dsc;
     lv_draw_line_dsc_t := lv_dsc;
     lv_draw_arc_dsc_t := lv_dsc;
     lv_draw_triangle_dsc_t := lv_dsc;
     lv_draw_image_dsc_t := lv_dsc;
     lv_draw_label_dsc_t := lv_dsc |}.

(** ** What a completed move must have achieved

    [moved] is the state right after a move from the handle at [src] into
    the handle at [dst]; [p] is what the source held before it. *)

(** For the pointer handles ([Object], [DrawBuf]; [free] is the engine call
    that releases the resource): the destination holds [p], the source
    holds the null pointer, destroying the source makes no engine call, and
    destroying the destination after it releases [p], once. *)
Definition handle_moved {C : Type} (dtor : Z → M ptr C unit) (free : ptr → C)
    (moved : state ptr C) (dst src : Z) (p : ptr) : Prop :=
  heap moved !! dst = Some p ∧
  heap moved !! src = Some nullptr ∧
  ∃ st', dtor src moved = Some (tt, st') ∧
         trace st' = trace moved ∧
         heap st' !! dst = Some p ∧
  ∃ st'', dtor dst st' = Some (tt, st'') ∧
          trace st'' = trace moved ++ (if non_null p then [free p] else []).

(** For [Style]: the destination holds the record [s] the source held, the
    source holds the record [lv_style_init] made of it, the destructor of
    the source resets that record and not [s], and the destructor of the
    destination resets [s], once. *)
Definition style_moved `{StyleEngine} (moved : state lv_style_t style_call)
    (dst src : Z) (s : lv_style_t) : Prop :=
  heap moved !! dst = Some s ∧
  heap moved !! src = Some (lv_style_effect lv_style_init s) ∧
  ∃ st', Style.dtor src moved = Some (tt, st') ∧
         trace st' = trace moved ++ [StyleCall src lv_style_reset] ∧
         heap st' !! dst = Some s ∧
  ∃ st'', Style.dtor dst st' = Some (tt, st'') ∧
          trace st'' = trace st' ++ [StyleCall dst lv_style_reset].

(** Every chain of mutators on a live object runs to the end and returns a
    reference to the object it started on. *)
Definition chains_return_this {V C Mu : Type} (invoke : Mu → method V C)
    : Prop :=
  ∀ (ms : list Mu) (st : state V C) (this : Z),
    is_Some (heap st !! this) →
    ∃ st', chain invoke ms this st = Some (this, st').

(** The [DrawBuf] objects a chain of [DrawBuf] mutators reads: the sources
    of its [copy] calls. *)
Definition sources_alive (h : gmap Z ptr) (ms : list DrawBuf.mutator) : Prop :=
  Forall (λ m, match m with
               | DrawBuf.MCopy _ src _ => is_Some (h !! src)
               | _ => True
               end) ms.

(** ** draw/primitives.hpp

    Coordinates and sizes are [int32_t]. *)

Module Primitives.

(** The [int32_t] that an arithmetic result is stored as, in two's
    complement.  Signed overflow is undefined in C++: what is proved of
    these functions is stated for arguments on which none occurs. *)
Definition int32 (z : Z) : Z := (z + 2 ^ 31) mod 2 ^ 32 - 2 ^ 31.

(** The values of [int32_t]. *)
Definition is_int32 (z : Z) : Prop := - 2 ^ 31 ≤ z < 2 ^ 31.

(** Create an [lv_area_t] from coordinates. *)
Definition area (x1 y1 x2 y2 : Z) : lv_area_t := lv_area x1 y1 x2 y2.

(** Create an [lv_area_t] from position and size:
    [{x, y, x + w - 1, y + h - 1}]. *)
Definition area_from_size (x y w h : Z) : lv_area_t :=
  lv_area x y (int32 (int32 (x + w) - 1)) (int32 (int32 (y + h) - 1)).

Definition point (x y : Z) : lv_point_t := lv_point x y.

Definition point_precise (x y : Z) : lv_point_precise_t := lv_point x y.

(** [a.x2 - a.x1 + 1]. *)
Definition area_width (a : lv_area_t) : Z := int32 (int32 (x2 a - x1 a) + 1).

(** [a.y2 - a.y1 + 1]. *)
Definition area_height (a : lv_area_t) : Z := int32 (int32 (y2 a - y1 a) + 1).

(** [x >= a.x1 && x <= a.x2 && y >= a.y1 && y <= a.y2]. *)
Definition area_contains (a : lv_area_t) (x y : Z) : bool :=
  (x >=? x1 a) && (x <=? x2 a) && (y >=? y1 a) && (y <=? y2 a).

(** A position [x] and a size [w] that is not negative, for which
    [x + w - 1] is computed without overflow. *)
Definition spans (x w : Z) : Prop :=
  is_int32 x ∧ is_int32 w ∧ 0 ≤ w ∧ is_int32 (x + w) ∧ is_int32 (x + w - 1).

(** The coordinates of an area are [int32_t], and its extent
    [x2 - x1 + 1], [y2 - y1 + 1] is computed without overflow. *)
Definition measurable (a : lv_area_t) : Prop :=
  is_int32 (x1 a) ∧ is_int32 (x2 a) ∧ is_int32 (y1 a) ∧ is_int32 (y2 a) ∧
  is_int32 (x2 a - x1 a) ∧ is_int32 (x2 a - x1 a + 1) ∧
  is_int32 (y2 a - y1 a) ∧ is_int32 (y2 a - y1 a + 1).

End Primitives.

(** ** core/object.hpp: what an [Object] owns over its lifetime *)

Module ObjectOwner.

(** The member functions that change what an [Object] owns: [reset(obj)],
    [release()], and [del()], which it inherits from [ObjectView]. *)
Inductive operation : Type :=
| Reset_ (obj : ptr)
| Release
| Del.

(** One call on the [Object] at [this]; the result is what the call hands
    back to the caller: the pointer [release()] returns. *)
Definition invoke (op : operation) (this : Z) : M ptr obj_call (list ptr) :=
  match op with
  | Reset_ obj => Object.reset this obj;; ret []
  | Release => p ← Object.release this; ret [p]
  | Del => ObjectView.del this;; ret []
  end.

Fixpoint invoke_all (ops : list operation) (this : Z)
    : M ptr obj_call (list ptr) :=
  match ops with
  | [] => ret []
  | op :: ops' => ps ← invoke op this;
                  qs ← invoke_all ops' this;
                  ret (ps ++ qs)
  end.

(** The life of an [Object] that adopts [obj]:
    [{ Object o(Object::adopt, obj); ops }]. *)
Definition life (this : Z) (obj : ptr) (ops : list operation)
    : M ptr obj_call (list ptr) :=
  Object.ctor_adopt this obj;;
  released ← invoke_all ops this;
  Object.dtor this;;
  ret released.

(** The life of an [Object] that creates its widget:
    [{ Object o(parent); ops }]. *)
Definition scope `{Engine obj_call} (this : Z) (parent : ptr)
    (ops : list operation) : M ptr obj_call (list ptr) :=
  Object.ctor this parent;;
  released ← invoke_all ops this;
  Object.dtor this;;
  ret released.

(** [Object dst(Object::adopt, src.release())]. *)
Definition adopt_released (dst src : Z) : M ptr obj_call unit :=
  p ← Object.release src;
  Object.ctor_adopt dst p.

(** [dst.reset(src.release())]. *)
Definition reset_to_released (src : Z) : method ptr obj_call :=
  λ dst, p ← Object.release src;
         Object.reset dst p;;
         ret dst.

(** The pointers an [Object] is given after its construction: the
    arguments of its [reset] calls. *)
Definition adopted (ops : list operation) : list ptr :=
  omap (λ op, match op with Reset_ obj => Some obj | _ => None end) ops.

End ObjectOwner.

(** ** [std::swap] on the move-only handles

    [std::swap(a, b)] of [<utility>] is
    [T tmp(std::move(a)); a = std::move(b); b = std::move(tmp);], after
    which [tmp] is destroyed.  [tmp] is the address of the temporary. *)

Module Swap.

Definition Object_swap (tmp a b : Z) : M ptr obj_call unit :=
  Object.move_ctor tmp a;;
  Object.move_assign b a;;
  Object.move_assign tmp b;;
  Object.dtor tmp.

Definition DrawBuf_swap (tmp a b : Z) : M ptr draw_buf_call unit :=
  DrawBuf.move_ctor tmp a;;
  DrawBuf.move_assign b a;;
  DrawBuf.move_assign tmp b;;
  DrawBuf.dtor tmp.

Definition Style_swap `{StyleEngine} (tmp a b : Z)
    : M lv_style_t style_call unit :=
  Style.move_ctor tmp a;;
  Style.move_assign b a;;
  Style.move_assign tmp b;;
  Style.dtor tmp.

End Swap.

(** ** The widget an engine call is made on

    Every [lv_obj_*] function takes the widget as its first argument
    ([lv_obj_create]: the parent). *)

Definition obj_call_target (c : obj_call) : ptr :=
  match c with
  | lv_obj_create o => o
  | lv_obj_delete o => o
  | lv_obj_clean o => o
  | lv_obj_get_user_data o => o
  | lv_obj_has_state o _ => o
  | lv_obj_has_flag o _ => o
  | lv_obj_get_parent o => o
  | lv_obj_get_child_count o => o
  | lv_obj_get_child o _ => o
  | lv_obj_set_size o _ _ => o
  | lv_obj_set_width o _ => o
  | lv_obj_set_height o _ => o
  | lv_obj_set_pos o _ _ => o
  | lv_obj_set_x o _ => o
  | lv_obj_set_y o _ => o
  | lv_obj_align o _ _ _ => o
  | lv_obj_set_align o _ => o
  | lv_obj_center o => o
  | lv_obj_set_flex_grow o _ => o
  | lv_obj_add_flag o _ => o
  | lv_obj_remove_flag o _ => o
  | lv_obj_add_state o _ => o
  | lv_obj_remove_state o _ => o
  | lv_obj_set_user_data o _ => o
  | lv_obj_set_scroll_dir o _ => o
  | lv_obj_set_scrollbar_mode o _ => o
  | lv_obj_set_scroll_snap_x o _ => o
  | lv_obj_set_scroll_snap_y o _ => o
  | lv_obj_set_ext_click_area o _ => o
  | lv_obj_set_flex_flow o _ => o
  | lv_obj_set_flex_align o _ _ _ => o
  | lv_obj_invalidate o => o
  | lv_obj_update_layout o => o
  | lv_obj_set_layout o _ => o
  | lv_obj_set_parent o _ => o
  | lv_obj_add_style o _ _ => o
  | lv_obj_remove_style o _ _ => o
  | lv_obj_remove_style_all o => o
  | lv_obj_scroll_by o _ _ _ => o
  | lv_obj_scroll_to o _ _ _ => o
  | lv_obj_update_snap o _ => o
  | lv_obj_move_foreground o => o
  | lv_obj_move_background o => o
  | lv_obj_align_to o _ _ _ _ => o
  | lv_obj_refresh_ext_draw_size o => o
  | lv_obj_set_style_bg_color o _ _ => o
  | lv_obj_set_style_bg_opa o _ _ => o
  | lv_obj_set_style_bg_grad_color o _ _ => o
  | lv_obj_set_style_bg_grad_dir o _ _ => o
  | lv_obj_set_style_bg_grad_stop o _ _ => o
  | lv_obj_set_style_bg_grad o _ _ => o
  | lv_obj_set_style_bitmap_mask_src o _ _ => o
  | lv_obj_set_style_bg_image_src o _ _ => o
  | lv_obj_set_style_border_color o _ _ => o
  | lv_obj_set_style_border_width o _ _ => o
  | lv_obj_set_style_pad_all o _ _ => o
  | lv_obj_set_style_pad_top o _ _ => o
  | lv_obj_set_style_pad_bottom o _ _ => o
  | lv_obj_set_style_pad_left o _ _ => o
  | lv_obj_set_style_pad_right o _ _ => o
  | lv_obj_set_style_pad_row o _ _ => o
  | lv_obj_set_style_pad_column o _ _ => o
  | lv_obj_set_style_radius o _ _ => o
  | lv_obj_set_style_opa o _ _ => o
  | lv_obj_set_style_blend_mode o _ _ => o
  | lv_obj_set_style_text_color o _ _ => o
  | lv_obj_set_style_text_font o _ _ => o
  | lv_obj_set_style_text_align o _ _ => o
  | lv_obj_set_style_text_line_space o _ _ => o
  | lv_obj_set_style_image_opa o _ _ => o
  | lv_obj_set_style_image_recolor o _ _ => o
  | lv_obj_set_style_image_recolor_opa o _ _ => o
  | lv_obj_set_style_arc_width o _ _ => o
  | lv_obj_set_style_arc_color o _ _ => o
  | lv_obj_set_style_arc_opa o _ _ => o
  | lv_obj_set_style_arc_rounded o _ _ => o
  | lv_obj_set_style_line_width o _ _ => o
  | lv_obj_set_style_line_color o _ _ => o
  | lv_obj_set_style_line_opa o _ _ => o
  | lv_obj_set_style_line_rounded o _ _ => o
  | lv_obj_set_style_transform_pivot_x o _ _ => o
  | lv_obj_set_style_transform_pivot_y o _ _ => o
  | lv_obj_set_style_transform_rotation o _ _ => o
  | lv_obj_set_style_transform_scale o _ _ => o
  | lv_obj_set_style_transform_scale_x o _ _ => o
  | lv_obj_set_style_transform_scale_y o _ _ => o
  | lv_obj_set_style_transform_width o _ _ => o
  | lv_obj_set_style_transform_height o _ _ => o
  | lv_obj_set_style_border_side o _ _ => o
  | lv_obj_set_style_border_opa o _ _ => o
  | lv_obj_set_style_min_width o _ _ => o
  | lv_obj_set_style_max_width o _ _ => o
  | lv_obj_set_style_min_height o _ _ => o
  | lv_obj_set_style_max_height o _ _ => o
  | lv_obj_set_style_margin_top o _ _ => o
  | lv_obj_set_style_margin_bottom o _ _ => o
  | lv_obj_set_style_margin_left o _ _ => o
  | lv_obj_set_style_margin_right o _ _ => o
  | lv_obj_set_style_anim_duration o _ _ => o
  | lv_obj_set_style_flex_main_place o _ _ => o
  | lv_obj_set_style_flex_cross_place o _ _ => o
  | lv_obj_set_style_flex_track_place o _ _ => o
  | lv_obj_set_style_width o _ _ => o
  | lv_obj_set_style_height o _ _ => o
  | lv_obj_set_style_translate_x o _ _ => o
  | lv_obj_set_style_translate_y o _ _ => o
  end.

(** The number of engine calls one invocation of a mixin mutator makes. *)
Definition Widget_forwarded_calls (m : Widget.mutator) : nat :=
  match m with
  | Widget.Object_ _ => 1
  | Widget.Style_ m' => StyleMixin.forwarded_calls m'
  end.

(** ** draw/draw_buf.hpp: the life of a [DrawBuf] *)

Module DrawBufLife.
Section WithEngine.
Context `{Engine draw_buf_call} `{DrawBufMemory}.

(** The member functions of [ops] called one after the other on the
    [DrawBuf] at [this]; the result is what each returned. *)
Fixpoint invoke_all (ops : list DrawBuf.operation) (this : Z)
    : M ptr draw_buf_call (list value) :=
  match ops with
  | [] => ret []
  | op :: ops' => v ← DrawBuf.invoke op this;
                  vs ← invoke_all ops' this;
                  ret (v :: vs)
  end.

(** [{ DrawBuf buf(w, h, cf, stride); ops }]. *)
Definition life (this : Z) (w h cf stride : Z) (ops : list DrawBuf.operation)
    : M ptr draw_buf_call (list value) :=
  DrawBuf.ctor this w h cf stride;;
  vs ← invoke_all ops this;
  DrawBuf.dtor this;;
  ret vs.

(** [{ DrawBuf buf(DrawBuf::wrap, p); ops }]. *)
Definition wrap_life (this : Z) (p : ptr) (ops : list DrawBuf.operation)
    : M ptr draw_buf_call (list value) :=
  DrawBuf.ctor_wrap this p;;
  vs ← invoke_all ops this;
  DrawBuf.dtor this;;
  ret vs.


End WithEngine.

(** The engine calls that create or destroy a buffer. *)
Definition allocates_or_frees (c : draw_buf_call) : bool :=
  match c with
  | lv_draw_buf_create _ _ _ _ | lv_draw_buf_create_ex _ _ _ _ _
  | lv_draw_buf_dup _ | lv_draw_buf_dup_ex _ _ | lv_draw_buf_destroy _ => true
  | _ => false
  end.

(** The [DrawBuf] objects a sequence of member function calls reads: the
    sources of its [copy] calls. *)
Definition sources_alive (h : gmap Z ptr) (ops : list DrawBuf.operation)
    : Prop :=
  Forall (λ op, match op with
                | DrawBuf.Copy _ src _ => is_Some (h !! src)
                | _ => True
                end) ops.

End DrawBufLife.

(** ** core/style.hpp: the life of a [Style] *)

Module StyleLife.
Section WithEngine.
Context `{StyleEngine}.

(** [{ Style s; s.m1(..).m2(..)...; }]. *)
Definition life (this : Z) (uninit : lv_style_t) (ms : list Style.mutator)
    : M lv_style_t style_call unit :=
  Style.ctor this uninit;;
  chain Style.invoke ms this;;
  Style.dtor this.

(** [Style dst(std::move(src)); src.m1(..).m2(..)...;]: the moved-from
    style is used again. *)
Definition reuse_after_move (dst src : Z) (ms : list Style.mutator)
    : M lv_style_t style_call Z :=
  Style.move_ctor dst src;;
  chain Style.invoke ms src.

End WithEngine.
End StyleLife.

(** ** The descriptor builders: what a setter assigns *)

(** The record after the assignments [m_dsc.path = v] of [kvs], in
    order. *)
Definition assigns (d : lv_dsc) (kvs : list (string * member)) : lv_dsc :=
  foldl (λ d kv, <[kv.1 := kv.2]> d) d kvs.

(** The members a setter assigns: those it sets in a value-initialised
    record. *)
Definition written {Mu : Type} (invoke : Mu → method lv_dsc dsc_call) (m : Mu)
    : gset string :=
  match invoke m 0 (State {[ 0 := ∅ ]} []) with
  | Some (_, st) => match heap st !! 0 with
                    | Some d => dom d
                    | None => ∅
                    end
  | None => ∅
  end.

(** Every setter of a builder is a fixed sequence of assignments to the
    record: it reads nothing, and does nothing else. *)
Definition assigning {Mu : Type} (invoke : Mu → method lv_dsc dsc_call)
    : Prop :=
  ∀ m, ∃ kvs, ∀ (st : state lv_dsc dsc_call) (this : Z),
    invoke m this st =
      match heap st !! this with
      | Some d => Some (this, State (<[this := assigns d kvs]> (heap st))
                                    (trace st))
      | None => None
      end.

(** A setter makes no engine call, leaves every other object alone, and in
    the record it sets the members it assigns and no others. *)
Definition setters_only_assign {Mu : Type}
    (invoke : Mu → method lv_dsc dsc_call) : Prop :=
  ∀ (m : Mu) (st : state lv_dsc dsc_call) (this : Z) (d : lv_dsc),
    heap st !! this = Some d →
    ∃ d', invoke m this st =
            Some (this, State (<[this := d']> (heap st)) (trace st)) ∧
          dom d' = dom d ∪ written invoke m ∧
          ∀ k, k ∉ written invoke m → d' !! k = d !! k.

(** Two setters that assign no member in common can be called in either
    order. *)
Definition setters_commute {Mu : Type}
    (invoke : Mu → method lv_dsc dsc_call) : Prop :=
  ∀ (m1 m2 : Mu) (st : state lv_dsc dsc_call) (this : Z),
    written invoke m1 ## written invoke m2 →
    chain invoke [m1; m2] this st = chain invoke [m2; m1] this st.

(** A setter undoes every earlier setter that assigns only members it
    assigns itself. *)
Definition last_setter_wins {Mu : Type}
    (invoke : Mu → method lv_dsc dsc_call) : Prop :=
  ∀ (m1 m2 : Mu) (st : state lv_dsc dsc_call) (this : Z),
    written invoke m1 ⊆ written invoke m2 →
    chain invoke [m1; m2] this st = chain invoke [m2] this st.

(** ** widgets/box.hpp: class Box

    A [Box] is an [ObjectView] with the two mixins; it declares member
    functions of its own with the names of some of [ObjectMixin]'s. *)

Module Box.
Section WithConf.
Context `{LvConf} `{Engine obj_call}.

(** [static Box create(lv_obj_t* parent)]: the box is returned by value,
    constructed at [result]. *)
Definition create (result : Z) (parent : ptr) : M ptr obj_call unit :=
  construct result nullptr;;
  obj ← ask answer_ptr (lv_obj_create parent);
  store result obj;;
  m_obj ← load result;
  call (lv_obj_remove_flag m_obj LV_OBJ_FLAG_SCROLLABLE).

Definition size (w h : Z) : method ptr obj_call :=
  λ this, m_obj ← load this; call (lv_obj_set_size m_obj w h);;
          ret this.

Definition width (w : Z) : method ptr obj_call :=
  λ this, m_obj ← load this; call (lv_obj_set_width m_obj w);;
          ret this.

Definition height (h : Z) : method ptr obj_call :=
  λ this, m_obj ← load this; call (lv_obj_set_height m_obj h);;
          ret this.

Definition fill_width : method ptr obj_call :=
  λ this, m_obj ← load this; call (lv_obj_set_width m_obj (LV_PCT 100));;
          ret this.

Definition fill_height : method ptr obj_call :=
  λ this, m_obj ← load this; call (lv_obj_set_height m_obj (LV_PCT 100));;
          ret this.

Definition fill : method ptr obj_call :=
  λ this, m_obj ← load this;
          call (lv_obj_set_size m_obj (LV_PCT 100) (LV_PCT 100));;
          ret this.

Definition pos (x y : Z) : method ptr obj_call :=
  λ this, m_obj ← load this; call (lv_obj_set_pos m_obj x y);;
          ret this.

Definition x (x : Z) : method ptr obj_call :=
  λ this, m_obj ← load this; call (lv_obj_set_x m_obj x);;
          ret this.

Definition y (y : Z) : method ptr obj_call :=
  λ this, m_obj ← load this; call (lv_obj_set_y m_obj y);;
          ret this.

Definition center : method ptr obj_call :=
  λ this, m_obj ← load this; call (lv_obj_center m_obj);;
          ret this.

Definition align (align x_ofs y_ofs : Z) : method ptr obj_call :=
  λ this, m_obj ← load this; call (lv_obj_align m_obj align x_ofs y_ofs);;
          ret this.

Definition align_1 (align : Z) : method ptr obj_call :=
  λ this, m_obj ← load this; call (lv_obj_set_align m_obj align);;
          ret this.

Definition grow (g : Z) : method ptr obj_call :=
  λ this, m_obj ← load this; call (lv_obj_set_flex_grow m_obj (uint8 g));;
          ret this.

Definition scrollable (v : bool) : method ptr obj_call :=
  λ this, m_obj ← load this;
          (if v then call (lv_obj_add_flag m_obj LV_OBJ_FLAG_SCROLLABLE)
           else call (lv_obj_remove_flag m_obj LV_OBJ_FLAG_SCROLLABLE));;
          ret this.

(** One invocation of a member function [Box] declares itself. *)
Inductive mutator : Type :=
| Size (w h : Z)
| Width (w : Z)
| Height (h : Z)
| Fill_width
| Fill_height
| Fill
| Pos (x y : Z)
| X (x : Z)
| Y (y : Z)
| Center
| Align (align x_ofs y_ofs : Z)
| Align_1 (align : Z)
| Grow (g : Z)
| Scrollable (v : bool).

Definition invoke (m : mutator) : method ptr obj_call :=
  match m with
  | Size a1 a2 => size a1 a2
  | Width a1 => width a1
  | Height a1 => height a1
  | Fill_width => fill_width
  | Fill_height => fill_height
  | Fill => fill
  | Pos a1 a2 => pos a1 a2
  | X a1 => x a1
  | Y a1 => y a1
  | Center => center
  | Align a1 a2 a3 => align a1 a2 a3
  | Align_1 a1 => align_1 a1
  | Grow a1 => grow a1
  | Scrollable a1 => scrollable a1
  end.

(** The member function of [ObjectMixin<Box>] that a member function of
    [Box] hides. *)
Definition hidden (m : mutator) : ObjectMixin.mutator :=
  match m with
  | Size a1 a2 => ObjectMixin.Size a1 a2
  | Width a1 => ObjectMixin.Width a1
  | Height a1 => ObjectMixin.Height a1
  | Fill_width => ObjectMixin.Fill_width
  | Fill_height => ObjectMixin.Fill_height
  | Fill => ObjectMixin.Fill
  | Pos a1 a2 => ObjectMixin.Pos a1 a2
  | X a1 => ObjectMixin.X a1
  | Y a1 => ObjectMixin.Y a1
  | Center => ObjectMixin.Center
  | Align a1 a2 a3 => ObjectMixin.Align a1 a2 a3
  | Align_1 a1 => ObjectMixin.Align_1 a1
  | Grow a1 => ObjectMixin.Grow a1
  | Scrollable a1 => ObjectMixin.Scrollable a1
  end.

End WithConf.
End Box.

(** ** widgets/button.hpp: class Button

    A [Button] is an [ObjectView] with the mixins.  Besides the [lv_obj_*]
    functions of [obj_call] it calls the engine functions below.  The
    variadic template [text_fmt] is left out. *)

Inductive button_call : Type :=
| ObjCall (c : obj_call)
| lv_button_create (parent : ptr)
| lv_label_create (parent : ptr)
| lv_label_set_text (obj : ptr) (text : string)
| lv_obj_check_type (obj class_p : ptr)
| lv_obj_set_style_shadow_width (obj : ptr) (width sel : Z)
| lv_obj_set_style_shadow_color (obj : ptr) (color : lv_color_t) (sel : Z).

Module Button.
Section WithEngine.
Context `{Engine button_call}.

(** Enumerators and objects of [lvgl.h]: [LV_OBJ_FLAG_CHECKABLE],
    [LV_STATE_CHECKED], [LV_STATE_DISABLED], [LV_STATE_PRESSED],
    [LV_RADIUS_CIRCLE], the address of [lv_label_class], and the color
    [lv_color_hex] makes of a number. *)
Variables LV_OBJ_FLAG_CHECKABLE LV_STATE_CHECKED LV_STATE_DISABLED : Z.
Variables LV_STATE_PRESSED LV_RADIUS_CIRCLE : Z.
Variable lv_label_class : ptr.
Variable lv_color_hex : Z → lv_color_t.

Local Abbreviation M' := (M ptr button_call).

(** [static Button create(lv_obj_t* parent)]: the button is returned by
    value, constructed at [result]. *)
Definition create (result : Z) (parent : ptr) : M' unit :=
  obj ← ask answer_ptr (lv_button_create parent);
  construct result obj.

(** Add a centered text label to the button. *)
Definition text (txt : string) : method ptr button_call :=
  λ this, m_obj ← load this;
          lbl ← ask answer_ptr (lv_label_create m_obj);
          call (lv_label_set_text lbl txt);;
          call (ObjCall (lv_obj_center lbl));;
          ret this.

(** Get the button's label (first child label): a [Label] by value, the
    pointer it is made of. *)
Definition get_label (this : Z) : M' ptr :=
  m_obj ← load this;
  ask answer_ptr (ObjCall (lv_obj_get_child m_obj 0)).

(** Set label text (finds first label child). *)
Definition set_text (txt : string) : method ptr button_call :=
  λ this, m_obj ← load this;
          child ← ask answer_ptr (ObjCall (lv_obj_get_child m_obj 0));
          (if non_null child then
             is_label ← (ask answer_bool
                           (lv_obj_check_type child lv_label_class) : M' bool);
             if (is_label : bool) then call (lv_label_set_text child txt) else ret tt
           else ret tt);;
          ret this.

(** Set checkable state (toggle button). *)
Definition checkable (enable : bool) : method ptr button_call :=
  λ this, m_obj ← load this;
          (if enable
           then call (ObjCall (lv_obj_add_flag m_obj LV_OBJ_FLAG_CHECKABLE))
           else call (ObjCall (lv_obj_remove_flag m_obj LV_OBJ_FLAG_CHECKABLE)));;
          ret this.

(** [bool checked() const]: check if button is checked. *)
Definition get_checked (this : Z) : M' bool :=
  m_obj ← load this;
  ask answer_bool (ObjCall (lv_obj_has_state m_obj LV_STATE_CHECKED)).

(** [Button& checked(bool v)]: set checked state. *)
Definition checked (v : bool) : method ptr button_call :=
  λ this, m_obj ← load this;
          (if v
           then call (ObjCall (lv_obj_add_state m_obj LV_STATE_CHECKED))
           else call (ObjCall (lv_obj_remove_state m_obj LV_STATE_CHECKED)));;
          ret this.

(** Toggle checked state. *)
Definition toggle : method ptr button_call :=
  λ this, m_obj ← load this;
          is_checked ← ask answer_bool
                         (ObjCall (lv_obj_has_state m_obj LV_STATE_CHECKED));
          (if (is_checked : bool)
           then call (ObjCall (lv_obj_remove_state m_obj LV_STATE_CHECKED))
           else call (ObjCall (lv_obj_add_state m_obj LV_STATE_CHECKED)));;
          ret this.

(** Disable the button. *)
Definition disabled (v : bool) : method ptr button_call :=
  λ this, m_obj ← load this;
          (if v
           then call (ObjCall (lv_obj_add_state m_obj LV_STATE_DISABLED))
           else call (ObjCall (lv_obj_remove_state m_obj LV_STATE_DISABLED)));;
          ret this.

(** Enable the button: [return disabled(!v)]. *)
Definition enabled (v : bool) : method ptr button_call :=
  λ this, disabled (negb v) this.

Definition bg (color : lv_color_t) : method ptr button_call :=
  λ this, m_obj ← load this;
          call (ObjCall (lv_obj_set_style_bg_color m_obj color 0));;
          ret this.

Definition bg_pressed (color : lv_color_t) : method ptr button_call :=
  λ this, m_obj ← load this;
          call (ObjCall (lv_obj_set_style_bg_color m_obj color LV_STATE_PRESSED));;
          ret this.

Definition bg_checked (color : lv_color_t) : method ptr button_call :=
  λ this, m_obj ← load this;
          call (ObjCall (lv_obj_set_style_bg_color m_obj color LV_STATE_CHECKED));;
          ret this.

Definition radius (r : Z) : method ptr button_call :=
  λ this, m_obj ← load this;
          call (ObjCall (lv_obj_set_style_radius m_obj r 0));;
          ret this.

(** Make fully rounded (pill shape). *)
Definition pill : method ptr button_call :=
  λ this, m_obj ← load this;
          call (ObjCall (lv_obj_set_style_radius m_obj LV_RADIUS_CIRCLE 0));;
          ret this.

(** [shadow(int32_t width)]: the color is [lv::rgb(0x404040)], that is
    [lv_color_hex(0x404040)]. *)
Definition shadow (width : Z) : method ptr button_call :=
  λ this, m_obj ← load this;
          call (lv_obj_set_style_shadow_width m_obj width 0);;
          call (lv_obj_set_style_shadow_color m_obj (lv_color_hex 0x404040) 0);;
          ret this.

Definition shadow_2 (width : Z) (color : lv_color_t)
    : method ptr button_call :=
  λ this, m_obj ← load this;
          call (lv_obj_set_style_shadow_width m_obj width 0);;
          call (lv_obj_set_style_shadow_color m_obj color 0);;
          ret this.

Definition border (width : Z) (color : lv_color_t) : method ptr button_call :=
  λ this, m_obj ← load this;
          call (ObjCall (lv_obj_set_style_border_width m_obj width 0));;
          call (ObjCall (lv_obj_set_style_border_color m_obj color 0));;
          ret this.

(** [text_button(parent, text)]:
    [Button::create(parent).text(text)]. *)
Definition text_button (result : Z) (parent : ptr) (txt : string) : M' Z :=
  create result parent;;
  text txt result.

(** [toggle_button(parent, text)]:
    [Button::create(parent).text(text).checkable()]. *)
Definition toggle_button (result : Z) (parent : ptr) (txt : string) : M' Z :=
  create result parent;;
  r ← text txt result;
  checkable true r.

End WithEngine.
End Button.

(** ** namespace draw: the convenience overloads of draw_line.hpp,
    draw_arc.hpp, draw_triangle.hpp, draw_image.hpp and draw_label.hpp

    Each builds a descriptor in a local variable and submits it.  They run
    on the machine of the builders, whose trace here also holds the draw
    calls; a draw call is given the record the builder holds. *)

(** A descriptor engine to run examples on: every call leaves the record
    it is given fully opaque. *)
Definition opaque_dsc_engine : DscEngine :=
  {| dsc_effect := λ _ d, <["opa"%string := MInt 255]> d |}.

Inductive convenience_call : Type :=
| Building (c : dsc_call)
| Drawing (c : @Draw.draw_call built_descriptors).

Module Convenience.
Section WithEngine.
Context `{DscEngine}.

Local Abbreviation M' := (M lv_dsc convenience_call).

(** A constructor or member function of a builder, called from a function
    that also draws: the engine calls it makes go to the common trace. *)
Definition building {A : Type} (m : M lv_dsc dsc_call A) : M' A :=
  λ st, match m (State (heap st) []) with
        | Some (a, st') =>
            Some (a, State (heap st') (trace st ++ (Building <$> trace st')))
        | None => None
        end.

(** [line(layer, x1, y1, x2, y2, color, width)]; [dsc] is the address of
    the local variable [LineDsc dsc], whose lifetime ends with the call. *)
Definition line (dsc : Z) (layer : ptr) (x1 y1 x2 y2 : Z) (color : lv_color_t)
    (width : Z) : M' unit :=
  building (LineDsc.ctor dsc);;
  building (r ← LineDsc.points x1 y1 x2 y2 dsc;
            r ← LineDsc.color color r;
            LineDsc.width width r);;
  m_dsc ← building (LineDsc.get dsc);
  call (Drawing (Draw.lv_draw_line layer m_dsc));;
  destroy dsc.

(** [arc(layer, center_x, center_y, radius, start_angle, end_angle, color,
    width)]; [radius] is a [uint16_t]. *)
Definition arc (dsc : Z) (layer : ptr) (center_x center_y radius : Z)
    (start_angle end_angle : Z) (color : lv_color_t) (width : Z) : M' unit :=
  building (ArcDsc.ctor dsc);;
  building (r ← ArcDsc.center center_x center_y dsc;
            r ← ArcDsc.radius (uint16 radius) r;
            r ← ArcDsc.angles start_angle end_angle r;
            r ← ArcDsc.color color r;
            ArcDsc.width width r);;
  m_dsc ← building (ArcDsc.get dsc);
  call (Drawing (Draw.lv_draw_arc layer m_dsc));;
  destroy dsc.

(** [triangle(layer, x1, y1, x2, y2, x3, y3, color)]. *)
Definition triangle (dsc : Z) (layer : ptr) (x1 y1 x2 y2 x3 y3 : Z)
    (color : lv_color_t) : M' unit :=
  building (TriangleDsc.ctor dsc);;
  building (r ← TriangleDsc.points x1 y1 x2 y2 x3 y3 dsc;
            TriangleDsc.color color r);;
  m_dsc ← building (TriangleDsc.get dsc);
  call (Drawing (Draw.lv_draw_triangle layer m_dsc));;
  destroy dsc.

(** [image(layer, src, coords)]. *)
Definition image (dsc : Z) (layer : ptr) (src : ptr) (coords : lv_area_t)
    : M' unit :=
  building (ImageDsc.ctor dsc);;
  building (ImageDsc.src src dsc);;
  m_dsc ← building (ImageDsc.get dsc);
  call (Drawing (Draw.lv_draw_image layer m_dsc coords));;
  destroy dsc.

(** [label(layer, text, coords, font, color)]: the font is set only if
    one is given. *)
Definition label (dsc : Z) (layer : ptr) (text : ptr) (coords : lv_area_t)
    (font : ptr) (color : lv_color_t) : M' unit :=
  building (LabelDsc.ctor dsc);;
  building (r ← LabelDsc.text text dsc;
            LabelDsc.color color r);;
  (if non_null font then building (LabelDsc.font font dsc);; ret tt
   else ret tt);;
  m_dsc ← building (LabelDsc.get dsc);
  call (Drawing (Draw.lv_draw_label layer m_dsc coords));;
  destroy dsc.

End WithEngine.
End Convenience.

(** * Properties *)

(** Unfold the monad and the primitive operations of the machine. *)
Ltac run :=
  unfold mbind, M_bind, bind, ret, load, store, construct, destroy, call,
    ask, peek; simpl.

(** Resolve the lookups a computation makes, from what is known of the heap. *)
Ltac lookups :=
  repeat (simpl;
          first [ rewrite lookup_insert_eq
                | rewrite lookup_insert_ne by congruence
                | match goal with
                  | Hl : heap ?st !! ?k = _ |- context [heap ?st !! ?k] =>
                      rewrite Hl
                  end ]).

(** Run a method body on a state of which the needed heap entries are
    known, splitting on the [bool] arguments it branches on. *)
Ltac reduce_body :=
  cbv -[lookup insert delete gmap_lookup map_insert map_delete
        gmap_partial_alter Z.eq_dec Z_countable
        stdpp.strings.String.eq_dec stdpp.strings.String.countable
        heap trace app dsc_effect
        lv_style_t lv_style_effect foldl fmap length non_null
        LV_SIZE_CONTENT LV_PCT LV_OBJ_FLAG_HIDDEN LV_OBJ_FLAG_CLICKABLE
        LV_OBJ_FLAG_SCROLLABLE LV_LAYOUT_NONE
        answer_ptr answer_int answer_bool answer_result
        draw_buf_at LV_COLOR_FORMAT_UNKNOWN uint8 uint16];
  cbn [heap trace].

Ltac exec :=
  reduce_body;
  repeat (first
    [ rewrite lookup_insert_eq
    | rewrite lookup_insert_ne by congruence
    | match goal with
      | Hl : heap ?st !! ?k = _ |- context [heap ?st !! ?k] => rewrite Hl
      | |- context [if ?b then _ else _] => is_var b; destruct b
      end ];
    reduce_body).

(** ** core/color.hpp *)

Lemma LV_UDIV255_mul_255 (b : byte) :
  Byte.of_N (Color.LV_UDIV255 (Byte.to_N b * 255) mod 256)%N = Some b.
Proof. destruct b; vm_compute; reflexivity. Qed.

Lemma mix_channel_0 (a b : byte) : Color.mix_channel a b x00 = b.
Proof.
  unfold Color.mix_channel.
  replace (Byte.to_N a * Byte.to_N x00 + Byte.to_N b * (255 - Byte.to_N x00))%N
    with (Byte.to_N b * 255)%N by (simpl Byte.to_N; lia).
  now rewrite LV_UDIV255_mul_255.
Qed.

Lemma mix_channel_255 (a b : byte) : Color.mix_channel a b xff = a.
Proof.
  unfold Color.mix_channel.
  replace (Byte.to_N a * Byte.to_N xff + Byte.to_N b * (255 - Byte.to_N xff))%N
    with (Byte.to_N a * 255)%N by (simpl Byte.to_N; lia).
  now rewrite LV_UDIV255_mul_255.
Qed.

Lemma lvgl_color_mix_0 (c1 c2 : lv_color_t) : Color.lvgl_color_mix c1 c2 x00 = c2.
Proof.
  destruct c1, c2; unfold Color.lvgl_color_mix; simpl.
  now rewrite !mix_channel_0.
Qed.

Lemma lvgl_color_mix_255 (c1 c2 : lv_color_t) :
  Color.lvgl_color_mix c1 c2 xff = c1.
Proof.
  destruct c1, c2; unfold Color.lvgl_color_mix; simpl.
  now rewrite !mix_channel_255.
Qed.

(** C10.  Given the engine's convention for [lv_color_mix] (ratio 0 yields
    its second argument, ratio 255 its first), [lv::color_mix (c1, c2, 0)]
    is [c1] and [lv::color_mix (c1, c2, 255)] is [c2], for all colors: the
    wrapper swaps the two colors to turn the engine's convention into its
    documented one. *)
Theorem color_mix_endpoints
    (lv_color_mix : lv_color_t → lv_color_t → byte → lv_color_t)
    (engine_0 : ∀ a b, lv_color_mix a b x00 = b)
    (engine_255 : ∀ a b, lv_color_mix a b xff = a)
    (c1 c2 : lv_color_t) :
  Color.color_mix lv_color_mix c1 c2 x00 = c1 ∧
  Color.color_mix lv_color_mix c1 c2 xff = c2.
Proof. unfold Color.color_mix. split; [apply engine_0 | apply engine_255]. Qed.

(** The same at the mixing formula of LVGL 9, red and blue. *)
Lemma color_mix_endpoints_witness :
  let red := lv_color x00 x00 xff in
  let blue := lv_color xff x00 x00 in
  Color.color_mix Color.lvgl_color_mix red blue x00 = red ∧
  Color.color_mix Color.lvgl_color_mix red blue xff = blue.
Proof.
  apply (color_mix_endpoints Color.lvgl_color_mix
           lvgl_color_mix_0 lvgl_color_mix_255).
Defined.

Lemma non_null_true (p : ptr) : p ≠ nullptr → non_null p = true.
Proof.
  intros Hp. unfold non_null. apply negb_true_iff. now apply Z.eqb_neq.
Qed.

Lemma non_null_nullptr : non_null nullptr = false.
Proof. reflexivity. Qed.

Lemma del_on_null (st : state ptr obj_call) (this : Z) :
  heap st !! this = Some nullptr → ObjectView.del this st = Some (tt, st).
Proof.
  intros Hthis. unfold ObjectView.del. run. now rewrite Hthis.
Qed.

(** ** core/object.hpp: deletion through a view *)

(** C7.  On a view of a widget [w], the first [del()] makes exactly one
    engine call, [lv_obj_delete(w)], and leaves the handle null; however
    many [del()] calls follow on the same view, none makes an engine call
    and the handle stays null. *)
Theorem del_then_del_is_noop (st : state ptr obj_call) (this : Z) (w : ptr) :
  heap st !! this = Some w →
  w ≠ nullptr →
  let deleted :=
    State (<[this := nullptr]> (heap st)) (trace st ++ [lv_obj_delete w]) in
  ObjectView.del this st = Some (tt, deleted) ∧
  heap deleted !! this = Some nullptr ∧
  ∀ n, ObjectView.del_times n this deleted = Some (tt, deleted).
Proof.
  intros Hthis Hw deleted.
  assert (Hnull : heap deleted !! this = Some nullptr)
    by apply lookup_insert_eq.
  split; [|split; [exact Hnull|]].
  - unfold ObjectView.del. run. rewrite Hthis, (non_null_true w Hw).
    simpl. now rewrite Hthis.
  - induction n as [|n IH]; [reflexivity|].
    simpl. run. fold (ObjectView.del this deleted).
    now rewrite (del_on_null deleted this Hnull).
Qed.

Lemma del_then_del_is_noop_witness :
  let st := State {[ 1 := 42 ]} [] in
  let deleted := State (<[1 := nullptr]> {[ 1 := 42 ]}) [lv_obj_delete 42] in
  ObjectView.del 1 st = Some (tt, deleted) ∧
  heap deleted !! 1 = Some nullptr ∧
  ∀ n, ObjectView.del_times n 1 deleted = Some (tt, deleted).
Proof.
  intros st deleted.
  refine (del_then_del_is_noop st 1 42 _ _).
  - reflexivity.
  - discriminate.
Defined.

(** ** Owning handles: moves *)

(** C9.  Self-move-assignment of an [Object], a [DrawBuf] or a [Style] makes
    no engine call and leaves the object, its resource and everything else
    as they were: the assignment returns a reference to the same object in
    the very same state. *)
Theorem self_move_assign_is_noop :
  (∀ (st : state ptr obj_call) (x : Z),
     Object.move_assign x x st = Some (x, st)) ∧
  (∀ (st : state ptr draw_buf_call) (x : Z),
     DrawBuf.move_assign x x st = Some (x, st)) ∧
  (∀ (E : StyleEngine) (st : state lv_style_t style_call) (x : Z),
     Style.move_assign x x st = Some (x, st)).
Proof.
  repeat split; intros.
  - unfold Object.move_assign. run.
    rewrite bool_decide_eq_false_2 by (intros Hne; now apply Hne). reflexivity.
  - unfold DrawBuf.move_assign. run.
    rewrite bool_decide_eq_false_2 by (intros Hne; now apply Hne). reflexivity.
  - unfold Style.move_assign. run.
    rewrite bool_decide_eq_false_2 by (intros Hne; now apply Hne). reflexivity.
Qed.

Lemma Object_move_ctor_spec (st : state ptr obj_call) (this other : Z) (p : ptr) :
  heap st !! other = Some p → heap st !! this = None →
  Object.move_ctor this other st =
    Some (tt, State (<[other := nullptr]> (<[this := p]> (heap st))) (trace st)).
Proof.
  intros Hother Hthis. unfold Object.move_ctor. run.
  assert (this ≠ other) by congruence.
  now lookups.
Qed.

Lemma Object_dtor_spec (st : state ptr obj_call) (this : Z) (p : ptr) :
  heap st !! this = Some p →
  Object.dtor this st =
    Some (tt, State (delete this (heap st))
                    (trace st ++ if non_null p then [lv_obj_delete p] else [])).
Proof.
  intros Hthis. unfold Object.dtor. run. rewrite Hthis.
  destruct (non_null p); lookups; [reflexivity|].
  now rewrite app_nil_r.
Qed.

Lemma Object_move_assign_spec (st : state ptr obj_call) (this other : Z)
    (q p : ptr) :
  this ≠ other →
  heap st !! this = Some q → heap st !! other = Some p →
  Object.move_assign other this st =
    Some (this,
          State (<[other := nullptr]> (<[this := p]> (heap st)))
                (trace st ++ if non_null q then [lv_obj_delete q] else [])).
Proof.
  intros Hne Hthis Hother. unfold Object.move_assign. run.
  rewrite bool_decide_eq_true_2 by exact Hne.
  rewrite Hthis.
  destruct (non_null q); lookups; [reflexivity|].
  now rewrite app_nil_r.
Qed.

Lemma DrawBuf_dtor_spec (st : state ptr draw_buf_call) (this : Z) (p : ptr) :
  heap st !! this = Some p →
  DrawBuf.dtor this st =
    Some (tt, State (delete this (heap st))
                    (trace st ++ if non_null p then [lv_draw_buf_destroy p]
                                 else [])).
Proof.
  intros Hthis. unfold DrawBuf.dtor. run. rewrite Hthis.
  destruct (non_null p); lookups; [reflexivity|].
  now rewrite app_nil_r.
Qed.

Lemma DrawBuf_move_ctor_spec (st : state ptr draw_buf_call) (this other : Z)
    (p : ptr) :
  heap st !! other = Some p → heap st !! this = None →
  DrawBuf.move_ctor this other st =
    Some (tt, State (<[other := nullptr]> (<[this := p]> (heap st))) (trace st)).
Proof.
  intros Hother Hthis. unfold DrawBuf.move_ctor. run.
  assert (this ≠ other) by congruence.
  now lookups.
Qed.

Lemma DrawBuf_move_assign_spec (st : state ptr draw_buf_call) (this other : Z)
    (q p : ptr) :
  this ≠ other →
  heap st !! this = Some q → heap st !! other = Some p →
  DrawBuf.move_assign other this st =
    Some (this,
          State (<[other := nullptr]> (<[this := p]> (heap st)))
                (trace st ++ if non_null q then [lv_draw_buf_destroy q]
                             else [])).
Proof.
  intros Hne Hthis Hother. unfold DrawBuf.move_assign. run.
  rewrite bool_decide_eq_true_2 by exact Hne.
  rewrite Hthis.
  destruct (non_null q); lookups; [reflexivity|].
  now rewrite app_nil_r.
Qed.

Section StyleMoves.
Context `{StyleEngine}.

Lemma Style_engine_spec (st : state lv_style_t style_call) (p : ptr)
    (f : style_fn) (s : lv_style_t) :
  heap st !! p = Some s →
  Style.engine p f st =
    Some (tt, State (<[p := lv_style_effect f s]> (heap st))
                    (trace st ++ [StyleCall p f])).
Proof. intros Hp. unfold Style.engine. run. now lookups. Qed.

Lemma Style_dtor_spec (st : state lv_style_t style_call) (this : Z)
    (s : lv_style_t) :
  heap st !! this = Some s →
  Style.dtor this st =
    Some (tt, State (delete this (heap st))
                    (trace st ++ [StyleCall this lv_style_reset])).
Proof.
  intros Hthis. unfold Style.dtor, Style.engine. run. lookups.
  now rewrite delete_insert_eq.
Qed.

Lemma Style_move_ctor_spec (st : state lv_style_t style_call)
    (this other : Z) (s : lv_style_t) :
  heap st !! other = Some s → heap st !! this = None →
  Style.move_ctor this other st =
    Some (tt, State (<[other := lv_style_effect lv_style_init s]>
                       (<[this := s]> (heap st)))
                    (trace st ++ [StyleCall other lv_style_init])).
Proof.
  intros Hother Hthis. unfold Style.move_ctor, Style.engine. run.
  assert (this ≠ other) by congruence.
  now lookups.
Qed.

Lemma Style_move_assign_spec (st : state lv_style_t style_call)
    (this other : Z) (t s : lv_style_t) :
  this ≠ other →
  heap st !! this = Some t → heap st !! other = Some s →
  Style.move_assign other this st =
    Some (this,
          State (<[other := lv_style_effect lv_style_init s]>
                   (<[this := s]> (heap st)))
                (trace st ++ [StyleCall this lv_style_reset;
                              StyleCall other lv_style_init])).
Proof.
  intros Hne Hthis Hother. unfold Style.move_assign, Style.engine. run.
  rewrite bool_decide_eq_true_2 by exact Hne.
  lookups. rewrite insert_insert_eq. now rewrite <- app_assoc.
Qed.
End StyleMoves.

Lemma handle_moved_Object (st : state ptr obj_call) (dst src : Z) (p : ptr)
    (tr : list obj_call) :
  dst ≠ src →
  handle_moved Object.dtor lv_obj_delete
    (State (<[src := nullptr]> (<[dst := p]> (heap st))) tr) dst src p.
Proof.
  intros Hne. unfold handle_moved; simpl.
  split; [now rewrite lookup_insert_ne, lookup_insert_eq by congruence|].
  split; [apply lookup_insert_eq|].
  eexists. split; [apply Object_dtor_spec; apply lookup_insert_eq|]. simpl.
  split; [apply app_nil_r|].
  assert (Hdst : delete src (<[src:=nullptr]> (<[dst:=p]> (heap st))) !! dst
                 = Some p).
  { rewrite lookup_delete_ne by congruence.
    now rewrite lookup_insert_ne, lookup_insert_eq by congruence. }
  split; [exact Hdst|].
  eexists. split; [apply Object_dtor_spec; exact Hdst|]. simpl.
  now rewrite app_nil_r.
Qed.

Lemma handle_moved_DrawBuf (st : state ptr draw_buf_call) (dst src : Z)
    (p : ptr) (tr : list draw_buf_call) :
  dst ≠ src →
  handle_moved DrawBuf.dtor lv_draw_buf_destroy
    (State (<[src := nullptr]> (<[dst := p]> (heap st))) tr) dst src p.
Proof.
  intros Hne. unfold handle_moved; simpl.
  split; [now rewrite lookup_insert_ne, lookup_insert_eq by congruence|].
  split; [apply lookup_insert_eq|].
  eexists. split; [apply DrawBuf_dtor_spec; apply lookup_insert_eq|]. simpl.
  split; [apply app_nil_r|].
  assert (Hdst : delete src (<[src:=nullptr]> (<[dst:=p]> (heap st))) !! dst
                 = Some p).
  { rewrite lookup_delete_ne by congruence.
    now rewrite lookup_insert_ne, lookup_insert_eq by congruence. }
  split; [exact Hdst|].
  eexists. split; [apply DrawBuf_dtor_spec; exact Hdst|]. simpl.
  now rewrite app_nil_r.
Qed.

Lemma style_moved_Style `{StyleEngine} (h : gmap Z lv_style_t) (dst src : Z)
    (s : lv_style_t) (tr : list style_call) :
  dst ≠ src →
  style_moved
    (State (<[src := lv_style_effect lv_style_init s]> (<[dst := s]> h)) tr)
    dst src s.
Proof.
  intros Hne. unfold style_moved; simpl.
  split; [now rewrite lookup_insert_ne, lookup_insert_eq by congruence|].
  split; [apply lookup_insert_eq|].
  eexists. split; [eapply Style_dtor_spec; apply lookup_insert_eq|]. simpl.
  split; [reflexivity|].
  assert (Hdst : delete src (<[src:=lv_style_effect lv_style_init s]>
                               (<[dst:=s]> h)) !! dst = Some s).
  { rewrite lookup_delete_ne by congruence.
    now rewrite lookup_insert_ne, lookup_insert_eq by congruence. }
  split; [exact Hdst|].
  eexists. split; [eapply Style_dtor_spec; exact Hdst|]. reflexivity.
Qed.

(** C2.  Move construction and move assignment of [Object], [DrawBuf] and
    [Style] hand the resource of the source over to the destination: the
    destination then holds exactly what the source held, the source is left
    empty (null pointer, freshly initialised style), the destructor of the
    source does not touch the resource, and the destructor of the
    destination releases it once.  Move construction of a pointer handle
    makes no engine call; move assignment first releases what the
    destination held before. *)
Theorem move_hands_over_the_resource :
  (∀ (st : state ptr obj_call) (dst src : Z) (p : ptr),
     heap st !! src = Some p → heap st !! dst = None →
     ∃ moved, Object.move_ctor dst src st = Some (tt, moved) ∧
              trace moved = trace st ∧
              handle_moved Object.dtor lv_obj_delete moved dst src p) ∧
  (∀ (st : state ptr obj_call) (dst src : Z) (q p : ptr),
     dst ≠ src → heap st !! dst = Some q → heap st !! src = Some p →
     ∃ moved, Object.move_assign src dst st = Some (dst, moved) ∧
              trace moved =
                trace st ++ (if non_null q then [lv_obj_delete q] else []) ∧
              handle_moved Object.dtor lv_obj_delete moved dst src p) ∧
  (∀ (st : state ptr draw_buf_call) (dst src : Z) (p : ptr),
     heap st !! src = Some p → heap st !! dst = None →
     ∃ moved, DrawBuf.move_ctor dst src st = Some (tt, moved) ∧
              trace moved = trace st ∧
              handle_moved DrawBuf.dtor lv_draw_buf_destroy moved dst src p) ∧
  (∀ (st : state ptr draw_buf_call) (dst src : Z) (q p : ptr),
     dst ≠ src → heap st !! dst = Some q → heap st !! src = Some p →
     ∃ moved, DrawBuf.move_assign src dst st = Some (dst, moved) ∧
              trace moved =
                trace st ++ (if non_null q then [lv_draw_buf_destroy q]
                             else []) ∧
              handle_moved DrawBuf.dtor lv_draw_buf_destroy moved dst src p) ∧
  (∀ (E : StyleEngine) (st : state lv_style_t style_call) (dst src : Z)
     (s : lv_style_t),
     heap st !! src = Some s → heap st !! dst = None →
     ∃ moved, Style.move_ctor dst src st = Some (tt, moved) ∧
              trace moved = trace st ++ [StyleCall src lv_style_init] ∧
              style_moved moved dst src s) ∧
  (∀ (E : StyleEngine) (st : state lv_style_t style_call) (dst src : Z)
     (t s : lv_style_t),
     dst ≠ src → heap st !! dst = Some t → heap st !! src = Some s →
     ∃ moved, Style.move_assign src dst st = Some (dst, moved) ∧
              trace moved = trace st ++ [StyleCall dst lv_style_reset;
                                         StyleCall src lv_style_init] ∧
              style_moved moved dst src s).
Proof.
  repeat apply conj.
  - intros st dst src p Hsrc Hdst. eexists.
    split; [apply Object_move_ctor_spec; eassumption|].
    split; [reflexivity|]. apply handle_moved_Object. congruence.
  - intros st dst src q p Hne Hdst Hsrc. eexists.
    split; [apply Object_move_assign_spec; eassumption|].
    split; [reflexivity|]. now apply handle_moved_Object.
  - intros st dst src p Hsrc Hdst. eexists.
    split; [apply DrawBuf_move_ctor_spec; eassumption|].
    split; [reflexivity|]. apply handle_moved_DrawBuf. congruence.
  - intros st dst src q p Hne Hdst Hsrc. eexists.
    split; [apply DrawBuf_move_assign_spec; eassumption|].
    split; [reflexivity|]. now apply handle_moved_DrawBuf.
  - intros E st dst src s Hsrc Hdst. eexists.
    split; [apply Style_move_ctor_spec; eassumption|].
    split; [reflexivity|]. apply style_moved_Style. congruence.
  - intros E st dst src t s Hne Hdst Hsrc. eexists.
    split; [eapply Style_move_assign_spec; eassumption|].
    split; [reflexivity|]. now apply style_moved_Style.
Qed.

Lemma move_hands_over_the_resource_witness :
  (∃ moved, Object.move_ctor 1 2 (State {[ 2 := 42 ]} []) = Some (tt, moved) ∧
            trace moved = [] ∧
            handle_moved Object.dtor lv_obj_delete moved 1 2 42) ∧
  (∃ moved, DrawBuf.move_assign 2 1 (State {[ 1 := 7; 2 := 42 ]} [])
              = Some (1, moved) ∧
            trace moved = [lv_draw_buf_destroy 7] ∧
            handle_moved DrawBuf.dtor lv_draw_buf_destroy moved 1 2 42) ∧
  (∃ moved, @Style.move_ctor recording_style_engine 1 2
              (State {[ 2 := [lv_style_set_radius 3] ]} [])
              = Some (tt, moved) ∧
            trace moved = [StyleCall 2 lv_style_init] ∧
            @style_moved recording_style_engine moved 1 2
              [lv_style_set_radius 3]).
Proof.
  destruct move_hands_over_the_resource as (Hoc & _ & _ & Hba & Hsc & _).
  split; [|split].
  - apply (Hoc (State {[ 2 := 42 ]} []) 1 2 42); reflexivity.
  - apply (Hba (State {[ 1 := 7; 2 := 42 ]} []) 1 2 7 42);
      [discriminate | reflexivity | reflexivity].
  - apply (Hsc recording_style_engine
             (State {[ 2 := [lv_style_set_radius 3] ]} []) 1 2
             [lv_style_set_radius 3]); reflexivity.
Defined.

(** ** The fluent mutators *)

Section Forwarding.
Context `{LvConf} `{StyleEngine}.

Lemma ObjectMixin_forwards (m : ObjectMixin.mutator)
    (st : state ptr obj_call) (this : Z) (o : ptr) :
  heap st !! this = Some o →
  ∃ c, ObjectMixin.invoke m this st =
         Some (this, State (heap st) (trace st ++ [c])).
Proof. intros Hthis. destruct m; exec; eexists; reflexivity. Qed.

Lemma StyleMixin_forwards (m : StyleMixin.mutator)
    (st : state ptr obj_call) (this : Z) (o : ptr) :
  heap st !! this = Some o →
  ∃ cs, StyleMixin.invoke m this st =
          Some (this, State (heap st) (trace st ++ cs)) ∧
        length cs = StyleMixin.forwarded_calls m.
Proof.
  intros Hthis.
  destruct m; exec; rewrite <- ?app_assoc; eexists;
    (split; [reflexivity|reflexivity]).
Qed.

Lemma Style_forwards (m : Style.mutator)
    (st : state lv_style_t style_call) (this : Z) (s : lv_style_t) :
  heap st !! this = Some s →
  ∃ fs, Style.invoke m this st =
          Some (this,
                State (<[this := foldl (λ s f, lv_style_effect f s) s fs]>
                         (heap st))
                      (trace st ++ (StyleCall this <$> fs))) ∧
        length fs = Style.forwarded_calls m.
Proof.
  intros Hthis.
  destruct m; exec; rewrite ?insert_insert_eq, <- ?app_assoc.
  all: try (now eexists [_]).
  all: try (now eexists [_; _]).
  all: try (now eexists [_; _; _; _]). 
Qed.


End Forwarding.




(** ** Chaining *)

Section Chains.
Context `{LvConf} `{StyleEngine}.

Lemma Widget_invoke_returns_this (m : Widget.mutator)
    (st : state ptr obj_call) (this : Z) (o : ptr) :
  heap st !! this = Some o →
  ∃ cs, Widget.invoke m this st =
          Some (this, State (heap st) (trace st ++ cs)).
Proof.
  intros Hthis. destruct m as [m|m]; simpl.
  - destruct (ObjectMixin_forwards m st this o Hthis) as (c & Hc). eauto.
  - destruct (StyleMixin_forwards m st this o Hthis) as (cs & Hcs & _). eauto.
Qed.

Lemma Widget_chain_returns_this (ms : list Widget.mutator)
    (st : state ptr obj_call) (this : Z) (o : ptr) :
  heap st !! this = Some o →
  ∃ cs, chain Widget.invoke ms this st =
          Some (this, State (heap st) (trace st ++ cs)).
Proof.
  intros Hthis. revert st Hthis.
  induction ms as [|m ms IH]; intros st Hthis; simpl.
  - exists []. unfold ret. now rewrite app_nil_r; destruct st.
  - destruct (Widget_invoke_returns_this m st this o Hthis) as (cs & Hcs).
    unfold mbind, M_bind, bind. rewrite Hcs.
    destruct (IH (State (heap st) (trace st ++ cs)) Hthis) as (cs' & Hcs').
    exists (cs ++ cs'). rewrite Hcs'. simpl. now rewrite app_assoc.
Qed.

Lemma Style_chain_returns_this (ms : list Style.mutator)
    (st : state lv_style_t style_call) (this : Z) (s : lv_style_t) :
  heap st !! this = Some s →
  ∃ s' cs, chain Style.invoke ms this st =
             Some (this, State (<[this := s']> (heap st)) (trace st ++ cs)).
Proof.
  intros Hthis. revert st s Hthis.
  induction ms as [|m ms IH]; intros st s Hthis; simpl.
  - exists s, []. unfold ret. rewrite app_nil_r, insert_id by exact Hthis.
    now destruct st.
  - destruct (Style_forwards m st this s Hthis) as (fs & Hfs & _).
    unfold mbind, M_bind, bind. rewrite Hfs.
    edestruct (IH (State (<[this:=foldl (λ s f, lv_style_effect f s) s fs]>
                            (heap st))
                         (trace st ++ (StyleCall this <$> fs))))
      as (s' & cs' & Hcs'); [apply lookup_insert_eq|].
    rewrite Hcs'. simpl. rewrite insert_insert_eq, <- app_assoc. eauto.
Qed.
End Chains.

Lemma DrawBuf_mutator_returns_this (m : DrawBuf.mutator)
    (st : state ptr draw_buf_call) (this : Z) (b : ptr) :
  heap st !! this = Some b →
  sources_alive (heap st) [m] →
  ∃ cs, DrawBuf.invoke_mutator m this st =
          Some (this, State (heap st) (trace st ++ cs)).
Proof.
  intros Hthis Hsrc. apply Forall_cons_1 in Hsrc as [Hsrc _].
  destruct m; unfold DrawBuf.invoke_mutator.
  5: destruct Hsrc as [sb Hsrc].
  all: exec.
  all: destruct (non_null b); exec.
  all: try (destruct (non_null sb); exec).
  all: try (now eexists [_]).
  all: exists []; rewrite app_nil_r.
  all: now destruct st.
Qed.

Lemma DrawBuf_chain_returns_this (ms : list DrawBuf.mutator)
    (st : state ptr draw_buf_call) (this : Z) (b : ptr) :
  heap st !! this = Some b →
  sources_alive (heap st) ms →
  ∃ cs, chain DrawBuf.invoke_mutator ms this st =
          Some (this, State (heap st) (trace st ++ cs)).
Proof.
  intros Hthis. revert st Hthis.
  induction ms as [|m ms IH]; intros st Hthis Hsrc; simpl.
  - exists []. unfold ret. now rewrite app_nil_r; destruct st.
  - apply Forall_cons_1 in Hsrc as [Hm Hms].
    destruct (DrawBuf_mutator_returns_this m st this b Hthis) as (cs & Hcs);
      [now apply Forall_cons_2|].
    unfold mbind, M_bind, bind. rewrite Hcs.
    destruct (IH (State (heap st) (trace st ++ cs)) Hthis Hms) as (cs' & Hcs').
    exists (cs ++ cs'). rewrite Hcs'. simpl. now rewrite app_assoc.
Qed.

(** A chain returns the object it started on as soon as every mutator
    returns the object it is called on and leaves it alive. *)
Lemma chain_returns_this {V C Mu : Type} (invoke : Mu → method V C) :
  (∀ m st this, is_Some (heap st !! this) →
     ∃ st', invoke m this st = Some (this, st') ∧ is_Some (heap st' !! this)) →
  chains_return_this invoke.
Proof.
  intros Hstep ms. induction ms as [|m ms IH]; intros st this Hthis; simpl.
  - eexists. reflexivity.
  - destruct (Hstep m st this Hthis) as (st1 & Hrun & Hthis1).
    unfold mbind, M_bind, bind. rewrite Hrun. now apply IH.
Qed.

Section Builders.
Context `{DscEngine}.

Ltac builder_step :=
  let m := fresh "m" in let st := fresh "st" in let this := fresh "this" in
  let d := fresh "d" in let Hd := fresh "Hd" in
  intros m st this [d Hd];
  destruct m; exec; rewrite ?insert_insert_eq;
  (eexists; split; [reflexivity|]); cbn [heap];
  rewrite lookup_insert_eq; eauto.

Lemma FillDsc_chains : chains_return_this FillDsc.invoke.
Proof. apply chain_returns_this. builder_step. Qed.

Lemma BorderDsc_chains : chains_return_this BorderDsc.invoke.
Proof. apply chain_returns_this. builder_step. Qed.

Lemma BoxShadowDsc_chains : chains_return_this BoxShadowDsc.invoke.
Proof. apply chain_returns_this. builder_step. Qed.

Lemma RectDsc_chains : chains_return_this RectDsc.invoke.
Proof. apply chain_returns_this. builder_step. Qed.

Lemma LineDsc_chains : chains_return_this LineDsc.invoke.
Proof. apply chain_returns_this. builder_step. Qed.

Lemma ArcDsc_chains : chains_return_this ArcDsc.invoke.
Proof. apply chain_returns_this. builder_step. Qed.

Lemma TriangleDsc_chains : chains_return_this TriangleDsc.invoke.
Proof. apply chain_returns_this. builder_step. Qed.

Lemma ImageDsc_chains : chains_return_this ImageDsc.invoke.
Proof. apply chain_returns_this. builder_step. Qed.

Lemma LabelDsc_chains (no_sel : Z) : chains_return_this (LabelDsc.invoke no_sel).
Proof. apply chain_returns_this. builder_step. Qed.

Lemma LetterDsc_chains : chains_return_this LetterDsc.invoke.
Proof. apply chain_returns_this. builder_step. Qed.
End Builders.

(** C8.  Every chain of mutator calls on a widget with the two mixins, on
    a [Style], on any of the ten descriptor builders or on a [DrawBuf] runs
    to the end and returns a reference to the object the chain started on:
    each call returns the address it was called on, so the address the
    last call returns is the address of the original object. *)
Theorem chaining_returns_the_same_object `{LvConf} `{StyleEngine}
    (LV_DRAW_LABEL_NO_TXT_SEL : Z) :
  chains_return_this Widget.invoke ∧
  chains_return_this Style.invoke ∧
  chains_return_this FillDsc.invoke ∧
  chains_return_this BorderDsc.invoke ∧
  chains_return_this BoxShadowDsc.invoke ∧
  chains_return_this RectDsc.invoke ∧
  chains_return_this LineDsc.invoke ∧
  chains_return_this ArcDsc.invoke ∧
  chains_return_this TriangleDsc.invoke ∧
  chains_return_this ImageDsc.invoke ∧
  chains_return_this (LabelDsc.invoke LV_DRAW_LABEL_NO_TXT_SEL) ∧
  chains_return_this LetterDsc.invoke ∧
  (∀ (ms : list DrawBuf.mutator) (st : state ptr draw_buf_call) (this : Z)
     (b : ptr),
     heap st !! this = Some b →
     sources_alive (heap st) ms →
     ∃ st', chain DrawBuf.invoke_mutator ms this st = Some (this, st')).
Proof.
  repeat apply conj.
  - intros ms st this [o Hthis].
    destruct (Widget_chain_returns_this ms st this o Hthis) as (cs & Hcs).
    eauto.
  - intros ms st this [s Hthis].
    destruct (Style_chain_returns_this ms st this s Hthis) as (s' & cs & Hcs).
    eauto.
  - apply FillDsc_chains.
  - apply BorderDsc_chains.
  - apply BoxShadowDsc_chains.
  - apply RectDsc_chains.
  - apply LineDsc_chains.
  - apply ArcDsc_chains.
  - apply TriangleDsc_chains.
  - apply ImageDsc_chains.
  - apply LabelDsc_chains.
  - apply LetterDsc_chains.
  - intros ms st this b Hthis Hsrc.
    destruct (DrawBuf_chain_returns_this ms st this b Hthis Hsrc)
      as (cs & Hcs).
    eauto.
Qed.

Lemma chaining_returns_the_same_object_witness :
  (∃ st', chain (@Widget.invoke lvgl_conf)
            [Widget.Object_ (ObjectMixin.Size 100 50);
             Widget.Style_ (StyleMixin.Margin 5 0);
             Widget.Object_ ObjectMixin.Center] 1 (State {[ 1 := 42 ]} [])
          = Some (1, st')) ∧
  (∃ st', chain (@Style.invoke recording_style_engine)
            [Style.Radius 3; Style.Margin_all 5] 1 (State {[ 1 := [] ]} [])
          = Some (1, st')) ∧
  (∃ st', chain LineDsc.invoke
            [LineDsc.P1 0 0; LineDsc.P2 100 100; LineDsc.Width 3;
             LineDsc.Round_start true; LineDsc.Round_end true] 1
            (State {[ 1 := ∅ ]} ([] : list dsc_call))
          = Some (1, st')) ∧
  (∃ st', chain DrawBuf.invoke_mutator
            [DrawBuf.MClear nullptr; DrawBuf.MCopy nullptr 2 nullptr] 1
            (State {[ 1 := 42; 2 := 43 ]} [])
          = Some (1, st')).
Proof.
  destruct (@chaining_returns_the_same_object lvgl_conf recording_style_engine
              65535)
    as (Hw & Hs & _ & _ & _ & _ & Hl & _ & _ & _ & _ & _ & Hb).
  split; [|split; [|split]].
  - refine (Hw _ (State {[ 1 := 42 ]} []) 1 _). exists 42. reflexivity.
  - refine (Hs _ (State {[ 1 := [] ]} []) 1 _). exists []. reflexivity.
  - refine (Hl _ (State {[ 1 := ∅ ]} []) 1 _). exists ∅. reflexivity.
  - refine (Hb _ (State {[ 1 := 42; 2 := 43 ]} []) 1 42 eq_refl _).
    repeat constructor. exists 43. reflexivity.
Defined.

(** ** The mixins: which widget a mutator acts on *)

Section MutatorTargets.
Context `{LvConf}.

Lemma ObjectMixin_targets (m : ObjectMixin.mutator)
    (st : state ptr obj_call) (this : Z) (o : ptr) :
  heap st !! this = Some o →
  ∃ c, ObjectMixin.invoke m this st =
         Some (this, State (heap st) (trace st ++ [c])) ∧
       obj_call_target c = o.
Proof.
  intros Hthis. destruct m; exec; eexists; (split; [reflexivity|reflexivity]).
Qed.

Lemma StyleMixin_targets (m : StyleMixin.mutator)
    (st : state ptr obj_call) (this : Z) (o : ptr) :
  heap st !! this = Some o →
  ∃ cs, StyleMixin.invoke m this st =
          Some (this, State (heap st) (trace st ++ cs)) ∧
        Forall (λ c, obj_call_target c = o) cs ∧
        length cs = StyleMixin.forwarded_calls m.
Proof.
  intros Hthis.
  destruct m; exec; rewrite <- ?app_assoc; eexists;
    (split; [reflexivity|split; [repeat constructor|reflexivity]]).
Qed.

Lemma Widget_targets (m : Widget.mutator)
    (st : state ptr obj_call) (this : Z) (o : ptr) :
  heap st !! this = Some o →
  ∃ cs, Widget.invoke m this st =
          Some (this, State (heap st) (trace st ++ cs)) ∧
        Forall (λ c, obj_call_target c = o) cs ∧
        length cs = Widget_forwarded_calls m.
Proof.
  intros Hthis. destruct m as [m|m]; simpl.
  - destruct (ObjectMixin_targets m st this o Hthis) as (c & Hc & Ho).
    exists [c]. split; [exact Hc|]. split; [|reflexivity].
    now repeat constructor.
  - exact (StyleMixin_targets m st this o Hthis).
Qed.
End MutatorTargets.

(** ** Operations on a wrapper whose handle is null *)

Lemma DrawBuf_guarded `{Engine draw_buf_call} `{DrawBufMemory}
    (op : DrawBuf.operation) (st : state ptr draw_buf_call) (this : Z) :
  heap st !! this = Some nullptr →
  DrawBuf.invoke op this st = Some (DrawBuf.on_null op this, st).
Proof.
  intros Hthis. destruct op; exec; try reflexivity.
  all: now destruct st.
Qed.

Lemma DrawTaskView_guarded `{Engine draw_task_call} (none : Z)
    (op : DrawTaskView.operation) (st : state ptr draw_task_call) (this : Z) :
  heap st !! this = Some nullptr →
  DrawTaskView.invoke none op this st = Some (DrawTaskView.on_null none op, st).
Proof.
  intros Hthis. destruct op; exec; try reflexivity.
  all: now destruct st.
Qed.

Lemma Widget_unguarded `{LvConf} (m : Widget.mutator)
    (st : state ptr obj_call) (this : Z) :
  heap st !! this = Some nullptr →
  ∃ c cs, Widget.invoke m this st =
            Some (this, State (heap st) (trace st ++ c :: cs)) ∧
          Forall (λ c', obj_call_target c' = nullptr) (c :: cs) ∧
          length (c :: cs) = Widget_forwarded_calls m.
Proof.
  intros Hthis.
  destruct (Widget_targets m st this nullptr Hthis) as (cs & Hcs & Ho & Hn).
  destruct cs as [|c cs]; [now destruct m as [m|m]; [|destruct m]|].
  now exists c, cs.
Qed.

Lemma DrawBuf_move_assign_to_null (st : state ptr draw_buf_call)
    (this other : Z) (p : ptr) :
  this ≠ other →
  heap st !! this = Some nullptr → heap st !! other = Some p →
  DrawBuf.move_assign other this st =
    Some (this,
          State (<[other := nullptr]> (<[this := p]> (heap st))) (trace st)).
Proof.
  intros Hne Hthis Hother.
  rewrite (DrawBuf_move_assign_spec st this other nullptr p Hne Hthis Hother).
  simpl. now rewrite app_nil_r.
Qed.

(** C4, as the code has it.  Every non-static member function of
    [DrawBuf] other than its move assignment, every member function of
    [DrawTaskView], and [ObjectView::del], called on a wrapper whose handle
    is null, makes no engine call, changes nothing and returns silently,
    with a default value where it returns one (0, [nullptr], [false],
    [LV_COLOR_FORMAT_UNKNOWN], [LV_DRAW_TASK_TYPE_NONE],
    [LV_RESULT_INVALID], or the object itself); the destructors of [Object]
    and [DrawBuf] make no engine call either.  Move assignment to a null
    [DrawBuf] from another [DrawBuf] makes no engine call, but it is not a
    no-op: the object takes over the buffer of the source, which is left
    null.  The mutators of the mixins are not guarded: on a null handle
    they make their engine calls as on any other, one per property, each
    with the null pointer as the widget it is made on. *)
Theorem null_handle_operations
    `{LvConf} `{Engine draw_buf_call} `{DrawBufMemory} `{Engine draw_task_call}
    (LV_DRAW_TASK_TYPE_NONE : Z) :
  (∀ (op : DrawBuf.operation) (st : state ptr draw_buf_call) (this : Z),
     heap st !! this = Some nullptr →
     DrawBuf.invoke op this st = Some (DrawBuf.on_null op this, st)) ∧
  (∀ (st : state ptr draw_buf_call) (this other : Z) (p : ptr),
     this ≠ other →
     heap st !! this = Some nullptr → heap st !! other = Some p →
     DrawBuf.move_assign other this st =
       Some (this,
             State (<[other := nullptr]> (<[this := p]> (heap st)))
                   (trace st))) ∧
  (∀ (op : DrawTaskView.operation) (st : state ptr draw_task_call) (this : Z),
     heap st !! this = Some nullptr →
     DrawTaskView.invoke LV_DRAW_TASK_TYPE_NONE op this st =
       Some (DrawTaskView.on_null LV_DRAW_TASK_TYPE_NONE op, st)) ∧
  (∀ (st : state ptr obj_call) (this : Z),
     heap st !! this = Some nullptr →
     ObjectView.del this st = Some (tt, st) ∧
     Object.dtor this st = Some (tt, State (delete this (heap st)) (trace st))) ∧
  (∀ (st : state ptr draw_buf_call) (this : Z),
     heap st !! this = Some nullptr →
     DrawBuf.dtor this st = Some (tt, State (delete this (heap st)) (trace st))) ∧
  (∀ (m : Widget.mutator) (st : state ptr obj_call) (this : Z),
     heap st !! this = Some nullptr →
     ∃ c cs, Widget.invoke m this st =
               Some (this, State (heap st) (trace st ++ c :: cs)) ∧
             Forall (λ c', obj_call_target c' = nullptr) (c :: cs) ∧
             length (c :: cs) = Widget_forwarded_calls m).
Proof.
  repeat apply conj.
  - intros. now apply DrawBuf_guarded.
  - intros. now apply DrawBuf_move_assign_to_null.
  - intros. now apply DrawTaskView_guarded.
  - intros st this Hthis. split; [now apply del_on_null|].
    rewrite (Object_dtor_spec st this nullptr Hthis). simpl.
    now rewrite app_nil_r.
  - intros st this Hthis.
    rewrite (DrawBuf_dtor_spec st this nullptr Hthis). simpl.
    now rewrite app_nil_r.
  - intros. now apply Widget_unguarded.
Qed.

Lemma null_handle_operations_witness :
  let E := obliging_engine draw_buf_call in
  let Mem := {| draw_buf_at := λ _ _, Build_lv_draw_buf_t
                                       (Build_lv_image_header_t 0 0 0 0) 0 0;
                LV_COLOR_FORMAT_UNKNOWN := 0 |} in
  @DrawBuf.invoke E Mem (DrawBuf.Adjust_stride 16) 1 (State {[ 1 := nullptr ]} [])
    = Some (VResult LV_RESULT_INVALID, State {[ 1 := nullptr ]} []) ∧
  @DrawTaskView.invoke (obliging_engine draw_task_call) 0 DrawTaskView.Fill_dsc 1
      (State {[ 1 := nullptr ]} [])
    = Some (VPtr nullptr, State {[ 1 := nullptr ]} []) ∧
  ObjectView.del 1 (State {[ 1 := nullptr ]} [])
    = Some (tt, State {[ 1 := nullptr ]} []) ∧
  DrawBuf.move_assign 2 1 (State {[ 1 := nullptr; 2 := 42 ]} [])
    = Some (1, State (<[2 := nullptr]> (<[1 := 42]> {[ 1 := nullptr; 2 := 42 ]}))
                     []) ∧
  (∃ c cs, @Widget.invoke lvgl_conf (Widget.Style_ (StyleMixin.Gap 4 2)) 1
             (State {[ 1 := nullptr ]} []) =
           Some (1, State {[ 1 := nullptr ]} ([] ++ c :: cs)) ∧
           Forall (λ c', obj_call_target c' = nullptr) (c :: cs) ∧
           length (c :: cs) = 2%nat).
Proof.
  intros E Mem.
  destruct (@null_handle_operations lvgl_conf E Mem
              (obliging_engine draw_task_call) 0)
    as (Hb & Hm & Ht & Ho & _ & Hw).
  split; [|split; [|split; [|split]]].
  - exact (Hb (DrawBuf.Adjust_stride 16) (State {[ 1 := nullptr ]} []) 1 eq_refl).
  - exact (Ht DrawTaskView.Fill_dsc (State {[ 1 := nullptr ]} []) 1 eq_refl).
  - exact (proj1 (Ho (State {[ 1 := nullptr ]} []) 1 eq_refl)).
  - refine (Hm (State {[ 1 := nullptr; 2 := 42 ]} []) 1 2 42 _ eq_refl eq_refl).
    discriminate.
  - exact (Hw (Widget.Style_ (StyleMixin.Gap 4 2))
             (State {[ 1 := nullptr ]} []) 1 eq_refl).
Defined.

(** [ObjectMixin::size] on a widget wrapper whose handle is null calls the
    engine, with the null pointer: it is not a no-op. *)
Lemma size_on_null_handle_calls_the_engine :
  let st := State {[ 1 := nullptr ]} [] in
  ObjectMixin.size 10 20 1 st =
    Some (1, State {[ 1 := nullptr ]} [lv_obj_set_size nullptr 10 20]) ∧
  ¬ (∃ r st', ObjectMixin.size 10 20 1 st = Some (r, st') ∧ trace st' = trace st).
Proof.
  intros st.
  assert (Hrun : ObjectMixin.size 10 20 1 st =
    Some (1, State {[ 1 := nullptr ]} [lv_obj_set_size nullptr 10 20]))
    by reflexivity.
  split; [exact Hrun|].
  intros (r & st' & Hrun' & Htr). rewrite Hrun in Hrun'.
  injection Hrun' as <- <-. discriminate Htr.
Qed.

(** ** The style value object *)

(** C5.  Let the engine's [lv_style_init] overwrite the record it is given
    with the empty style, whatever the record held.  Then a
    default-constructed [Style] holds the empty style (no property set),
    and after any sequence of property setters (and resets) followed by
    [reset()] the object again holds the empty style: exactly what a
    freshly default-constructed [Style] holds, the store of objects being
    as it was right after the construction. *)
Theorem reset_restores_the_default_style `{StyleEngine}
    (empty : lv_style_t)
    (init_empties : ∀ s, lv_style_effect lv_style_init s = empty)
    (st : state lv_style_t style_call) (this : Z) (uninit : lv_style_t)
    (setters : list Style.mutator) :
  heap st !! this = None →
  ∃ st0 st1,
    Style.ctor this uninit st = Some (tt, st0) ∧
    heap st0 !! this = Some empty ∧
    (r ← chain Style.invoke setters this; Style.reset r) st0 = Some (this, st1) ∧
    heap st1 = heap st0.
Proof.
  intros Hfresh.
  assert (Hctor : Style.ctor this uninit st =
            Some (tt, State (<[this := empty]> (heap st))
                            (trace st ++ [StyleCall this lv_style_init]))).
  { unfold Style.ctor, Style.engine. run. rewrite Hfresh. lookups.
    now rewrite init_empties, insert_insert_eq. }
  destruct (Style_chain_returns_this setters
              (State (<[this := empty]> (heap st))
                     (trace st ++ [StyleCall this lv_style_init]))
              this empty (lookup_insert_eq _ _ _)) as (s' & cs & Hchain).
  eexists _, _. split; [exact Hctor|]. simpl.
  split; [apply lookup_insert_eq|].
  unfold mbind, M_bind, bind at 1. rewrite Hchain.
  unfold Style.reset, Style.engine. run. lookups.
  rewrite init_empties, !insert_insert_eq.
  split; reflexivity.
Qed.

Lemma reset_restores_the_default_style_witness :
  ∃ st0 st1,
    @Style.ctor recording_style_engine 1 [lv_style_set_radius 9]
        (State ∅ []) = Some (tt, st0) ∧
    heap st0 !! 1 = Some [] ∧
    (r ← chain (@Style.invoke recording_style_engine)
           [Style.Radius 3; Style.Margin_all 5] 1;
     @Style.reset recording_style_engine r) st0 = Some (1, st1) ∧
    heap st1 = heap st0.
Proof.
  refine (@reset_restores_the_default_style recording_style_engine []
            _ (State ∅ []) 1 [lv_style_set_radius 9]
            [Style.Radius 3; Style.Margin_all 5] _).
  - reflexivity.
  - reflexivity.
Defined.

(** ** Result codes *)

(** C6, as the code has it.  [Barcode::data] and [QRCode::update] make one
    engine call and return [true] exactly when the engine answers
    [LV_RESULT_OK].  [DrawBuf::adjust_stride] on a buffer makes one engine
    call and returns the engine's [lv_result_t] unchanged; on a [DrawBuf]
    whose handle is null it makes no engine call and returns
    [LV_RESULT_INVALID] itself. *)
Theorem result_codes_pass_through
    `{Engine barcode_call} `{Engine qrcode_call} `{Engine draw_buf_call} :
  (∀ (st : state ptr barcode_call) (this : Z) (o : ptr) (text : string),
     heap st !! this = Some o →
     ∃ b, Barcode.data this text st =
            Some (b, State (heap st) (trace st ++ [lv_barcode_update o text])) ∧
          (b = true ↔
           answer_result (trace st) (lv_barcode_update o text) = LV_RESULT_OK)) ∧
  (∀ (st : state ptr qrcode_call) (this : Z) (o : ptr) (data : list byte)
     (len : Z),
     heap st !! this = Some o →
     ∃ b, QRCode.update this data len st =
            Some (b, State (heap st)
                           (trace st ++ [lv_qrcode_update o data len])) ∧
          (b = true ↔
           answer_result (trace st) (lv_qrcode_update o data len)
             = LV_RESULT_OK)) ∧
  (∀ (st : state ptr draw_buf_call) (this : Z) (buf : ptr) (stride : Z),
     heap st !! this = Some buf →
     (buf ≠ nullptr →
      DrawBuf.adjust_stride this stride st =
        Some (answer_result (trace st) (lv_draw_buf_adjust_stride buf stride),
              State (heap st)
                    (trace st ++ [lv_draw_buf_adjust_stride buf stride]))) ∧
     (buf = nullptr →
      DrawBuf.adjust_stride this stride st = Some (LV_RESULT_INVALID, st))).
Proof.
  repeat apply conj.
  - intros st this o text Hthis. eexists. split.
    + unfold Barcode.data. run. now rewrite Hthis.
    + now destruct (answer_result _ _).
  - intros st this o data len Hthis. eexists. split.
    + unfold QRCode.update. run. now rewrite Hthis.
    + now destruct (answer_result _ _).
  - intros st this buf stride Hthis. split.
    + intros Hbuf. unfold DrawBuf.adjust_stride. run.
      now rewrite Hthis, (non_null_true buf Hbuf).
    + intros ->. unfold DrawBuf.adjust_stride. run. now rewrite Hthis.
Qed.

Lemma result_codes_pass_through_witness :
  (∃ b, @Barcode.data (refusing_engine barcode_call) 1 "12345678"
          (State {[ 1 := 42 ]} []) =
        Some (b, State {[ 1 := 42 ]} [lv_barcode_update 42 "12345678"]) ∧
        (b = true ↔ LV_RESULT_INVALID = LV_RESULT_OK)) ∧
  @DrawBuf.adjust_stride (obliging_engine draw_buf_call) 1 16
      (State {[ 1 := 42 ]} []) =
    Some (LV_RESULT_OK, State {[ 1 := 42 ]} [lv_draw_buf_adjust_stride 42 16]).
Proof.
  destruct (@result_codes_pass_through (refusing_engine barcode_call)
              (obliging_engine qrcode_call) (obliging_engine draw_buf_call))
    as (Hb & _ & Hs).
  split.
  - exact (Hb (State {[ 1 := 42 ]} []) 1 42 "12345678"%string eq_refl).
  - refine (proj1 (Hs (State {[ 1 := 42 ]} []) 1 42 16 eq_refl) _).
    discriminate.
Defined.

(** On a [DrawBuf] whose handle is null, [adjust_stride] asks the engine
    nothing and returns [LV_RESULT_INVALID], which is not the answer of the
    engine: this engine answers [LV_RESULT_OK] to every call. *)
Lemma adjust_stride_on_null_is_not_an_engine_result :
  let st := State {[ 1 := nullptr ]} [] in
  @DrawBuf.adjust_stride (obliging_engine draw_buf_call) 1 16 st =
    Some (LV_RESULT_INVALID, st) ∧
  ¬ (∃ c r st',
       @DrawBuf.adjust_stride (obliging_engine draw_buf_call) 1 16 st =
         Some (r, st') ∧
       trace st' = trace st ++ [c] ∧
       r = @answer_result _ (obliging_engine draw_buf_call) (trace st) c).
Proof.
  intros st.
  assert (Hrun : @DrawBuf.adjust_stride (obliging_engine draw_buf_call) 1 16 st
                 = Some (LV_RESULT_INVALID, st)) by reflexivity.
  split; [exact Hrun|].
  intros (c & r & st' & Hrun' & Htr & Hr). rewrite Hrun in Hrun'.
  injection Hrun' as <- <-. discriminate Hr.
Qed.

(** ** The draw pipeline *)

Section DrawSession.
Context `{DrawDescriptors}.
Import Draw Pipeline.

Lemma submit_spec (layer : ptr) (s : submission) (st : state ptr draw_call) :
  submit layer s st =
    Some (tt, State (heap st) (trace st ++ [draw_call_of layer s])).
Proof. now destruct s. Qed.

Lemma submit_all_spec (layer : ptr) (ss : list submission)
    (st : state ptr draw_call) :
  submit_all layer ss st =
    Some (tt, State (heap st) (trace st ++ map (draw_call_of layer) ss)).
Proof.
  revert st. induction ss as [|s ss IH]; intros st; simpl.
  - unfold ret. rewrite app_nil_r. now destruct st.
  - unfold mbind, M_bind, bind. rewrite submit_spec, IH. simpl.
    now rewrite <- app_assoc.
Qed.

Lemma session_spec (canvas : Z) (c layer : ptr) (ss : list submission)
    (st : state ptr draw_call) :
  heap st !! canvas = Some c →
  session canvas layer ss st =
    Some (tt, State (heap st)
                    (trace st ++ [lv_canvas_init_layer c layer]
                       ++ map (draw_call_of layer) ss
                       ++ [lv_canvas_finish_layer c layer])).
Proof.
  intros Hc. unfold session, Canvas.init_layer, Canvas.finish_layer.
  unfold mbind, M_bind, bind, load, call. rewrite Hc. simpl.
  rewrite submit_all_spec. simpl. rewrite Hc.
  do 3 f_equal. simpl. now rewrite <- !app_assoc.
Qed.

(** The mock engine after more calls. *)
Lemma mock_run_app (tr tr' : list draw_call) :
  mock_run (tr ++ tr') = fold_left mock_step tr' (mock_run tr).
Proof. unfold mock_run. apply fold_left_app. Qed.

Lemma mock_submissions (layer : ptr) (ss : list submission) (e : mock_engine) :
  fold_left mock_step (map (draw_call_of layer) ss) e =
    Mock (pending e ++ map (pair layer) ss) (dispatched e).
Proof.
  revert e. induction ss as [|s ss IH]; intros e; simpl.
  - rewrite app_nil_r. now destruct e.
  - rewrite IH. destruct s; simpl; now rewrite <- app_assoc.
Qed.

Lemma filter_on_layer_none (layer : ptr) (ts : list (ptr * submission)) :
  List.filter (on_layer layer)
    (List.filter (λ t, negb (on_layer layer t)) ts) = [].
Proof.
  induction ts as [|t ts IH]; simpl; [reflexivity|].
  destruct (on_layer layer t) eqn:Ht; simpl; [exact IH|].
  now rewrite Ht.
Qed.

Lemma filter_on_layer_all (layer : ptr) (ss : list submission) :
  List.filter (on_layer layer) (map (pair layer) ss) = map (pair layer) ss.
Proof.
  induction ss as [|s ss IH]; simpl; [reflexivity|].
  unfold on_layer at 1. simpl. now rewrite Z.eqb_refl, IH.
Qed.

Lemma mock_session (c layer : ptr) (ss : list submission) (e : mock_engine) :
  dispatched (fold_left mock_step
                ([lv_canvas_init_layer c layer]
                   ++ map (draw_call_of layer) ss
                   ++ [lv_canvas_finish_layer c layer]) e) =
    dispatched e ++ ss.
Proof.
  rewrite !fold_left_app. simpl. rewrite mock_submissions. simpl.
  rewrite List.filter_app, filter_on_layer_none, filter_on_layer_all. simpl.
  rewrite map_map. simpl. now rewrite map_id.
Qed.

Lemma session_L_spec (canvas : Z) (c : ptr) (layer : Z)
    (ss : list submission) (st : state ptr draw_call) :
  heap st !! canvas = Some c →
  session_L canvas layer ss st =
    Some (tt, State (heap st)
                    (trace st ++ [lv_canvas_init_layer c layer]
                       ++ map (draw_call_of layer) ss
                       ++ [lv_canvas_finish_layer c layer])).
Proof.
  intros Hc. unfold session_L, Canvas.init_layer_L, Canvas.finish_layer_L,
    Canvas.Layer_get, Canvas.Layer_to_ptr.
  unfold mbind, M_bind, bind, load, call. rewrite Hc. simpl.
  rewrite submit_all_spec. simpl. rewrite Hc.
  do 3 f_equal. simpl. now rewrite <- !app_assoc.
Qed.

(** C1.  A drawing session on a canvas that binds a layer, submits [N]
    descriptors through the draw functions and finalizes the layer makes
    exactly these engine calls, in this order: [lv_canvas_init_layer],
    then one draw call per descriptor, in submission order and with the
    descriptor and area submitted, then [lv_canvas_finish_layer].  A
    dispatcher that captures the tasks of the layer as it is finalized
    therefore receives exactly [N] tasks, those of the submissions, in
    submission order.  This holds for a session on an [lv_layer_t*] and
    for a session on a [Layer] wrapper, which goes through the overloads
    of [init_layer] and [finish_layer] that take a [Layer&]: there every
    engine call is given the address of the wrapper's [lv_layer_t], which
    is the address of the wrapper. *)
Theorem session_dispatches_submissions_in_order
    (canvas : Z) (c layer : ptr) (wrapper : Z) (ss : list submission)
    (st : state ptr draw_call) :
  heap st !! canvas = Some c →
  (∃ st',
     session canvas layer ss st = Some (tt, st') ∧
     heap st' = heap st ∧
     trace st' = trace st ++ [lv_canvas_init_layer c layer]
                   ++ map (draw_call_of layer) ss
                   ++ [lv_canvas_finish_layer c layer] ∧
     length (map (draw_call_of layer) ss) = length ss ∧
     dispatched (mock_run (trace st')) =
       dispatched (mock_run (trace st)) ++ ss) ∧
  (∃ st',
     session_L canvas wrapper ss st = Some (tt, st') ∧
     heap st' = heap st ∧
     trace st' = trace st ++ [lv_canvas_init_layer c wrapper]
                   ++ map (draw_call_of wrapper) ss
                   ++ [lv_canvas_finish_layer c wrapper] ∧
     length (map (draw_call_of wrapper) ss) = length ss ∧
     dispatched (mock_run (trace st')) =
       dispatched (mock_run (trace st)) ++ ss).
Proof.
  intros Hc. split.
  - eexists. split; [apply session_spec; exact Hc|]. simpl.
    split; [reflexivity|]. split; [reflexivity|].
    split; [apply length_map|].
    rewrite mock_run_app. apply mock_session.
  - eexists. split; [apply session_L_spec; exact Hc|]. simpl.
    split; [reflexivity|]. split; [reflexivity|].
    split; [apply length_map|].
    rewrite mock_run_app. apply mock_session.
Qed.
End DrawSession.

Lemma session_dispatches_submissions_in_order_witness :
  let red := lv_color x00 x00 xff in
  let blue := lv_color xff x00 x00 in
  let area := lv_area 0 0 9 9 in
  let fill_dsc : lv_dsc :=
    {[ "color"%string := MColor red; "opa"%string := MInt 255 ]} in
  let border_dsc : lv_dsc :=
    {[ "color"%string := MColor blue; "width"%string := MInt 1 ]} in
  let ss := [@Pipeline.Fill built_descriptors fill_dsc area;
             @Pipeline.Border built_descriptors border_dsc area] in
  (∃ st',
     Pipeline.session 1 7 ss (State {[ 1 := 42 ]} []) = Some (tt, st') ∧
     heap st' = {[ 1 := 42 ]} ∧
     trace st' = [] ++ [Draw.lv_canvas_init_layer 42 7]
                   ++ map (Pipeline.draw_call_of 7) ss
                   ++ [Draw.lv_canvas_finish_layer 42 7] ∧
     length (map (Pipeline.draw_call_of 7) ss) = length ss ∧
     Pipeline.dispatched (Pipeline.mock_run (trace st')) =
       Pipeline.dispatched (Pipeline.mock_run []) ++ ss) ∧
  (∃ st',
     Pipeline.session_L 1 8 ss (State {[ 1 := 42 ]} []) = Some (tt, st') ∧
     heap st' = {[ 1 := 42 ]} ∧
     trace st' = [] ++ [Draw.lv_canvas_init_layer 42 8]
                   ++ map (Pipeline.draw_call_of 8) ss
                   ++ [Draw.lv_canvas_finish_layer 42 8] ∧
     length (map (Pipeline.draw_call_of 8) ss) = length ss ∧
     Pipeline.dispatched (Pipeline.mock_run (trace st')) =
       Pipeline.dispatched (Pipeline.mock_run []) ++ ss).
Proof.
  intros red blue area fill_dsc border_dsc ss.
  exact (@session_dispatches_submissions_in_order built_descriptors 1 42 7 8
           ss (State {[ 1 := 42 ]} []) eq_refl).
Defined.

(** ** draw/primitives.hpp *)

Lemma int32_id (z : Z) : Primitives.is_int32 z → Primitives.int32 z = z.
Proof.
  unfold Primitives.is_int32, Primitives.int32.
  change (2 ^ 32) with 4294967296. change (2 ^ 31) with 2147483648.
  intros Hz. rewrite Z.mod_small by lia. lia.
Qed.

(** X1.  [area_from_size (x, y, w, h)] is the area whose top-left corner is
    [(x, y)] and whose [area_width] and [area_height] are [w] and [h]: the
    [- 1] of the one and the [+ 1] of the others cancel, for every position
    and every size that is not negative, as long as the sums fit
    [int32_t]. *)
Theorem area_from_size_has_the_size (x y w h : Z) :
  Primitives.spans x w →
  Primitives.spans y h →
  let a := Primitives.area_from_size x y w h in
  x1 a = x ∧ y1 a = y ∧ x2 a = x + w - 1 ∧ y2 a = y + h - 1 ∧
  Primitives.area_width a = w ∧ Primitives.area_height a = h.
Proof.
  intros (Hx & Hw & Hw0 & Hxw & Hxw1) (Hy & Hh & Hh0 & Hyh & Hyh1) a.
  subst a. unfold Primitives.area_from_size, Primitives.area_width,
    Primitives.area_height. cbn [x1 y1 x2 y2].
  rewrite (int32_id (x + w)), (int32_id (x + w - 1)) by assumption.
  rewrite (int32_id (y + h)), (int32_id (y + h - 1)) by assumption.
  assert (Hdx : Primitives.is_int32 (x + w - 1 - x)).
  { unfold Primitives.is_int32 in *. lia. }
  assert (Hdy : Primitives.is_int32 (y + h - 1 - y)).
  { unfold Primitives.is_int32 in *. lia. }
  rewrite (int32_id _ Hdx), (int32_id _ Hdy).
  replace (x + w - 1 - x + 1) with w by lia.
  replace (y + h - 1 - y + 1) with h by lia.
  rewrite (int32_id w Hw), (int32_id h Hh). repeat split; reflexivity.
Qed.

Lemma area_from_size_has_the_size_witness :
  let a := Primitives.area_from_size 10 10 90 90 in
  x1 a = 10 ∧ y1 a = 10 ∧ x2 a = 10 + 90 - 1 ∧ y2 a = 10 + 90 - 1 ∧
  Primitives.area_width a = 90 ∧ Primitives.area_height a = 90.
Proof.
  apply (area_from_size_has_the_size 10 10 90 90);
    unfold Primitives.spans, Primitives.is_int32; lia.
Defined.

(** X2.  On an area whose extent is computed without overflow,
    [area_contains] holds of exactly the points whose offset from the
    top-left corner is at least 0 and less than [area_width] horizontally
    and less than [area_height] vertically: both corners are inside, and
    an area whose width or height is 0 or negative contains no point. *)
Theorem area_contains_iff_within_width_and_height (a : lv_area_t) (x y : Z) :
  Primitives.measurable a →
  Primitives.area_contains a x y = true ↔
    0 ≤ x - x1 a < Primitives.area_width a ∧
    0 ≤ y - y1 a < Primitives.area_height a.
Proof.
  intros (_ & _ & _ & _ & Hdx & Hdx1 & Hdy & Hdy1).
  unfold Primitives.area_contains, Primitives.area_width,
    Primitives.area_height.
  rewrite (int32_id _ Hdx), (int32_id _ Hdx1).
  rewrite (int32_id _ Hdy), (int32_id _ Hdy1).
  rewrite !andb_true_iff, !Z.geb_le, !Z.leb_le. lia.
Qed.

Lemma area_contains_iff_within_width_and_height_witness :
  let a := Primitives.area 10 10 100 100 in
  Primitives.area_contains a 100 10 = true ↔
    0 ≤ 100 - x1 a < Primitives.area_width a ∧
    0 ≤ 10 - y1 a < Primitives.area_height a.
Proof.
  apply (area_contains_iff_within_width_and_height
           (Primitives.area 10 10 100 100) 100 10).
  unfold Primitives.measurable, Primitives.is_int32; simpl; lia.
Defined.

(** ** core/object.hpp: ownership over the lifetime of an [Object] *)

Lemma Object_reset_spec (st : state ptr obj_call) (this : Z) (q obj : ptr) :
  heap st !! this = Some q →
  Object.reset this obj st =
    Some (tt, State (<[this := obj]> (heap st))
                    (trace st ++ (lv_obj_delete <$> List.filter non_null [q]))).
Proof.
  intros Hthis. unfold Object.reset. run. rewrite Hthis.
  destruct (non_null q); lookups; [reflexivity|].
  now rewrite app_nil_r.
Qed.

Lemma Object_release_spec (st : state ptr obj_call) (this : Z) (p : ptr) :
  heap st !! this = Some p →
  Object.release this st =
    Some (p, State (<[this := nullptr]> (heap st)) (trace st)).
Proof. intros Hthis. unfold Object.release. run. now lookups. Qed.

Lemma ObjectView_del_spec (st : state ptr obj_call) (this : Z) (p : ptr) :
  heap st !! this = Some p →
  ObjectView.del this st =
    Some (tt, State (<[this := nullptr]> (heap st))
                    (trace st ++ (lv_obj_delete <$> List.filter non_null [p]))).
Proof.
  intros Hthis. unfold ObjectView.del. run. rewrite Hthis. simpl.
  destruct (non_null p) eqn:Hp; lookups; [reflexivity|].
  unfold non_null in Hp. apply negb_false_iff, Z.eqb_eq in Hp. subst p.
  rewrite app_nil_r, insert_id by exact Hthis. now destruct st.
Qed.

Lemma filter_cons_app {A : Type} (f : A → bool) (x : A) (l : list A) :
  List.filter f (x :: l) = List.filter f [x] ++ List.filter f l.
Proof. simpl. now destruct (f x). Qed.

(** What is owed at any point of the life of an [Object]: the widgets
    deleted so far, those released so far and the one held are, together,
    the widgets the object has been given. *)
Lemma ObjectOwner_invoke_all_conserves (this : Z)
    (ops : list ObjectOwner.operation) (st : state ptr obj_call) (p : ptr) :
  heap st !! this = Some p →
  ∃ released deleted q,
    ObjectOwner.invoke_all ops this st =
      Some (released, State (<[this := q]> (heap st))
                            (trace st ++ (lv_obj_delete <$> deleted))) ∧
    deleted ++ List.filter non_null released ++ List.filter non_null [q] ≡ₚ
      List.filter non_null (p :: ObjectOwner.adopted ops).
Proof.
  revert st p. induction ops as [|op ops IH]; intros st p Hthis.
  - exists [], [], p. split; [|reflexivity].
    simpl. unfold ret. rewrite app_nil_r, insert_id by exact Hthis.
    now destruct st.
  - destruct op as [obj| |]; cbn [ObjectOwner.invoke_all ObjectOwner.invoke].
    + edestruct (IH (State (<[this := obj]> (heap st))
                     (trace st ++ (lv_obj_delete <$> List.filter non_null [p])))
                   obj) as (released & deleted & q & Hrun & Hperm);
        [apply lookup_insert_eq|].
      exists released, (List.filter non_null [p] ++ deleted), q. split.
      * unfold mbind, M_bind, bind.
        rewrite (Object_reset_spec st this p obj Hthis). unfold ret at 1.
        rewrite Hrun. unfold ret. cbn [heap trace].
        now rewrite insert_insert_eq, fmap_app, app_assoc.
      * change (ObjectOwner.adopted (ObjectOwner.Reset_ obj :: ops))
          with (obj :: ObjectOwner.adopted ops).
        rewrite (filter_cons_app non_null p (obj :: ObjectOwner.adopted ops)).
        rewrite <- Hperm, <- app_assoc. reflexivity.
    + edestruct (IH (State (<[this := nullptr]> (heap st)) (trace st)) nullptr)
        as (released & deleted & q & Hrun & Hperm);
        [apply lookup_insert_eq|].
      exists (p :: released), deleted, q. split.
      * unfold mbind, M_bind, bind.
        rewrite (Object_release_spec st this p Hthis). unfold ret at 1.
        rewrite Hrun. unfold ret. cbn [heap trace].
        now rewrite insert_insert_eq.
      * change (ObjectOwner.adopted (ObjectOwner.Release :: ops))
          with (ObjectOwner.adopted ops).
        rewrite (filter_cons_app non_null p released).
        rewrite (filter_cons_app non_null p (ObjectOwner.adopted ops)).
        change (List.filter non_null (ObjectOwner.adopted ops))
          with (List.filter non_null (nullptr :: ObjectOwner.adopted ops)).
        rewrite <- Hperm. rewrite <- !app_assoc.
        apply Permutation_app_swap_app.
    + edestruct (IH (State (<[this := nullptr]> (heap st))
                     (trace st ++ (lv_obj_delete <$> List.filter non_null [p])))
                   nullptr) as (released & deleted & q & Hrun & Hperm);
        [apply lookup_insert_eq|].
      exists released, (List.filter non_null [p] ++ deleted), q. split.
      * unfold mbind, M_bind, bind.
        rewrite (ObjectView_del_spec st this p Hthis). unfold ret at 1.
        rewrite Hrun. unfold ret. cbn [heap trace].
        now rewrite insert_insert_eq, fmap_app, app_assoc.
      * change (ObjectOwner.adopted (ObjectOwner.Del :: ops))
          with (ObjectOwner.adopted ops).
        rewrite (filter_cons_app non_null p (ObjectOwner.adopted ops)).
        change (List.filter non_null (ObjectOwner.adopted ops))
          with (List.filter non_null (nullptr :: ObjectOwner.adopted ops)).
        rewrite <- Hperm, <- app_assoc. reflexivity.
Qed.

Lemma delete_insert_fresh {V : Type} (h : gmap Z V) (this : Z) (v : V) :
  h !! this = None → delete this (<[this := v]> h) = h.
Proof.
  intros Hfresh. apply map_eq. intros k.
  destruct (decide (k = this)) as [->|Hne].
  - now rewrite lookup_delete_eq.
  - now rewrite lookup_delete_ne, lookup_insert_ne by congruence.
Qed.

(** X3.  Over its whole life, an [Object] deletes or hands back every
    widget it was given, each once: whatever sequence of [reset], [release]
    and [del] calls is made on it between its construction and its
    destruction, the widgets it passes to [lv_obj_delete] together with the
    non-null pointers [release()] returned are exactly the non-null
    pointers it adopted or created and was given by [reset], counted with
    repetition; it makes no other engine call (but the [lv_obj_create] of
    its constructor) and the storage of the object is free again at the
    end. *)
Theorem object_deletes_or_releases_what_it_is_given `{Engine obj_call}
    (st : state ptr obj_call) (this : Z) (ops : list ObjectOwner.operation) :
  heap st !! this = None →
  (∀ obj : ptr,
     ∃ released deleted,
       ObjectOwner.life this obj ops st =
         Some (released,
               State (heap st) (trace st ++ (lv_obj_delete <$> deleted))) ∧
       deleted ++ List.filter non_null released ≡ₚ
         List.filter non_null (obj :: ObjectOwner.adopted ops)) ∧
  (∀ parent : ptr,
     let created := answer_ptr (trace st) (lv_obj_create parent) in
     ∃ released deleted,
       ObjectOwner.scope this parent ops st =
         Some (released,
               State (heap st)
                     (trace st ++ lv_obj_create parent
                        :: (lv_obj_delete <$> deleted))) ∧
       deleted ++ List.filter non_null released ≡ₚ
         List.filter non_null (created :: ObjectOwner.adopted ops)).
Proof.
  intros Hfresh.
  assert (Hlife : ∀ (tr : list obj_call) (obj : ptr),
    ∃ released deleted,
      (released ← ObjectOwner.invoke_all ops this;
       Object.dtor this;; ret released)
        (State (<[this := obj]> (heap st)) tr) =
        Some (released, State (heap st) (tr ++ (lv_obj_delete <$> deleted))) ∧
      deleted ++ List.filter non_null released ≡ₚ
        List.filter non_null (obj :: ObjectOwner.adopted ops)).
  { intros tr obj.
    destruct (ObjectOwner_invoke_all_conserves this ops
                (State (<[this := obj]> (heap st)) tr) obj
                (lookup_insert_eq _ _ _))
      as (released & deleted & q & Hrun & Hperm).
    exists released, (deleted ++ List.filter non_null [q]). split.
    - unfold mbind, M_bind, bind at 1. rewrite Hrun. cbn [heap trace].
      unfold bind.
      erewrite Object_dtor_spec by apply lookup_insert_eq.
      unfold ret. cbn [heap trace].
      rewrite !insert_insert_eq, (delete_insert_fresh _ _ _ Hfresh).
      rewrite fmap_app, <- app_assoc. simpl. now destruct (non_null q).
    - rewrite <- Hperm, <- !app_assoc.
      apply Permutation_app_head, Permutation_app_comm. }
  split.
  - intros obj. destruct (Hlife (trace st) obj) as (released & deleted & Hrun & Hperm).
    exists released, deleted. split; [|exact Hperm].
    unfold ObjectOwner.life, Object.ctor_adopt.
    unfold mbind, M_bind, bind at 1. unfold construct. rewrite Hfresh.
    exact Hrun.
  - intros parent created.
    destruct (Hlife (trace st ++ [lv_obj_create parent]) created)
      as (released & deleted & Hrun & Hperm).
    exists released, deleted. split; [|exact Hperm].
    unfold ObjectOwner.scope, Object.ctor.
    unfold mbind, M_bind, bind at 1. unfold bind at 1. unfold ask at 1.
    unfold construct. cbn [heap trace]. rewrite Hfresh.
    fold created. unfold mbind, M_bind in Hrun. rewrite Hrun.
    now rewrite <- app_assoc.
Qed.

Lemma object_deletes_or_releases_what_it_is_given_witness :
  let ops := [ObjectOwner.Reset_ 43; ObjectOwner.Release; ObjectOwner.Reset_ 44;
              ObjectOwner.Del] in
  ∃ released deleted,
    ObjectOwner.life 1 42 ops (State ∅ []) =
      Some (released, State ∅ ([] ++ (lv_obj_delete <$> deleted))) ∧
    deleted ++ List.filter non_null released ≡ₚ
      List.filter non_null (42 :: ObjectOwner.adopted ops).
Proof.
  intros ops.
  refine (proj1 (@object_deletes_or_releases_what_it_is_given
                   (obliging_engine obj_call) (State ∅ []) 1 ops _) 42).
  reflexivity.
Defined.

(** X4.  Handing a widget over by hand is a move: constructing an
    [Object] from what another releases,
    [Object dst(Object::adopt, src.release())], leaves the two objects and
    the engine exactly as the move constructor does, and
    [dst.reset(src.release())] exactly as the move assignment
    [dst = std::move(src)] does.  So also on one and the same object:
    [x.reset(x.release())] changes nothing and deletes nothing. *)
Theorem release_then_adopt_is_a_move
    (st : state ptr obj_call) (dst src : Z) (p : ptr) :
  heap st !! src = Some p →
  (heap st !! dst = None →
   ObjectOwner.adopt_released dst src st = Object.move_ctor dst src st) ∧
  (∀ q, heap st !! dst = Some q →
   ObjectOwner.reset_to_released src dst st = Object.move_assign src dst st) ∧
  ObjectOwner.reset_to_released src src st = Some (src, st).
Proof.
  intros Hsrc. repeat apply conj.
  - intros Hdst. assert (Hne : dst ≠ src) by congruence.
    rewrite (Object_move_ctor_spec st dst src p Hsrc Hdst).
    unfold ObjectOwner.adopt_released, Object.ctor_adopt.
    unfold mbind, M_bind, bind.
    rewrite (Object_release_spec st src p Hsrc). unfold construct.
    cbn [heap trace]. rewrite lookup_insert_ne, Hdst by congruence.
    do 3 f_equal. apply insert_insert_ne. congruence.
  - intros q Hdst. unfold ObjectOwner.reset_to_released.
    unfold mbind, M_bind, bind.
    rewrite (Object_release_spec st src p Hsrc).
    destruct (decide (dst = src)) as [->|Hne].
    + erewrite Object_reset_spec by apply lookup_insert_eq.
      unfold ret. cbn [heap trace]. simpl.
      rewrite app_nil_r, insert_insert_eq, insert_id by exact Hsrc.
      unfold Object.move_assign. run.
      rewrite bool_decide_eq_false_2 by (intros Hne; now apply Hne).
      now destruct st.
    + erewrite Object_reset_spec
        by (cbn [heap]; rewrite lookup_insert_ne by congruence; exact Hdst).
      rewrite (Object_move_assign_spec st dst src q p Hne Hdst Hsrc).
      unfold ret. cbn [heap trace]. simpl.
      do 3 f_equal; [|now destruct (non_null q)].
      apply insert_insert_ne. congruence.
  - unfold ObjectOwner.reset_to_released. unfold mbind, M_bind, bind.
    rewrite (Object_release_spec st src p Hsrc).
    erewrite Object_reset_spec by apply lookup_insert_eq.
    unfold ret. cbn [heap trace]. simpl.
    rewrite app_nil_r, insert_insert_eq, insert_id by exact Hsrc.
    now destruct st.
Qed.

Lemma release_then_adopt_is_a_move_witness :
  let st := State {[ 1 := 41; 2 := 42 ]} [] in
  ObjectOwner.adopt_released 3 2 st = Object.move_ctor 3 2 st ∧
  ObjectOwner.reset_to_released 2 1 st = Object.move_assign 2 1 st ∧
  ObjectOwner.reset_to_released 2 2 st = Some (2, st).
Proof.
  intros st. split; [|split].
  - exact (proj1 (release_then_adopt_is_a_move st 3 2 42 eq_refl) eq_refl).
  - exact (proj1 (proj2 (release_then_adopt_is_a_move st 1 2 42 eq_refl))
             41 eq_refl).
  - exact (proj2 (proj2 (release_then_adopt_is_a_move st 1 2 42 eq_refl))).
Defined.

(** ** [std::swap] on the owning handles *)

(** The store after a swap through a temporary at [tmp]. *)
Lemma swapped_store {V : Type} (h : gmap Z V) (tmp a b : Z) (p q t u v : V) :
  a ≠ b → tmp ≠ a → tmp ≠ b → h !! tmp = None →
  delete tmp (<[tmp := t]> (<[b := p]>
     (<[b := u]> (<[a := q]> (<[a := v]> (<[tmp := p]> h)))))) =
  <[b := p]> (<[a := q]> h).
Proof.
  intros Hne Hta Htb Hfresh. apply map_eq. intros k.
  destruct (decide (k = tmp)) as [->|Htmp].
  - now rewrite lookup_delete_eq, !lookup_insert_ne by congruence.
  - rewrite lookup_delete_ne, lookup_insert_ne by congruence.
    destruct (decide (k = b)) as [->|Hb]; [now rewrite !lookup_insert_eq|].
    rewrite !(lookup_insert_ne _ b) by congruence.
    destruct (decide (k = a)) as [->|Ha]; [now rewrite !lookup_insert_eq|].
    now rewrite !lookup_insert_ne by congruence.
Qed.

(** X5.  [std::swap] on two [Object]s, and on two [DrawBuf]s, exchanges
    the handles they hold and makes no engine call: nothing is deleted or
    destroyed, whatever the two hold (a resource or the null pointer), and
    the temporary of the swap is gone afterwards. *)
Theorem swap_exchanges_handles_without_engine_calls :
  (∀ (st : state ptr obj_call) (tmp a b : Z) (p q : ptr),
     a ≠ b → heap st !! a = Some p → heap st !! b = Some q →
     heap st !! tmp = None →
     Swap.Object_swap tmp a b st =
       Some (tt, State (<[b := p]> (<[a := q]> (heap st))) (trace st))) ∧
  (∀ (st : state ptr draw_buf_call) (tmp a b : Z) (p q : ptr),
     a ≠ b → heap st !! a = Some p → heap st !! b = Some q →
     heap st !! tmp = None →
     Swap.DrawBuf_swap tmp a b st =
       Some (tt, State (<[b := p]> (<[a := q]> (heap st))) (trace st))).
Proof.
  split; intros st tmp a b p q Hne Ha Hb Hfresh.
  - assert (Hta : tmp ≠ a) by congruence.
    assert (Htb : tmp ≠ b) by congruence.
    unfold Swap.Object_swap. unfold mbind, M_bind, bind at 1.
    rewrite (Object_move_ctor_spec st tmp a p Ha Hfresh).
    unfold bind at 1.
    erewrite (Object_move_assign_spec _ a b nullptr q Hne).
    2: { cbn [heap]. apply lookup_insert_eq. }
    2: { cbn [heap]. now rewrite !lookup_insert_ne by congruence. }
    unfold bind at 1.
    erewrite (Object_move_assign_spec _ b tmp nullptr p).
    2: congruence.
    2: { cbn [heap]. apply lookup_insert_eq. }
    2: { cbn [heap]. rewrite !lookup_insert_ne by congruence.
         apply lookup_insert_eq. }
    erewrite Object_dtor_spec by (cbn [heap]; apply lookup_insert_eq).
    cbn [heap trace non_null]. simpl.
    rewrite !app_nil_r. do 3 f_equal.
    now apply swapped_store.
  - assert (Hta : tmp ≠ a) by congruence.
    assert (Htb : tmp ≠ b) by congruence.
    unfold Swap.DrawBuf_swap. unfold mbind, M_bind, bind at 1.
    rewrite (DrawBuf_move_ctor_spec st tmp a p Ha Hfresh).
    unfold bind at 1.
    erewrite (DrawBuf_move_assign_spec _ a b nullptr q Hne).
    2: { cbn [heap]. apply lookup_insert_eq. }
    2: { cbn [heap]. now rewrite !lookup_insert_ne by congruence. }
    unfold bind at 1.
    erewrite (DrawBuf_move_assign_spec _ b tmp nullptr p).
    2: congruence.
    2: { cbn [heap]. apply lookup_insert_eq. }
    2: { cbn [heap]. rewrite !lookup_insert_ne by congruence.
         apply lookup_insert_eq. }
    erewrite DrawBuf_dtor_spec by (cbn [heap]; apply lookup_insert_eq).
    cbn [heap trace non_null]. simpl.
    rewrite !app_nil_r. do 3 f_equal.
    now apply swapped_store.
Qed.

Lemma swap_exchanges_handles_without_engine_calls_witness :
  Swap.Object_swap 9 1 2 (State {[ 1 := 42; 2 := nullptr ]} [lv_obj_center 42]) =
    Some (tt, State (<[2 := 42]> (<[1 := nullptr]> {[ 1 := 42; 2 := nullptr ]}))
                    [lv_obj_center 42]).
Proof.
  refine (proj1 swap_exchanges_handles_without_engine_calls
            (State {[ 1 := 42; 2 := nullptr ]} [lv_obj_center 42])
            9 1 2 42 nullptr _ _ _ _).
  - discriminate.
  - reflexivity.
  - reflexivity.
  - reflexivity.
Defined.

(** X6.  [std::swap] on two [Style]s exchanges the style records they
    hold, bit for bit.  The engine calls it makes are, in this order,
    [lv_style_init] and [lv_style_reset] on the first, on the second and on
    the temporary, each reset hitting a record that was initialised just
    before: neither of the two records that change places is ever passed to
    [lv_style_reset]. *)
Theorem swap_exchanges_style_records `{StyleEngine}
    (st : state lv_style_t style_call) (tmp a b : Z) (sa sb : lv_style_t) :
  a ≠ b → heap st !! a = Some sa → heap st !! b = Some sb →
  heap st !! tmp = None →
  Swap.Style_swap tmp a b st =
    Some (tt, State (<[b := sa]> (<[a := sb]> (heap st)))
                    (trace st ++ [StyleCall a lv_style_init;
                                  StyleCall a lv_style_reset;
                                  StyleCall b lv_style_init;
                                  StyleCall b lv_style_reset;
                                  StyleCall tmp lv_style_init;
                                  StyleCall tmp lv_style_reset])).
Proof.
  intros Hne Ha Hb Hfresh.
  assert (Hta : tmp ≠ a) by congruence.
  assert (Htb : tmp ≠ b) by congruence.
  unfold Swap.Style_swap. unfold mbind, M_bind, bind at 1.
  rewrite (Style_move_ctor_spec st tmp a sa Ha Hfresh).
  unfold bind at 1.
  erewrite (Style_move_assign_spec _ a b _ sb Hne).
  2: { cbn [heap]. apply lookup_insert_eq. }
  2: { cbn [heap]. now rewrite !lookup_insert_ne by congruence. }
  unfold bind at 1.
  erewrite (Style_move_assign_spec _ b tmp _ sa).
  2: congruence.
  2: { cbn [heap]. apply lookup_insert_eq. }
  2: { cbn [heap]. rewrite !lookup_insert_ne by congruence.
       apply lookup_insert_eq. }
  erewrite Style_dtor_spec by (cbn [heap]; apply lookup_insert_eq).
  cbn [heap trace]. rewrite <- !app_assoc. simpl.
  do 3 f_equal. now apply swapped_store.
Qed.

Lemma swap_exchanges_style_records_witness :
  @Swap.Style_swap recording_style_engine 9 1 2
      (State {[ 1 := [lv_style_set_radius 3]; 2 := [] ]} []) =
    Some (tt, State (<[2 := [lv_style_set_radius 3]]>
                       (<[1 := []]> {[ 1 := [lv_style_set_radius 3]; 2 := [] ]}))
                    ([] ++ [StyleCall 1 lv_style_init;
                            StyleCall 1 lv_style_reset;
                            StyleCall 2 lv_style_init;
                            StyleCall 2 lv_style_reset;
                            StyleCall 9 lv_style_init;
                            StyleCall 9 lv_style_reset])).
Proof.
  refine (@swap_exchanges_style_records recording_style_engine
            (State {[ 1 := [lv_style_set_radius 3]; 2 := [] ]} [])
            9 1 2 [lv_style_set_radius 3] [] _ _ _ _).
  - discriminate.
  - reflexivity.
  - reflexivity.
  - reflexivity.
Defined.

(** ** core/object.hpp: views of a widget *)

(** X7.  [del()] nulls the view it is called on and no other: a second
    view of the same widget still holds the handle afterwards, tests as
    valid and no longer compares equal to the first.  A [del()] through it
    passes the same handle to [lv_obj_delete] a second time. *)
Theorem del_nulls_only_the_view_it_is_called_on
    (st : state ptr obj_call) (a b : Z) (w : ptr) :
  a ≠ b → w ≠ nullptr →
  heap st !! a = Some w → heap st !! b = Some w →
  ∃ st1,
    ObjectView.del a st = Some (tt, st1) ∧
    (∀ other, other ≠ a → heap st1 !! other = heap st !! other) ∧
    ObjectView.to_bool b st1 = Some (true, st1) ∧
    ObjectView.eq a b st1 = Some (false, st1) ∧
    ObjectView.del b st1 =
      Some (tt, State (<[b := nullptr]> (<[a := nullptr]> (heap st)))
                      (trace st ++ [lv_obj_delete w; lv_obj_delete w])).
Proof.
  intros Hne Hw Ha Hb.
  eexists. split; [apply (ObjectView_del_spec st a w Ha)|].
  assert (Hb1 : (<[a := nullptr]> (heap st)) !! b = Some w)
    by now rewrite lookup_insert_ne by congruence.
  split; [|split; [|split]].
  - intros other Hother. cbn [heap]. now rewrite lookup_insert_ne by congruence.
  - unfold ObjectView.to_bool. run. rewrite Hb1.
    now rewrite (non_null_true w Hw).
  - unfold ObjectView.eq. run. rewrite lookup_insert_eq. simpl. rewrite Hb1.
    do 3 f_equal. change ((nullptr =? w) = false).
    apply Z.eqb_neq. congruence.
  - erewrite ObjectView_del_spec by exact Hb1. cbn [heap trace].
    simpl. rewrite (non_null_true w Hw). simpl.
    now rewrite <- app_assoc.
Qed.

Lemma del_nulls_only_the_view_it_is_called_on_witness :
  ∃ st1,
    ObjectView.del 1 (State {[ 1 := 42; 2 := 42 ]} []) = Some (tt, st1) ∧
    (∀ other, other ≠ 1 →
       heap st1 !! other = ({[ 1 := 42; 2 := 42 ]} : gmap Z ptr) !! other) ∧
    ObjectView.to_bool 2 st1 = Some (true, st1) ∧
    ObjectView.eq 1 2 st1 = Some (false, st1) ∧
    ObjectView.del 2 st1 =
      Some (tt, State (<[2 := nullptr]> (<[1 := nullptr]> {[ 1 := 42; 2 := 42 ]}))
                      ([] ++ [lv_obj_delete 42; lv_obj_delete 42])).
Proof.
  refine (del_nulls_only_the_view_it_is_called_on
            (State {[ 1 := 42; 2 := 42 ]} []) 1 2 42 _ _ _ _).
  - discriminate.
  - discriminate.
  - reflexivity.
  - reflexivity.
Defined.

(** ** The mixins: which widget a chain of mutators acts on *)

Section Targets.
Context `{LvConf}.

(** X8.  A chain of mixin mutators on a widget wrapper acts on the widget
    of that wrapper only: every engine call the chain makes has the handle
    the wrapper holds as the widget it is made on, whatever other pointers
    ([set_parent], [align_to], [add_style], ...) it is given.  The chain
    makes as many calls as its mutators forward, changes no wrapper object
    and returns the object it started on. *)
Theorem widget_chain_acts_on_its_own_widget (ms : list Widget.mutator)
    (st : state ptr obj_call) (this : Z) (o : ptr) :
  heap st !! this = Some o →
  ∃ cs, chain Widget.invoke ms this st =
          Some (this, State (heap st) (trace st ++ cs)) ∧
        Forall (λ c, obj_call_target c = o) cs ∧
        length cs = sum_list (Widget_forwarded_calls <$> ms).
Proof.
  intros Hthis. revert st Hthis.
  induction ms as [|m ms IH]; intros st Hthis; simpl.
  - exists []. unfold ret. rewrite app_nil_r. split; [now destruct st|].
    split; [constructor|reflexivity].
  - destruct (Widget_targets m st this o Hthis) as (cs & Hcs & Ho & Hn).
    unfold mbind, M_bind, bind. rewrite Hcs.
    destruct (IH (State (heap st) (trace st ++ cs)) Hthis)
      as (cs' & Hcs' & Ho' & Hn').
    exists (cs ++ cs'). rewrite Hcs'. simpl. rewrite app_assoc.
    split; [reflexivity|]. split; [now apply Forall_app|].
    rewrite length_app, Hn, Hn'. reflexivity.
Qed.
End Targets.

Lemma widget_chain_acts_on_its_own_widget_witness :
  ∃ cs, chain (@Widget.invoke lvgl_conf)
          [Widget.Object_ (ObjectMixin.Set_parent 7);
           Widget.Style_ (StyleMixin.Margin 5 0)] 1
          (State {[ 1 := 42; 2 := 7 ]} []) =
        Some (1, State {[ 1 := 42; 2 := 7 ]} ([] ++ cs)) ∧
        Forall (λ c, obj_call_target c = 42) cs ∧
        length cs = 5%nat.
Proof.
  exact (@widget_chain_acts_on_its_own_widget lvgl_conf
           [Widget.Object_ (ObjectMixin.Set_parent 7);
            Widget.Style_ (StyleMixin.Margin 5 0)]
           (State {[ 1 := 42; 2 := 7 ]} []) 1 42 eq_refl).
Defined.

(** ** The shorthands of the fluent interfaces *)

(** X9.  The shorthand setters that set several properties are the chain
    of the setters of those properties, in the order top, bottom, left,
    right, row before column, x before y and width before height:
    [Style::pad_gap] and [Style::margin_all], and [StyleMixin]'s
    [padding_hor], [padding_ver], [gap], [transform_pivot], [margin],
    [margin_hor], [margin_ver] and [part_size] make the engine calls of
    that chain, on every object in every state. *)
Theorem shorthands_are_chains_of_single_setters `{StyleEngine} :
  (∀ (pad this : Z) (st : state lv_style_t style_call),
     Style.pad_gap pad this st =
       chain Style.invoke [Style.Pad_row pad; Style.Pad_column pad] this st) ∧
  (∀ (margin this : Z) (st : state lv_style_t style_call),
     Style.margin_all margin this st =
       chain Style.invoke
         [Style.Margin_top margin; Style.Margin_bottom margin;
          Style.Margin_left margin; Style.Margin_right margin] this st) ∧
  (∀ (pad sel this : Z) (st : state ptr obj_call),
     StyleMixin.padding_hor pad sel this st =
       chain StyleMixin.invoke
         [StyleMixin.Pad_left pad sel; StyleMixin.Pad_right pad sel] this st) ∧
  (∀ (pad sel this : Z) (st : state ptr obj_call),
     StyleMixin.padding_ver pad sel this st =
       chain StyleMixin.invoke
         [StyleMixin.Pad_top pad sel; StyleMixin.Pad_bottom pad sel] this st) ∧
  (∀ (g sel this : Z) (st : state ptr obj_call),
     StyleMixin.gap g sel this st =
       chain StyleMixin.invoke
         [StyleMixin.Pad_row g sel; StyleMixin.Pad_column g sel] this st) ∧
  (∀ (x y sel this : Z) (st : state ptr obj_call),
     StyleMixin.transform_pivot x y sel this st =
       chain StyleMixin.invoke
         [StyleMixin.Transform_pivot_x x sel;
          StyleMixin.Transform_pivot_y y sel] this st) ∧
  (∀ (m sel this : Z) (st : state ptr obj_call),
     StyleMixin.margin m sel this st =
       chain StyleMixin.invoke
         [StyleMixin.Margin_top m sel; StyleMixin.Margin_bottom m sel;
          StyleMixin.Margin_left m sel; StyleMixin.Margin_right m sel]
         this st) ∧
  (∀ (m sel this : Z) (st : state ptr obj_call),
     StyleMixin.margin_hor m sel this st =
       chain StyleMixin.invoke
         [StyleMixin.Margin_left m sel; StyleMixin.Margin_right m sel]
         this st) ∧
  (∀ (m sel this : Z) (st : state ptr obj_call),
     StyleMixin.margin_ver m sel this st =
       chain StyleMixin.invoke
         [StyleMixin.Margin_top m sel; StyleMixin.Margin_bottom m sel]
         this st) ∧
  (∀ (w h sel this : Z) (st : state ptr obj_call),
     StyleMixin.part_size w h sel this st =
       chain StyleMixin.invoke
         [StyleMixin.Part_width w sel; StyleMixin.Part_height h sel] this st).
Proof.
  repeat apply conj; intros.
  all: destruct (heap st !! this) eqn:Hthis; exec; reflexivity.
Qed.

(** X10.  The convenience mutators of [ObjectMixin] are the general ones at
    a fixed argument, on every object in every state: [visible(true)] is
    [show()] and [visible(false)] is [hide()], which add and remove
    [LV_OBJ_FLAG_HIDDEN]; [clickable(v)] and [scrollable(v)] add their flag
    for [true] and remove it for [false]; [fill_width()], [fill_height()]
    and [fill()] set 100 percent; [size_content()] and [layout_none()] pass
    [LV_SIZE_CONTENT] and [LV_LAYOUT_NONE]. *)
Theorem convenience_mutators_are_the_general_ones `{LvConf}
    (this : Z) (st : state ptr obj_call) :
  ObjectMixin.visible true this st = ObjectMixin.show this st ∧
  ObjectMixin.visible false this st = ObjectMixin.hide this st ∧
  ObjectMixin.hide this st =
    ObjectMixin.add_flag LV_OBJ_FLAG_HIDDEN this st ∧
  ObjectMixin.show this st =
    ObjectMixin.remove_flag LV_OBJ_FLAG_HIDDEN this st ∧
  (∀ v : bool,
     ObjectMixin.clickable v this st =
       if v then ObjectMixin.add_flag LV_OBJ_FLAG_CLICKABLE this st
       else ObjectMixin.remove_flag LV_OBJ_FLAG_CLICKABLE this st) ∧
  (∀ v : bool,
     ObjectMixin.scrollable v this st =
       if v then ObjectMixin.add_flag LV_OBJ_FLAG_SCROLLABLE this st
       else ObjectMixin.remove_flag LV_OBJ_FLAG_SCROLLABLE this st) ∧
  ObjectMixin.fill_width this st = ObjectMixin.width_pct 100 this st ∧
  ObjectMixin.fill_height this st = ObjectMixin.height_pct 100 this st ∧
  ObjectMixin.fill this st =
    ObjectMixin.size (LV_PCT 100) (LV_PCT 100) this st ∧
  ObjectMixin.size_content this st =
    ObjectMixin.size LV_SIZE_CONTENT LV_SIZE_CONTENT this st ∧
  ObjectMixin.layout_none this st =
    ObjectMixin.layout LV_LAYOUT_NONE this st.
Proof.
  repeat apply conj; try intros [|].
  all: destruct (heap st !! this) eqn:Hthis; exec; reflexivity.
Qed.

(** ** draw/draw_buf.hpp: the life of a buffer *)

Section DrawBufLifetime.
Context `{Engine draw_buf_call} `{DrawBufMemory}.

Lemma DrawBuf_operation_cases (op : DrawBuf.operation)
    (st : state ptr draw_buf_call) (this : Z) (b : ptr)
    (P : list draw_buf_call → Prop) :
  heap st !! this = Some b →
  DrawBufLife.sources_alive (heap st) [op] →
  P [] →
  (∀ c, DrawBufLife.allocates_or_frees c = false → P [c]) →
  ∃ v cs, DrawBuf.invoke op this st =
            Some (v, State (heap st) (trace st ++ cs)) ∧ P cs.
Proof.
  intros Hthis Hsrc Hnil Hone. apply Forall_cons_1 in Hsrc as [Hsrc _].
  destruct op; simpl in Hsrc;
    try match type of Hsrc with is_Some _ => destruct Hsrc as [sb Hsrc] end.
  all: exec.
  all: destruct (non_null b); exec.
  all: try (destruct (non_null sb); exec).
  all: try (destruct (non_null img); exec).
  all: first [ eexists _, [_]; split; [reflexivity|apply Hone; reflexivity]
             | eexists _, []; rewrite app_nil_r;
               split; [now destruct st|exact Hnil] ].
Qed.

Lemma DrawBuf_operation_spec (op : DrawBuf.operation)
    (st : state ptr draw_buf_call) (this : Z) (b : ptr) :
  heap st !! this = Some b →
  DrawBufLife.sources_alive (heap st) [op] →
  ∃ v cs, DrawBuf.invoke op this st =
            Some (v, State (heap st) (trace st ++ cs)) ∧
          (length cs ≤ 1)%nat ∧
          Forall (λ c, DrawBufLife.allocates_or_frees c = false) cs.
Proof.
  intros Hthis Hsrc.
  apply (DrawBuf_operation_cases op st this b
           (λ cs, (length cs ≤ 1)%nat ∧
                  Forall (λ c, DrawBufLife.allocates_or_frees c = false) cs)
           Hthis Hsrc).
  - split; [simpl; lia|constructor].
  - intros c Hc. split; [simpl; lia|]. now repeat constructor.
Qed.

Lemma DrawBufLife_invoke_all_spec (ops : list DrawBuf.operation)
    (st : state ptr draw_buf_call) (this : Z) (b : ptr) :
  heap st !! this = Some b →
  DrawBufLife.sources_alive (heap st) ops →
  ∃ vs cs, DrawBufLife.invoke_all ops this st =
             Some (vs, State (heap st) (trace st ++ cs)) ∧
           length vs = length ops ∧
           (length cs ≤ length ops)%nat ∧
           Forall (λ c, DrawBufLife.allocates_or_frees c = false) cs.
Proof.
  intros Hthis. revert st Hthis.
  induction ops as [|op ops IH]; intros st Hthis Hsrc; simpl.
  - exists [], []. unfold ret. rewrite app_nil_r.
    split; [now destruct st|]. split; [reflexivity|].
    split; [simpl; lia|constructor].
  - apply Forall_cons_1 in Hsrc as [Hop Hops].
    destruct (DrawBuf_operation_spec op st this b Hthis)
      as (v & cs & Hrun & Hn & Hk); [now apply Forall_cons_2|].
    unfold mbind, M_bind, bind. rewrite Hrun.
    destruct (IH (State (heap st) (trace st ++ cs)) Hthis Hops)
      as (vs & cs' & Hrun' & Hvs & Hn' & Hk').
    exists (v :: vs), (cs ++ cs'). rewrite Hrun'. unfold ret. simpl.
    rewrite app_assoc. split; [reflexivity|].
    split; [now rewrite Hvs|].
    split; [rewrite length_app; lia|now apply Forall_app].
Qed.

Lemma DrawBufLife_invoke_all_null (ops : list DrawBuf.operation)
    (st : state ptr draw_buf_call) (this : Z) :
  heap st !! this = Some nullptr →
  DrawBufLife.invoke_all ops this st =
    Some ((λ op, DrawBuf.on_null op this) <$> ops, st).
Proof.
  intros Hthis. induction ops as [|op ops IH]; simpl; [reflexivity|].
  unfold mbind, M_bind, bind. rewrite (DrawBuf_guarded op st this Hthis).
  now rewrite IH.
Qed.

Lemma DrawBufLife_after_construction (ops : list DrawBuf.operation)
    (st : state ptr draw_buf_call) (this : Z) (buf : ptr)
    (tr : list draw_buf_call) :
  heap st !! this = None →
  DrawBufLife.sources_alive (heap st) ops →
  ∃ vs cs,
    (vs ← DrawBufLife.invoke_all ops this; DrawBuf.dtor this;; ret vs)
      (State (<[this := buf]> (heap st)) tr) =
      Some (vs, State (heap st)
                      (tr ++ cs
                         ++ (if non_null buf then [lv_draw_buf_destroy buf]
                             else []))) ∧
    length vs = length ops ∧
    (length cs ≤ length ops)%nat ∧
    Forall (λ c, DrawBufLife.allocates_or_frees c = false) cs ∧
    (buf = nullptr →
     cs = [] ∧ vs = (λ op, DrawBuf.on_null op this) <$> ops).
Proof.
  intros Hfresh Hsrc.
  set (st0 := State (<[this := buf]> (heap st)) tr).
  assert (Hthis0 : heap st0 !! this = Some buf) by apply lookup_insert_eq.
  assert (Hsrc0 : DrawBufLife.sources_alive (heap st0) ops).
  { unfold DrawBufLife.sources_alive in *.
    eapply Forall_impl; [exact Hsrc|]. intros [] Hop; try exact I.
    cbn [heap st0]. destruct (decide (src = this)) as [->|Hne].
    - rewrite lookup_insert_eq. eauto.
    - now rewrite lookup_insert_ne by congruence. }
  destruct (DrawBufLife_invoke_all_spec ops st0 this buf Hthis0 Hsrc0)
    as (vs & cs & Hrun & Hvs & Hn & Hk).
  assert (Hnull : buf = nullptr →
            cs = [] ∧ vs = (λ op, DrawBuf.on_null op this) <$> ops).
  { intros Hbuf. rewrite Hbuf in Hthis0.
    rewrite (DrawBufLife_invoke_all_null ops st0 this Hthis0) in Hrun.
    injection Hrun as Hvs' Htr. split; [|now symmetry].
    apply (f_equal length) in Htr. rewrite !length_app in Htr.
    destruct cs; [reflexivity|]. simpl in Htr. lia. }
  exists vs, cs. repeat (split; [|try assumption]); try assumption.
  unfold mbind, M_bind, bind at 1. rewrite Hrun. unfold bind.
  erewrite DrawBuf_dtor_spec by exact Hthis0.
  unfold ret. cbn [heap trace st0].
  rewrite (delete_insert_fresh _ _ _ Hfresh).
  now rewrite <- !app_assoc.
Qed.

(** X11.  A [DrawBuf] that is not moved from or move-assigned to between
    its construction and its destruction keeps the buffer the engine
    created for it and no other.  Whichever of its other member functions
    (the 22 of [DrawBuf.operation]) are called on it in between, the first
    engine call of its life is [lv_draw_buf_create], the last is
    [lv_draw_buf_destroy] on the very buffer that call returned, the calls
    in between (at most one per member function) neither create nor
    destroy a buffer, and the storage of the object is free again at the
    end.  If the engine could not create the buffer (it answered
    [nullptr]), the object is a null buffer for its whole life: it makes
    no further engine call at all, not even in the destructor, and each of
    these member functions returns its default. *)
Theorem drawbuf_owns_the_created_buffer_for_life
    (st : state ptr draw_buf_call) (this : Z) (w h cf stride : Z)
    (ops : list DrawBuf.operation) :
  heap st !! this = None →
  DrawBufLife.sources_alive (heap st) ops →
  let create := lv_draw_buf_create w h cf stride in
  let buf := answer_ptr (trace st) create in
  ∃ vs cs,
    DrawBufLife.life this w h cf stride ops st =
      Some (vs, State (heap st)
                      (trace st ++ create :: cs
                         ++ (if non_null buf then [lv_draw_buf_destroy buf]
                             else []))) ∧
    length vs = length ops ∧
    (length cs ≤ length ops)%nat ∧
    Forall (λ c, DrawBufLife.allocates_or_frees c = false) cs ∧
    (buf = nullptr →
     cs = [] ∧ vs = (λ op, DrawBuf.on_null op this) <$> ops).
Proof.
  intros Hfresh Hsrc create buf.
  destruct (DrawBufLife_after_construction ops st this buf
              (trace st ++ [create]) Hfresh Hsrc)
    as (vs & cs & Hrun & Hrest).
  exists vs, cs. split; [|exact Hrest].
  unfold DrawBufLife.life, DrawBuf.ctor.
  unfold mbind, M_bind, bind at 1. unfold bind at 1, ask at 1, construct.
  cbn [heap trace]. rewrite Hfresh. fold create. fold buf.
  unfold mbind, M_bind in Hrun. rewrite Hrun.
  now rewrite <- app_assoc.
Qed.

(** X12.  The destructor of a [DrawBuf] does not tell a wrapped buffer
    from a created one.  For a [DrawBuf] constructed with [DrawBuf::wrap]
    around an existing buffer, and not moved from or move-assigned to
    before its destruction: the constructor makes no engine call, the
    other member functions (the 22 of [DrawBuf.operation]) called on it
    neither create nor destroy a buffer, and the destructor calls
    [lv_draw_buf_destroy] on the wrapped buffer, as the last engine call
    of the object's life; only a wrapped null pointer is not destroyed.
    The source's comment on this constructor reads "non-owning"; the
    calls made are these nonetheless. *)
Theorem wrapped_buffer_is_destroyed_with_the_wrapper
    (st : state ptr draw_buf_call) (this : Z) (buf : ptr)
    (ops : list DrawBuf.operation) :
  heap st !! this = None →
  DrawBufLife.sources_alive (heap st) ops →
  ∃ vs cs,
    DrawBufLife.wrap_life this buf ops st =
      Some (vs, State (heap st)
                      (trace st ++ cs
                         ++ (if non_null buf then [lv_draw_buf_destroy buf]
                             else []))) ∧
    length vs = length ops ∧
    (length cs ≤ length ops)%nat ∧
    Forall (λ c, DrawBufLife.allocates_or_frees c = false) cs ∧
    (buf = nullptr →
     cs = [] ∧ vs = (λ op, DrawBuf.on_null op this) <$> ops).
Proof.
  intros Hfresh Hsrc.
  destruct (DrawBufLife_after_construction ops st this buf (trace st)
              Hfresh Hsrc) as (vs & cs & Hrun & Hrest).
  exists vs, cs. split; [|exact Hrest].
  unfold DrawBufLife.wrap_life, DrawBuf.ctor_wrap.
  unfold mbind, M_bind, bind at 1. unfold construct. rewrite Hfresh.
  exact Hrun.
Qed.
End DrawBufLifetime.

Lemma drawbuf_owns_the_created_buffer_for_life_witness :
  let E := obliging_engine draw_buf_call in
  let Mem := {| draw_buf_at := λ _ _, Build_lv_draw_buf_t
                                       (Build_lv_image_header_t 0 0 0 0) 0 0;
                LV_COLOR_FORMAT_UNKNOWN := 0 |} in
  let ops := [DrawBuf.Width; DrawBuf.Clear nullptr; DrawBuf.Copy nullptr 2 nullptr] in
  let create := lv_draw_buf_create 200 200 16 0 in
  let buf := @answer_ptr _ E [] create in
  ∃ vs cs,
    @DrawBufLife.life E Mem 1 200 200 16 0 ops (State {[ 2 := 7 ]} []) =
      Some (vs, State {[ 2 := 7 ]}
                      ([] ++ create :: cs
                         ++ (if non_null buf then [lv_draw_buf_destroy buf]
                             else []))) ∧
    length vs = length ops ∧
    (length cs ≤ length ops)%nat ∧
    Forall (λ c, DrawBufLife.allocates_or_frees c = false) cs ∧
    (buf = nullptr →
     cs = [] ∧ vs = (λ op, @DrawBuf.on_null Mem op 1) <$> ops).
Proof.
  intros E Mem ops create buf.
  refine (@drawbuf_owns_the_created_buffer_for_life E Mem
            (State {[ 2 := 7 ]} []) 1 200 200 16 0 ops _ _).
  - reflexivity.
  - repeat constructor. exists 7. reflexivity.
Defined.

Lemma wrapped_buffer_is_destroyed_with_the_wrapper_witness :
  let E := obliging_engine draw_buf_call in
  let Mem := {| draw_buf_at := λ _ _, Build_lv_draw_buf_t
                                       (Build_lv_image_header_t 0 0 0 0) 0 0;
                LV_COLOR_FORMAT_UNKNOWN := 0 |} in
  let ops := [DrawBuf.Height; DrawBuf.Premultiply] in
  ∃ vs cs,
    @DrawBufLife.wrap_life E Mem 1 42 ops (State ∅ []) =
      Some (vs, State ∅
                      ([] ++ cs
                         ++ (if non_null 42 then [lv_draw_buf_destroy 42]
                             else []))) ∧
    length vs = length ops ∧
    (length cs ≤ length ops)%nat ∧
    Forall (λ c, DrawBufLife.allocates_or_frees c = false) cs ∧
    (42 = nullptr →
     cs = [] ∧ vs = (λ op, @DrawBuf.on_null Mem op 1) <$> ops).
Proof.
  intros E Mem ops.
  refine (@wrapped_buffer_is_destroyed_with_the_wrapper E Mem
            (State ∅ []) 1 42 ops _ _).
  - reflexivity.
  - repeat constructor.
Defined.



(** X14.  The member functions that need a second pointer call the engine
    only when both pointers are set: [DrawBuf::copy] when the buffer and
    the buffer of the source are non-null, [DrawBuf::to_image] and
    [from_image] when the buffer and the image descriptor are, and
    [DrawTaskView::get_area] when the task and the area are.  Otherwise
    they make no engine call; [from_image] then returns
    [LV_RESULT_INVALID], and with both set it returns what the engine
    answers. *)
Theorem two_pointer_calls_need_both `{Engine draw_buf_call}
    `{Engine draw_task_call} :
  (∀ (st : state ptr draw_buf_call) (this src : Z)
     (b sb dest_area src_area : ptr),
     heap st !! this = Some b → heap st !! src = Some sb →
     DrawBuf.copy dest_area src src_area this st =
       Some (this,
             State (heap st)
                   (trace st ++
                      if non_null b && non_null sb
                      then [lv_draw_buf_copy b dest_area sb src_area]
                      else []))) ∧
  (∀ (st : state ptr draw_buf_call) (this : Z) (b img : ptr),
     heap st !! this = Some b →
     DrawBuf.to_image this img st =
       Some (tt, State (heap st)
                       (trace st ++
                          if non_null b && non_null img
                          then [lv_draw_buf_to_image b img] else [])) ∧
     DrawBuf.from_image this img st =
       Some (if non_null b && non_null img
             then answer_result (trace st) (lv_draw_buf_from_image b img)
             else LV_RESULT_INVALID,
             State (heap st)
                   (trace st ++
                      if non_null b && non_null img
                      then [lv_draw_buf_from_image b img] else []))) ∧
  (∀ (st : state ptr draw_task_call) (this : Z) (t area : ptr),
     heap st !! this = Some t →
     DrawTaskView.get_area this area st =
       Some (tt, State (heap st)
                       (trace st ++
                          if non_null t && non_null area
                          then [lv_draw_task_get_area t area] else []))).
Proof.
  repeat apply conj.
  - intros st this src b sb dest_area src_area Hthis Hsrc.
    unfold DrawBuf.copy. run. rewrite Hthis.
    destruct (non_null b); simpl; [rewrite Hsrc; destruct (non_null sb)|];
      simpl; rewrite ?app_nil_r; now destruct st.
  - intros st this b img Hthis. split.
    + unfold DrawBuf.to_image. run. rewrite Hthis.
      destruct (non_null b), (non_null img); simpl; rewrite ?app_nil_r;
        now destruct st.
    + unfold DrawBuf.from_image. run. rewrite Hthis.
      destruct (non_null b), (non_null img); simpl; rewrite ?app_nil_r;
        now destruct st.
  - intros st this t area Hthis.
    unfold DrawTaskView.get_area. run. rewrite Hthis.
    destruct (non_null t), (non_null area); simpl; rewrite ?app_nil_r;
      now destruct st.
Qed.

Lemma two_pointer_calls_need_both_witness :
  DrawBuf.copy nullptr 2 nullptr 1 (State {[ 1 := 42; 2 := nullptr ]} []) =
    Some (1, State {[ 1 := 42; 2 := nullptr ]} ([] ++ [])).
Proof.
  exact (proj1 (@two_pointer_calls_need_both (obliging_engine draw_buf_call)
                  (obliging_engine draw_task_call))
           (State {[ 1 := 42; 2 := nullptr ]} []) 1 2 42 nullptr nullptr nullptr
           eq_refl eq_refl).
Defined.

(** ** core/style.hpp: the life of a style *)

Section StyleLifetime.
Context `{StyleEngine}.

Lemma Style_chain_forwards (ms : list Style.mutator)
    (st : state lv_style_t style_call) (this : Z) (s : lv_style_t) :
  heap st !! this = Some s →
  ∃ fs, chain Style.invoke ms this st =
          Some (this,
                State (<[this := foldl (λ s f, lv_style_effect f s) s fs]>
                         (heap st))
                      (trace st ++ (StyleCall this <$> fs))) ∧
        length fs = sum_list (Style.forwarded_calls <$> ms).
Proof.
  intros Hthis. revert st s Hthis.
  induction ms as [|m ms IH]; intros st s Hthis; simpl.
  - exists []. unfold ret. simpl.
    rewrite app_nil_r, insert_id by exact Hthis. split; [now destruct st|].
    reflexivity.
  - destruct (Style_forwards m st this s Hthis) as (fs & Hfs & Hn).
    unfold mbind, M_bind, bind. rewrite Hfs.
    edestruct (IH (State (<[this:=foldl (λ s f, lv_style_effect f s) s fs]>
                            (heap st))
                         (trace st ++ (StyleCall this <$> fs))))
      as (fs' & Hfs' & Hn'); [apply lookup_insert_eq|].
    exists (fs ++ fs'). rewrite Hfs'. cbn [heap trace].
    rewrite insert_insert_eq, foldl_app, fmap_app, <- app_assoc.
    split; [reflexivity|]. rewrite length_app, Hn, Hn'. reflexivity.
Qed.

(** X15.  From its construction to its destruction a [Style] passes one
    record only to the engine, its own: the engine calls of its life are
    [lv_style_init] first, then the calls its setters forward, in the order
    of the chain, then [lv_style_reset] last, every one of them on the
    address of the object; and the storage of the object is free again at
    the end, whatever it held before the construction. *)
Theorem style_life_is_init_setters_reset
    (st : state lv_style_t style_call) (this : Z) (uninit : lv_style_t)
    (ms : list Style.mutator) :
  heap st !! this = None →
  ∃ fs, StyleLife.life this uninit ms st =
          Some (tt, State (heap st)
                          (trace st ++
                             (StyleCall this <$>
                                lv_style_init :: fs ++ [lv_style_reset]))) ∧
        length fs = sum_list (Style.forwarded_calls <$> ms).
Proof.
  intros Hfresh.
  set (s0 := lv_style_effect lv_style_init uninit).
  assert (Hctor : Style.ctor this uninit st =
            Some (tt, State (<[this := s0]> (heap st))
                            (trace st ++ [StyleCall this lv_style_init]))).
  { unfold Style.ctor, Style.engine. run. rewrite Hfresh. lookups.
    now rewrite insert_insert_eq. }
  destruct (Style_chain_forwards ms
              (State (<[this := s0]> (heap st))
                     (trace st ++ [StyleCall this lv_style_init]))
              this s0 (lookup_insert_eq _ _ _)) as (fs & Hchain & Hn).
  exists fs. split; [|exact Hn].
  unfold StyleLife.life. unfold mbind, M_bind, bind at 1. rewrite Hctor.
  unfold bind. rewrite Hchain.
  erewrite Style_dtor_spec by (cbn [heap]; apply lookup_insert_eq).
  cbn [heap trace]. rewrite insert_insert_eq.
  rewrite (delete_insert_fresh _ _ _ Hfresh).
  rewrite <- !app_assoc. simpl. now rewrite fmap_app.
Qed.

(** X16.  A moved-from [Style] can be used again without any effect on
    the style that was moved out of it: after [Style dst(std::move(src))],
    whatever setters are called on [src], the destination still holds
    exactly the record the source held before the move, and every engine
    call made ([lv_style_init] by the move, then those of the setters) is
    on the record of [src]. *)
Theorem moved_from_style_is_independent
    (st : state lv_style_t style_call) (dst src : Z) (s : lv_style_t)
    (ms : list Style.mutator) :
  heap st !! src = Some s →
  heap st !! dst = None →
  ∃ fs st',
    StyleLife.reuse_after_move dst src ms st = Some (src, st') ∧
    heap st' !! dst = Some s ∧
    heap st' !! src =
      Some (foldl (λ s f, lv_style_effect f s)
              (lv_style_effect lv_style_init s) fs) ∧
    (∀ other, other ≠ src → other ≠ dst →
       heap st' !! other = heap st !! other) ∧
    trace st' = trace st ++ (StyleCall src <$> lv_style_init :: fs) ∧
    length fs = sum_list (Style.forwarded_calls <$> ms).
Proof.
  intros Hsrc Hfresh.
  assert (Hne : dst ≠ src) by congruence.
  edestruct (Style_chain_forwards ms
               (State (<[src := lv_style_effect lv_style_init s]>
                         (<[dst := s]> (heap st)))
                      (trace st ++ [StyleCall src lv_style_init])) src)
    as (fs & Hchain & Hn); [apply lookup_insert_eq|].
  eexists fs, _. split.
  - unfold StyleLife.reuse_after_move. unfold mbind, M_bind, bind.
    rewrite (Style_move_ctor_spec st dst src s Hsrc Hfresh). exact Hchain.
  - cbn [heap trace]. split; [|split; [|split; [|split]]].
    + now rewrite !lookup_insert_ne, lookup_insert_eq by congruence.
    + apply lookup_insert_eq.
    + intros other Hs Hd. now rewrite !lookup_insert_ne by congruence.
    + now rewrite <- app_assoc.
    + exact Hn.
Qed.
End StyleLifetime.

Lemma style_life_is_init_setters_reset_witness :
  ∃ fs, @StyleLife.life recording_style_engine 1 [lv_style_set_radius 9]
          [Style.Radius 3; Style.Margin_all 5] (State ∅ []) =
        Some (tt, State ∅
                        ([] ++ (StyleCall 1 <$>
                                  lv_style_init :: fs ++ [lv_style_reset]))) ∧
        length fs = 5%nat.
Proof.
  exact (@style_life_is_init_setters_reset recording_style_engine (State ∅ [])
           1 [lv_style_set_radius 9] [Style.Radius 3; Style.Margin_all 5]
           eq_refl).
Defined.

Lemma moved_from_style_is_independent_witness :
  ∃ fs st',
    @StyleLife.reuse_after_move recording_style_engine 1 2
        [Style.Radius 3; Style.Reset_]
        (State {[ 2 := [lv_style_set_bg_opa 255] ]} []) = Some (2, st') ∧
    heap st' !! 1 = Some [lv_style_set_bg_opa 255] ∧
    heap st' !! 2 =
      Some (foldl (λ s f, recording_style_effect f s)
              (recording_style_effect lv_style_init [lv_style_set_bg_opa 255])
              fs) ∧
    (∀ other, other ≠ 2 → other ≠ 1 →
       heap st' !! other =
         ({[ 2 := [lv_style_set_bg_opa 255] ]} : gmap Z (list style_fn))
           !! other) ∧
    trace st' = [] ++ (StyleCall 2 <$> lv_style_init :: fs) ∧
    length fs = 3%nat.
Proof.
  exact (@moved_from_style_is_independent recording_style_engine
           (State {[ 2 := [lv_style_set_bg_opa 255] ]} []) 1 2
           [lv_style_set_bg_opa 255] [Style.Radius 3; Style.Reset_]
           eq_refl eq_refl).
Defined.

(** ** The descriptor builders: what the setters assign *)

Lemma assigns_cons (d : lv_dsc) (kv : string * member)
    (kvs : list (string * member)) :
  assigns d (kv :: kvs) = assigns (<[kv.1 := kv.2]> d) kvs.
Proof. reflexivity. Qed.

Lemma assigns_lookup_notin (kvs : list (string * member)) (d : lv_dsc)
    (k : string) :
  k ∉ kvs.*1 → assigns d kvs !! k = d !! k.
Proof.
  revert d. induction kvs as [|[k' v] kvs IH]; intros d Hk; [reflexivity|].
  apply not_elem_of_cons in Hk as [Hne Hk].
  rewrite assigns_cons, IH by exact Hk. simpl.
  apply lookup_insert_ne. simpl in Hne. congruence.
Qed.

Lemma assigns_lookup_in (kvs : list (string * member)) (d d' : lv_dsc)
    (k : string) :
  k ∈ kvs.*1 → assigns d kvs !! k = assigns d' kvs !! k.
Proof.
  revert d d'. induction kvs as [|[k' v] kvs IH]; intros d d' Hk.
  - now apply elem_of_nil in Hk.
  - rewrite !assigns_cons. destruct (decide (k ∈ kvs.*1)) as [Hin|Hnin].
    + now apply IH.
    + rewrite !assigns_lookup_notin by assumption. simpl in *.
      apply elem_of_cons in Hk as [->|Hk]; [|contradiction].
      now rewrite !lookup_insert_eq.
Qed.

Lemma dom_assigns (kvs : list (string * member)) (d : lv_dsc) :
  dom (assigns d kvs) = dom d ∪ list_to_set kvs.*1.
Proof.
  revert d. induction kvs as [|[k v] kvs IH]; intros d.
  - simpl. now rewrite union_empty_r_L.
  - rewrite assigns_cons, IH. simpl. rewrite dom_insert_L.
    now rewrite (union_comm_L {[k]} (dom d)), union_assoc_L.
Qed.

Lemma assigns_comm (kvs1 kvs2 : list (string * member)) (d : lv_dsc) :
  (∀ k, k ∈ kvs1.*1 → k ∉ kvs2.*1) →
  assigns (assigns d kvs1) kvs2 = assigns (assigns d kvs2) kvs1.
Proof.
  intros Hdisj. apply map_eq. intros k.
  destruct (decide (k ∈ kvs1.*1)) as [H1|H1].
  - rewrite (assigns_lookup_notin kvs2) by now apply Hdisj.
    now apply assigns_lookup_in.
  - rewrite (assigns_lookup_notin kvs1 (assigns d kvs2)) by assumption.
    destruct (decide (k ∈ kvs2.*1)) as [H2|H2].
    + now apply assigns_lookup_in.
    + now rewrite !assigns_lookup_notin by assumption.
Qed.

Lemma assigns_override (kvs1 kvs2 : list (string * member)) (d : lv_dsc) :
  (∀ k, k ∈ kvs1.*1 → k ∈ kvs2.*1) →
  assigns (assigns d kvs1) kvs2 = assigns d kvs2.
Proof.
  intros Hsub. apply map_eq. intros k.
  destruct (decide (k ∈ kvs2.*1)) as [H2|H2].
  - now apply assigns_lookup_in.
  - rewrite !assigns_lookup_notin; [reflexivity|assumption| |assumption].
    intros H1. apply H2. now apply Hsub.
Qed.

Section Assigning.
Context {Mu : Type} (invoke : Mu → method lv_dsc dsc_call).
Hypothesis Hinvoke : assigning invoke.

Lemma assigning_written (m : Mu) :
  ∃ kvs, (∀ (st : state lv_dsc dsc_call) (this : Z),
            invoke m this st =
              match heap st !! this with
              | Some d => Some (this, State (<[this := assigns d kvs]> (heap st))
                                            (trace st))
              | None => None
              end) ∧
         written invoke m = list_to_set kvs.*1.
Proof.
  destruct (Hinvoke m) as (kvs & Hrun). exists kvs. split; [exact Hrun|].
  unfold written. rewrite Hrun. cbn [heap].
  rewrite lookup_singleton_eq. cbn [heap]. rewrite lookup_insert_eq.
  now rewrite dom_assigns, dom_empty_L, union_empty_l_L.
Qed.

Lemma assigning_only_assign : setters_only_assign invoke.
Proof.
  intros m st this d Hthis.
  destruct (assigning_written m) as (kvs & Hrun & Hw).
  exists (assigns d kvs). rewrite Hrun, Hthis. split; [reflexivity|].
  split.
  - now rewrite dom_assigns, Hw.
  - intros k Hk. apply assigns_lookup_notin.
    now rewrite Hw, elem_of_list_to_set in Hk.
Qed.

Lemma assigning_commute : setters_commute invoke.
Proof.
  intros m1 m2 st this Hdisj.
  destruct (assigning_written m1) as (kvs1 & Hrun1 & Hw1).
  destruct (assigning_written m2) as (kvs2 & Hrun2 & Hw2).
  cbn [chain]. unfold mbind, M_bind, bind, ret.
  rewrite Hrun1, Hrun2. destruct (heap st !! this) as [d|]; [|reflexivity].
  rewrite Hrun1, Hrun2. cbn [heap trace]. rewrite !lookup_insert_eq.
  rewrite !insert_insert_eq. do 3 f_equal. f_equal.
  apply assigns_comm. intros k Hk1 Hk2.
  rewrite Hw1, Hw2, elem_of_disjoint in Hdisj.
  apply (Hdisj k); now apply elem_of_list_to_set.
Qed.

Lemma assigning_last_wins : last_setter_wins invoke.
Proof.
  intros m1 m2 st this Hsub.
  destruct (assigning_written m1) as (kvs1 & Hrun1 & Hw1).
  destruct (assigning_written m2) as (kvs2 & Hrun2 & Hw2).
  cbn [chain]. unfold mbind, M_bind, bind, ret.
  rewrite Hrun1, Hrun2. destruct (heap st !! this) as [d|]; [|reflexivity].
  rewrite Hrun2. cbn [heap trace]. rewrite !lookup_insert_eq.
  rewrite !insert_insert_eq. do 3 f_equal. f_equal.
  apply assigns_override. intros k Hk1.
  rewrite Hw1, Hw2, elem_of_subseteq in Hsub.
  specialize (Hsub k). rewrite !elem_of_list_to_set in Hsub. auto.
Qed.
End Assigning.

(** The assignments a record was built with, read off the record. *)
Ltac assignments_of t d :=
  lazymatch t with
  | d => constr:(@nil (string * member))
  | <[?k := ?v]> ?t' =>
      let l := assignments_of t' d in constr:(l ++ [(k, v)])
  end.

Ltac run_assignments :=
  reduce_body;
  repeat (first
    [ rewrite lookup_insert_eq
    | match goal with
      | Hl : heap ?st !! ?k = _ |- context [heap ?st !! ?k] => rewrite Hl
      end ];
    reduce_body).

Ltac assigning_step :=
  let m := fresh "m" in let st := fresh "st" in let this := fresh "this" in
  let Hthis := fresh "Hthis" in
  intros m; destruct m; eexists; intros st this;
  (destruct (heap st !! this) eqn:Hthis; run_assignments;
   rewrite ?insert_insert_eq;
   [ lazymatch goal with
     | |- Some (_, State (<[_ := ?t]> _) _) =
          Some (_, State (<[_ := foldl _ ?d ?kvs]> _) _) =>
         let l := assignments_of t d in unify kvs l
     end; reflexivity
   | reflexivity ]).

Lemma FillDsc_assigning : assigning FillDsc.invoke.
Proof. assigning_step. Qed.

Lemma BorderDsc_assigning : assigning BorderDsc.invoke.
Proof. assigning_step. Qed.

Lemma BoxShadowDsc_assigning : assigning BoxShadowDsc.invoke.
Proof. assigning_step. Qed.

Lemma RectDsc_assigning : assigning RectDsc.invoke.
Proof. assigning_step. Qed.

Lemma LineDsc_assigning : assigning LineDsc.invoke.
Proof. assigning_step. Qed.

Lemma ArcDsc_assigning : assigning ArcDsc.invoke.
Proof. assigning_step. Qed.

Lemma TriangleDsc_assigning : assigning TriangleDsc.invoke.
Proof. assigning_step. Qed.

Lemma ImageDsc_assigning : assigning ImageDsc.invoke.
Proof. assigning_step. Qed.

Lemma LabelDsc_assigning (no_sel : Z) : assigning (LabelDsc.invoke no_sel).
Proof. assigning_step. Qed.

Lemma LetterDsc_assigning : assigning LetterDsc.invoke.
Proof. assigning_step. Qed.

(** X17.  A setter of any of the ten descriptor builders only assigns:
    it makes no engine call, leaves every other object alone, and in the
    record of its builder every member it assigns is set afterwards while
    every other member keeps its value, set or not. *)
Theorem builder_setters_only_assign (LV_DRAW_LABEL_NO_TXT_SEL : Z) :
  setters_only_assign FillDsc.invoke ∧
  setters_only_assign BorderDsc.invoke ∧
  setters_only_assign BoxShadowDsc.invoke ∧
  setters_only_assign RectDsc.invoke ∧
  setters_only_assign LineDsc.invoke ∧
  setters_only_assign ArcDsc.invoke ∧
  setters_only_assign TriangleDsc.invoke ∧
  setters_only_assign ImageDsc.invoke ∧
  setters_only_assign (LabelDsc.invoke LV_DRAW_LABEL_NO_TXT_SEL) ∧
  setters_only_assign LetterDsc.invoke.
Proof.
  repeat apply conj; apply assigning_only_assign.
  - apply FillDsc_assigning.
  - apply BorderDsc_assigning.
  - apply BoxShadowDsc_assigning.
  - apply RectDsc_assigning.
  - apply LineDsc_assigning.
  - apply ArcDsc_assigning.
  - apply TriangleDsc_assigning.
  - apply ImageDsc_assigning.
  - apply LabelDsc_assigning.
  - apply LetterDsc_assigning.
Qed.

Lemma builder_setters_only_assign_witness :
  let d : lv_dsc := {[ "width"%string := MInt 3; "dash_gap"%string := MInt 9 ]} in
  ∃ d', LineDsc.invoke (LineDsc.Dash 4 2) 1
          (State {[ 1 := d ]} [lv_draw_line_dsc_init 1]) =
        Some (1, State (<[1 := d']> {[ 1 := d ]}) [lv_draw_line_dsc_init 1]) ∧
        dom d' = dom d ∪ written LineDsc.invoke (LineDsc.Dash 4 2) ∧
        ∀ k, k ∉ written LineDsc.invoke (LineDsc.Dash 4 2) → d' !! k = d !! k.
Proof.
  intros d.
  destruct (builder_setters_only_assign 65535) as (_ & _ & _ & _ & Hl & _).
  exact (Hl (LineDsc.Dash 4 2) (State {[ 1 := d ]} [lv_draw_line_dsc_init 1])
           1 d eq_refl).
Defined.

(** X18.  The order in which a descriptor is built does not matter as long
    as the setters do not meet: on each of the ten builders, two setters
    that assign no member in common give the same record, the same state
    and the same returned reference when called in either order. *)
Theorem builder_setters_commute (LV_DRAW_LABEL_NO_TXT_SEL : Z) :
  setters_commute FillDsc.invoke ∧
  setters_commute BorderDsc.invoke ∧
  setters_commute BoxShadowDsc.invoke ∧
  setters_commute RectDsc.invoke ∧
  setters_commute LineDsc.invoke ∧
  setters_commute ArcDsc.invoke ∧
  setters_commute TriangleDsc.invoke ∧
  setters_commute ImageDsc.invoke ∧
  setters_commute (LabelDsc.invoke LV_DRAW_LABEL_NO_TXT_SEL) ∧
  setters_commute LetterDsc.invoke.
Proof.
  repeat apply conj; apply assigning_commute.
  - apply FillDsc_assigning.
  - apply BorderDsc_assigning.
  - apply BoxShadowDsc_assigning.
  - apply RectDsc_assigning.
  - apply LineDsc_assigning.
  - apply ArcDsc_assigning.
  - apply TriangleDsc_assigning.
  - apply ImageDsc_assigning.
  - apply LabelDsc_assigning.
  - apply LetterDsc_assigning.
Qed.

Lemma builder_setters_commute_witness :
  let st := State {[ 1 := ∅ ]} ([] : list dsc_call) in
  chain LineDsc.invoke [LineDsc.P1 0 0; LineDsc.Rounded true] 1 st =
    chain LineDsc.invoke [LineDsc.Rounded true; LineDsc.P1 0 0] 1 st.
Proof.
  intros st.
  destruct (builder_setters_commute 65535) as (_ & _ & _ & _ & Hl & _).
  apply (Hl (LineDsc.P1 0 0) (LineDsc.Rounded true) st 1).
  apply (bool_decide_unpack _). vm_compute. exact I.
Defined.

(** X19.  The last assignment wins: on each of the ten builders, a setter
    called after another that assigns only members the later one assigns
    too leaves the builder exactly as if the earlier call had not been
    made.  In particular calling a setter again replaces what the first
    call set, and a setter of several members ([LineDsc::points],
    [rounded], [dash], ...) overrides the setters of each of them. *)
Theorem builder_last_setter_wins (LV_DRAW_LABEL_NO_TXT_SEL : Z) :
  last_setter_wins FillDsc.invoke ∧
  last_setter_wins BorderDsc.invoke ∧
  last_setter_wins BoxShadowDsc.invoke ∧
  last_setter_wins RectDsc.invoke ∧
  last_setter_wins LineDsc.invoke ∧
  last_setter_wins ArcDsc.invoke ∧
  last_setter_wins TriangleDsc.invoke ∧
  last_setter_wins ImageDsc.invoke ∧
  last_setter_wins (LabelDsc.invoke LV_DRAW_LABEL_NO_TXT_SEL) ∧
  last_setter_wins LetterDsc.invoke.
Proof.
  repeat apply conj; apply assigning_last_wins.
  - apply FillDsc_assigning.
  - apply BorderDsc_assigning.
  - apply BoxShadowDsc_assigning.
  - apply RectDsc_assigning.
  - apply LineDsc_assigning.
  - apply ArcDsc_assigning.
  - apply TriangleDsc_assigning.
  - apply ImageDsc_assigning.
  - apply LabelDsc_assigning.
  - apply LetterDsc_assigning.
Qed.

Lemma builder_last_setter_wins_witness :
  let st := State {[ 1 := ∅ ]} ([] : list dsc_call) in
  chain LineDsc.invoke [LineDsc.Round_start false; LineDsc.Rounded true] 1 st =
    chain LineDsc.invoke [LineDsc.Rounded true] 1 st.
Proof.
  intros st.
  destruct (builder_last_setter_wins 65535) as (_ & _ & _ & _ & Hl & _).
  apply (Hl (LineDsc.Round_start false) (LineDsc.Rounded true) st 1).
  apply (bool_decide_unpack _). vm_compute. exact I.
Defined.

(** ** libs/qrcode.hpp *)

(** X20.  [QRCode::data(std::string_view)] makes exactly the engine call
    that [update(text.data(), text.size())] makes, [lv_qrcode_update] with
    the bytes of the text and their number, but does not report its
    outcome: it returns the object whatever the engine answers, where
    [update] returns whether the answer was [LV_RESULT_OK].  (The length is
    passed as a [uint32_t], so this is for texts shorter than 2^32
    bytes.) *)
Theorem qrcode_data_view_is_update_unreported `{Engine qrcode_call}
    (st : state ptr qrcode_call) (this : Z) (o : ptr) (text : list byte) :
  heap st !! this = Some o →
  Z.of_nat (length text) < 2 ^ 32 →
  let c := lv_qrcode_update o text (Z.of_nat (length text)) in
  QRCode.data_view text this st =
    Some (this, State (heap st) (trace st ++ [c])) ∧
  QRCode.update this text (Z.of_nat (length text)) st =
    Some (lv_result_eqb (answer_result (trace st) c) LV_RESULT_OK,
          State (heap st) (trace st ++ [c])).
Proof.
  intros Hthis Hlen c. split.
  - unfold QRCode.data_view. run. rewrite Hthis. subst c.
    rewrite Z.mod_small by lia. reflexivity.
  - unfold QRCode.update. run. now rewrite Hthis.
Qed.

Lemma qrcode_data_view_is_update_unreported_witness :
  let E := refusing_engine qrcode_call in
  let text := [x68; x69] in
  let c := lv_qrcode_update 42 text 2 in
  QRCode.data_view text 1 (State {[ 1 := 42 ]} []) =
    Some (1, State {[ 1 := 42 ]} ([] ++ [c])) ∧
  @QRCode.update E 1 text 2 (State {[ 1 := 42 ]} []) =
    Some (lv_result_eqb (@answer_result _ E [] c) LV_RESULT_OK,
          State {[ 1 := 42 ]} ([] ++ [c])).
Proof.
  intros E text c.
  refine (@qrcode_data_view_is_update_unreported E
            (State {[ 1 := 42 ]} []) 1 42 text _ _).
  - reflexivity.
  - reflexivity.
Defined.

(** ** widgets/box.hpp *)

(** X21.  The member functions [Box] declares under the names of
    [ObjectMixin]'s ([size], [width], ..., [scrollable]) do what the ones
    they hide do, on every object in every state.  [Box::create] makes two
    engine calls, [lv_obj_create] and then [lv_obj_remove_flag] of
    [LV_OBJ_FLAG_SCROLLABLE] on what the first returned, without checking
    it, and the box returned holds that handle. *)
Theorem box_members_do_what_they_hide `{LvConf} `{Engine obj_call} :
  (∀ (m : Box.mutator) (this : Z) (st : state ptr obj_call),
     Box.invoke m this st = ObjectMixin.invoke (Box.hidden m) this st) ∧
  (∀ (st : state ptr obj_call) (result : Z) (parent : ptr),
     heap st !! result = None →
     let created := answer_ptr (trace st) (lv_obj_create parent) in
     Box.create result parent st =
       Some (tt, State (<[result := created]> (heap st))
                       (trace st ++
                          [lv_obj_create parent;
                           lv_obj_remove_flag created LV_OBJ_FLAG_SCROLLABLE]))).
Proof.
  split.
  - intros m this st.
    destruct m; destruct (heap st !! this) eqn:Hthis; exec; reflexivity.
  - intros st result parent Hfresh created.
    unfold Box.create. run. rewrite Hfresh. lookups. cbn [heap trace].
    now rewrite insert_insert_eq, <- app_assoc.
Qed.

Lemma box_members_do_what_they_hide_witness :
  @Box.create lvgl_conf (refusing_engine obj_call) 1 7 (State ∅ []) =
    Some (tt, State (<[1 := nullptr]> ∅)
                    ([] ++ [lv_obj_create 7;
                            lv_obj_remove_flag nullptr
                              (@LV_OBJ_FLAG_SCROLLABLE lvgl_conf)])).
Proof.
  exact (proj2 (@box_members_do_what_they_hide lvgl_conf
                  (refusing_engine obj_call)) (State ∅ []) 1 7 eq_refl).
Defined.

(** ** widgets/button.hpp *)

(** X22.  [Button::toggle] asks the engine whether the button is checked
    and then makes the opposite so: it removes [LV_STATE_CHECKED] if the
    engine says it is set and adds it otherwise, which is
    [checked(!checked())].  [enabled(v)] is [disabled(!v)]: it removes
    [LV_STATE_DISABLED] for [true] and adds it for [false]. *)
Theorem button_toggle_and_enabled `{Engine button_call}
    (LV_STATE_CHECKED LV_STATE_DISABLED : Z)
    (st : state ptr button_call) (this : Z) (o : ptr) :
  heap st !! this = Some o →
  let query := ObjCall (lv_obj_has_state o LV_STATE_CHECKED) in
  Button.toggle LV_STATE_CHECKED this st =
    Some (this,
          State (heap st)
                (trace st ++
                   [query;
                    ObjCall (if answer_bool (trace st) query
                             then lv_obj_remove_state o LV_STATE_CHECKED
                             else lv_obj_add_state o LV_STATE_CHECKED)])) ∧
  Button.toggle LV_STATE_CHECKED this st =
    (c ← Button.get_checked LV_STATE_CHECKED this;
     Button.checked LV_STATE_CHECKED (negb c) this) st ∧
  (∀ v : bool,
     Button.enabled LV_STATE_DISABLED v this st =
       Some (this,
             State (heap st)
                   (trace st ++
                      [ObjCall (if v
                                then lv_obj_remove_state o LV_STATE_DISABLED
                                else lv_obj_add_state o LV_STATE_DISABLED)]))).
Proof.
  intros Hthis query. repeat apply conj.
  - unfold Button.toggle. run. rewrite Hthis. fold query.
    destruct (answer_bool (trace st) query); simpl;
      now rewrite <- app_assoc.
  - unfold Button.toggle, Button.get_checked, Button.checked. run.
    rewrite Hthis. fold query.
    destruct (answer_bool (trace st) query); simpl; now rewrite Hthis.
  - intros v. unfold Button.enabled, Button.disabled. run. rewrite Hthis.
    now destruct v.
Qed.

Lemma button_toggle_and_enabled_witness :
  let E := obliging_engine button_call in
  @Button.toggle E 1 1 (State {[ 1 := 42 ]} []) =
    Some (1, State {[ 1 := 42 ]}
                   ([] ++ [ObjCall (lv_obj_has_state 42 1);
                           ObjCall (lv_obj_remove_state 42 1)])).
Proof.
  intros E.
  exact (proj1 (@button_toggle_and_enabled E 1 128
                  (State {[ 1 := 42 ]} []) 1 42 eq_refl)).
Defined.

(** X23.  [Button::set_text] sets a text only on a first child that is a
    label: it asks the engine for the first child; if there is none it
    stops there, without asking for a type; if there is one it asks whether
    it is of [lv_label_class], and only if the engine says so it calls
    [lv_label_set_text] on that child.  It returns the button in every
    case and never creates a label. *)
Theorem button_set_text_only_on_a_label_child `{Engine button_call}
    (lv_label_class : ptr) (txt : string)
    (st : state ptr button_call) (this : Z) (o : ptr) :
  heap st !! this = Some o →
  let get_child := ObjCall (lv_obj_get_child o 0) in
  let child := answer_ptr (trace st) get_child in
  let ask_type := lv_obj_check_type child lv_label_class in
  let is_label := answer_bool (trace st ++ [get_child]) ask_type in
  ∃ cs,
    Button.set_text lv_label_class txt this st =
      Some (this, State (heap st) (trace st ++ get_child :: cs)) ∧
    (child = nullptr → cs = []) ∧
    (child ≠ nullptr → is_label = false → cs = [ask_type]) ∧
    (child ≠ nullptr → is_label = true →
     cs = [ask_type; lv_label_set_text child txt]).
Proof.
  intros Hthis get_child child ask_type is_label.
  unfold Button.set_text. run. rewrite Hthis.
  fold get_child. fold child.
  destruct (non_null child) eqn:Hchild; simpl.
  - assert (Hne : child ≠ nullptr).
    { intros Heq. rewrite Heq in Hchild. discriminate. }
    fold ask_type. fold is_label. destruct is_label eqn:Hlabel; simpl.
    + exists [ask_type; lv_label_set_text child txt].
      rewrite <- !app_assoc. split; [reflexivity|].
      split; [contradiction|]. split; [discriminate|reflexivity].
    + exists [ask_type]. rewrite <- !app_assoc. split; [reflexivity|].
      split; [contradiction|]. split; [reflexivity|discriminate].
  - assert (Heq : child = nullptr).
    { unfold non_null in Hchild. now apply negb_false_iff, Z.eqb_eq in Hchild. }
    exists []. split; [reflexivity|]. split; [reflexivity|].
    split; intros Hne; contradiction.
Qed.

Lemma button_set_text_only_on_a_label_child_witness :
  let E := obliging_engine button_call in
  ∃ cs,
    @Button.set_text E 77 "OK" 1 (State {[ 1 := 42 ]} []) =
      Some (1, State {[ 1 := 42 ]}
                     ([] ++ ObjCall (lv_obj_get_child 42 0) :: cs)) ∧
    cs = [lv_obj_check_type 4096 77; lv_label_set_text 4096 "OK"].
Proof.
  intros E.
  assert (Hthis : heap (State {[ 1 := 42 ]} ([] : list button_call)) !! 1
                  = Some 42) by reflexivity.
  destruct (@button_set_text_only_on_a_label_child E 77 "OK"
              (State {[ 1 := 42 ]} []) 1 42 Hthis)
    as (cs & Hrun & _ & _ & Hlabel).
  exists cs. split; [exact Hrun|].
  apply Hlabel; [discriminate|reflexivity].
Defined.

(** X24.  [text_button(parent, text)] makes four engine calls, in this
    order: it creates the button under [parent], creates a label under the
    button the engine returned, sets the text on the label the engine
    returned and centers that label; [toggle_button] then adds
    [LV_OBJ_FLAG_CHECKABLE] to the button.  The button returned holds the
    handle of the first call; no answer of the engine is checked on the
    way. *)
Theorem text_button_builds_a_button_with_a_centered_label
    `{Engine button_call} (LV_OBJ_FLAG_CHECKABLE : Z)
    (st : state ptr button_call) (result : Z) (parent : ptr) (txt : string) :
  heap st !! result = None →
  let create := lv_button_create parent in
  let btn := answer_ptr (trace st) create in
  let create_label := lv_label_create btn in
  let lbl := answer_ptr (trace st ++ [create]) create_label in
  let calls := [create; create_label; lv_label_set_text lbl txt;
                ObjCall (lv_obj_center lbl)] in
  Button.text_button result parent txt st =
    Some (result, State (<[result := btn]> (heap st)) (trace st ++ calls)) ∧
  Button.toggle_button LV_OBJ_FLAG_CHECKABLE result parent txt st =
    Some (result,
          State (<[result := btn]> (heap st))
                (trace st ++ calls
                   ++ [ObjCall (lv_obj_add_flag btn LV_OBJ_FLAG_CHECKABLE)])).
Proof.
  intros Hfresh create btn create_label lbl calls. split.
  - unfold Button.text_button, Button.create, Button.text. run.
    rewrite Hfresh. lookups. cbn [heap trace].
    now rewrite <- !app_assoc.
  - unfold Button.toggle_button, Button.create, Button.text,
      Button.checkable. run.
    rewrite Hfresh. lookups. cbn [heap trace].
    now rewrite <- !app_assoc.
Qed.

Lemma text_button_builds_a_button_with_a_centered_label_witness :
  let E := obliging_engine button_call in
  @Button.text_button E 1 7 "OK" (State ∅ []) =
    Some (1, State (<[1 := 4096]> ∅)
                   ([] ++ [lv_button_create 7; lv_label_create 4096;
                           lv_label_set_text 4096 "OK";
                           ObjCall (lv_obj_center 4096)])).
Proof.
  intros E.
  exact (proj1 (@text_button_builds_a_button_with_a_centered_label E 2
                  (State ∅ []) 1 7 "OK" eq_refl)).
Defined.

(** ** namespace draw: the convenience overloads *)

(** X25.  Each convenience overload of [draw::line], [arc], [triangle],
    [image] and [label] makes two engine calls: it has the engine
    initialise a descriptor and submits that descriptor with one draw call
    on the given layer.  The descriptor submitted is the initialised one
    with just the members assigned that the arguments name, in the order
    of the source; every other member is as the engine initialised it.
    The radius of [arc] is a [uint16_t]: the descriptor holds the argument
    modulo [2 ^ 16].
    [label] assigns the font only if one is given: with a null font the
    descriptor keeps the font of [lv_draw_label_dsc_init].  The local
    builder is gone afterwards. *)
Theorem convenience_overloads_submit_one_descriptor `{DscEngine}
    (st : state lv_dsc convenience_call) (dsc : Z) (layer : ptr) :
  heap st !! dsc = None →
  let built (init : ptr → dsc_call) (kvs : list (string * member)) :=
    assigns (dsc_effect (init dsc) ∅) kvs in
  let calls (init : ptr → dsc_call) (c : @Draw.draw_call built_descriptors) :=
    trace st ++ [Building (init dsc); Drawing c] in
  (∀ (x1 y1 x2 y2 : Z) (color : lv_color_t) (width : Z),
     Convenience.line dsc layer x1 y1 x2 y2 color width st =
       Some (tt, State (heap st)
         (calls lv_draw_line_dsc_init
            (@Draw.lv_draw_line built_descriptors layer
               (built lv_draw_line_dsc_init
                  [("p1.x", MInt x1); ("p1.y", MInt y1);
                   ("p2.x", MInt x2); ("p2.y", MInt y2);
                   ("color", MColor color); ("width", MInt width)]%string))))) ∧
  (∀ (center_x center_y radius start_angle end_angle : Z)
     (color : lv_color_t) (width : Z),
     Convenience.arc dsc layer center_x center_y radius start_angle end_angle
         color width st =
       Some (tt, State (heap st)
         (calls lv_draw_arc_dsc_init
            (@Draw.lv_draw_arc built_descriptors layer
               (built lv_draw_arc_dsc_init
                  [("center.x", MInt center_x); ("center.y", MInt center_y);
                   ("radius", MInt (radius mod 2 ^ 16));
                   ("start_angle", MInt start_angle);
                   ("end_angle", MInt end_angle);
                   ("color", MColor color); ("width", MInt width)]%string))))) ∧
  (∀ (x1 y1 x2 y2 x3 y3 : Z) (color : lv_color_t),
     Convenience.triangle dsc layer x1 y1 x2 y2 x3 y3 color st =
       Some (tt, State (heap st)
         (calls lv_draw_triangle_dsc_init
            (@Draw.lv_draw_triangle built_descriptors layer
               (built lv_draw_triangle_dsc_init
                  [("p[0].x", MInt x1); ("p[0].y", MInt y1);
                   ("p[1].x", MInt x2); ("p[1].y", MInt y2);
                   ("p[2].x", MInt x3); ("p[2].y", MInt y3);
                   ("color", MColor color)]%string))))) ∧
  (∀ (src : ptr) (coords : lv_area_t),
     Convenience.image dsc layer src coords st =
       Some (tt, State (heap st)
         (calls lv_draw_image_dsc_init
            (@Draw.lv_draw_image built_descriptors layer
               (built lv_draw_image_dsc_init [("src", MPtr src)]%string)
               coords)))) ∧
  (∀ (text : ptr) (coords : lv_area_t) (font : ptr) (color : lv_color_t),
     Convenience.label dsc layer text coords font color st =
       Some (tt, State (heap st)
         (calls lv_draw_label_dsc_init
            (@Draw.lv_draw_label built_descriptors layer
               (built lv_draw_label_dsc_init
                  ([("text", MPtr text); ("color", MColor color)]%string
                     ++ if non_null font then [("font"%string, MPtr font)]
                        else []))
               coords)))).
Proof.
  intros Hfresh built calls. subst built calls. cbv beta.
  repeat apply conj; intros.
  2: rewrite <- (Z.mod_mod radius (2 ^ 16)) by discriminate;
     change (radius mod 2 ^ 16) with (uint16 radius);
     change (uint16 radius mod 2 ^ 16) with (uint16 (uint16 radius)).
  1-4: unfold Convenience.line, Convenience.arc, Convenience.triangle,
         Convenience.image, Convenience.building;
       run_assignments; rewrite !insert_insert_eq;
       rewrite (delete_insert_fresh _ _ _ Hfresh);
       rewrite <- ?app_assoc; reflexivity.
  unfold Convenience.label, Convenience.building.
  destruct (non_null font); run_assignments; rewrite !insert_insert_eq;
    rewrite (delete_insert_fresh _ _ _ Hfresh);
    rewrite <- ?app_assoc; reflexivity.
Qed.

Lemma convenience_overloads_submit_one_descriptor_witness :
  let st : state lv_dsc convenience_call := State ∅ [] in
  let black := lv_color x00 x00 x00 in
  let area := lv_area 10 260 290 290 in
  @Convenience.label opaque_dsc_engine 1 7 5000 area nullptr black st =
    Some (tt, State ∅
      ([] ++ [Building (lv_draw_label_dsc_init 1);
              Drawing (@Draw.lv_draw_label built_descriptors 7
                         (<["color"%string := MColor black]>
                            (<["text"%string := MPtr 5000]>
                               {[ "opa"%string := MInt 255 ]}))
                         area)])) ∧
  @Convenience.arc opaque_dsc_engine 1 7 100 100 70000 0 270 black 5 st =
    Some (tt, State ∅
      ([] ++ [Building (lv_draw_arc_dsc_init 1);
              Drawing (@Draw.lv_draw_arc built_descriptors 7
                         (assigns {[ "opa"%string := MInt 255 ]}
                            [("center.x", MInt 100); ("center.y", MInt 100);
                             ("radius", MInt 4464);
                             ("start_angle", MInt 0); ("end_angle", MInt 270);
                             ("color", MColor black);
                             ("width", MInt 5)]%string))])).
Proof.
  intros st black area.
  assert (Hfresh : heap st !! 1 = None) by reflexivity.
  destruct (@convenience_overloads_submit_one_descriptor opaque_dsc_engine
              st 1 7 Hfresh) as (_ & Harc & _ & _ & Hlabel).
  split.
  - exact (Hlabel 5000 area nullptr black).
  - exact (Harc 100 100 70000 0 270 black 5).
Defined.
